(** * Travel-burden chains of the NBA schedule analyser

    A shallow embedding of [schedulizer.py] (the per-team burden chain) and of
    [create_schedule_mapping] from [metrics.py] (the batch over all teams),
    followed by the properties the specification states about them; then of
    the aggregates built on the chains (the rest of [metrics.py],
    [metrics_normalized.py], [analysis.py] and [calculate_cumulative_burden]
    of [visualize_burden.py]) and of the text functions of [html_reader.py],
    with further properties of the code.

    Modelling conventions.
    - Python [str] is [string]; the regular expressions of [parse_datetime]
      are read on ASCII text (the classes [\w], [\s], [\d] restricted to
      bytes below 128).
    - Python [float] is [Q]: arithmetic is exact, rounding and NaN are not
      modelled.  Division is [truediv], which raises on a zero divisor as
      Python's does.
    - A Python [dict] is a [gmap]; a pandas frame is the list of its rows.
    - Exceptions are values of [exn], threaded through the [result] monad.
    - [geopy.distance.geodesic] and pandas' [sort_values] are library code:
      the first is a parameter of the model, the second is taken through its
      documented contract (class [SortValues]).
    - [int] on a run of decimal digits is [int_of_digits]: the bound CPython
      puts on the length of such a run is not modelled.  The text methods
      [strip], [upper] and [lower] are read on ASCII text, like the regular
      expressions.
    - A dictionary that is traversed in the order of its keys is an
      association list; [float] on a field of a CSV file is a parameter. *)

From Stdlib Require Import ZArith QArith Qabs Ascii String List Sorted Permutation Lia.
From Stdlib Require Import DecimalString DecimalPos.
From stdpp Require Import base option list gmap strings sorting.

Local Open Scope string_scope.
Local Open Scope Z_scope.

(** ** Exceptions and the result monad *)

Inductive exn : Type :=
| ValueError (msg : string)
| KeyError (key : string)
| IndexError
| ZeroDivisionError
| OverflowError.

Inductive result (A : Type) : Type :=
| Ok (a : A)
| Raise (e : exn).
Arguments Ok {A} a.
Arguments Raise {A} e.

Definition rbind {A B} (c : result A) (k : A -> result B) : result B :=
  match c with
  | Ok a => k a
  | Raise e => Raise e
  end.

Notation "'let*' x ':=' c 'in' k" := (rbind c (fun x => k))
  (at level 10, x pattern, c at level 100, k at level 200).

(** The body of a [for] loop run on every element, in order; the first
    exception leaves the loop. *)
Fixpoint for_each {A B} (body : A -> result B) (xs : list A) : result (list B) :=
  match xs with
  | [] => Ok []
  | x :: xs' =>
      let* y := body x in
      let* ys := for_each body xs' in
      Ok (y :: ys)
  end.

(** ** Dates and times ([datetime.datetime]) *)

Record datetime : Type := mk_datetime {
  year : Z; month : Z; day : Z; hour : Z; minute : Z
}.

Definition is_leap (y : Z) : bool :=
  (y mod 4 =? 0) && (negb (y mod 100 =? 0) || (y mod 400 =? 0)).

Definition days_in_month (y m : Z) : Z :=
  if m =? 2 then (if is_leap y then 29 else 28)
  else if (m =? 4) || (m =? 6) || (m =? 9) || (m =? 11) then 30
  else 31.

Definition days_before_year (y : Z) : Z :=
  let y' := y - 1 in y' * 365 + y' / 4 - y' / 100 + y' / 400.

Definition days_before_month (y m : Z) : Z :=
  fold_right Z.add 0 (map (days_in_month y) (map Z.of_nat (seq 1 (Z.to_nat (m - 1))))).

Definition toordinal (d : datetime) : Z :=
  days_before_year (year d) + days_before_month (year d) (month d) + day d.

(** The instant as a count of minutes: the integer pandas sorts on and
    subtracts (its unit is finer, the order and the differences agree). *)
Definition timestamp (d : datetime) : Z :=
  (toordinal d * 24 + hour d) * 60 + minute d.

(** [(a - b).total_seconds()] *)
Definition total_seconds_between (a b : datetime) : Z :=
  (timestamp a - timestamp b) * 60.

(** An argument of the constructor is converted to a C [int]. *)
Definition fits_c_int (v : Z) : bool :=
  (-2147483648 <=? v) && (v <=? 2147483647).

(** The constructor [datetime(year, month, day, hour, minute)] converts its
    arguments, raising [OverflowError] for one that does not fit a C [int],
    then checks the fields and raises [ValueError] when one is out of
    range. *)
Definition new_datetime (y m d h mi : Z) : result datetime :=
  if negb (forallb fits_c_int [y; m; d; h; mi]) then Raise OverflowError
  else if negb ((1 <=? y) && (y <=? 9999)) then Raise (ValueError "year is out of range")
  else if negb ((1 <=? m) && (m <=? 12)) then Raise (ValueError "month must be in 1..12")
  else if negb ((1 <=? d) && (d <=? days_in_month y m)) then
    Raise (ValueError "day is out of range for month")
  else if negb ((0 <=? h) && (h <=? 23)) then Raise (ValueError "hour must be in 0..23")
  else if negb ((0 <=? mi) && (mi <=? 59)) then Raise (ValueError "minute must be in 0..59")
  else Ok (mk_datetime y m d h mi).

(** ** Scanning text: the two regular expressions of [parse_datetime] *)

Definition is_digit (c : ascii) : bool :=
  let n := nat_of_ascii c in (48 <=? n)%nat && (n <=? 57)%nat.

Definition is_word (c : ascii) : bool :=
  let n := nat_of_ascii c in
  is_digit c || ((65 <=? n)%nat && (n <=? 90)%nat)
  || ((97 <=? n)%nat && (n <=? 122)%nat) || (n =? 95)%nat.

Definition is_space (c : ascii) : bool :=
  let n := nat_of_ascii c in
  ((9 <=? n)%nat && (n <=? 13)%nat) || ((28 <=? n)%nat && (n <=? 32)%nat).

(** The longest prefix of [s] made of characters of class [p], and the rest. *)
Fixpoint span (p : ascii -> bool) (s : string) : string * string :=
  match s with
  | EmptyString => (EmptyString, EmptyString)
  | String c s' =>
      if p c then let '(a, b) := span p s' in (String c a, b)
      else (EmptyString, s)
  end.

(** A group [(C+)]: at least one character of the class, as many as there are. *)
Definition plus (p : ascii -> bool) (s : string) : option (string * string) :=
  match span p s with
  | (EmptyString, _) => None
  | (a, b) => Some (a, b)
  end.

(** One literal character. *)
Definition lit (c : ascii) (s : string) : option string :=
  match s with
  | String c' s' => if Ascii.eqb c c' then Some s' else None
  | EmptyString => None
  end.

(** [int(text)] on a run of decimal digits. *)
Definition int_of_digits (s : string) : Z :=
  fold_left (fun acc c => acc * 10 + Z.of_nat (nat_of_ascii c - 48))
            (list_ascii_of_string s) 0.

(** [re.match(r'(\w+),\s+(\w+)\s+(\d+),\s+(\d+)', date_str)]: the groups 2, 3
    and 4 (group 1, the day name, is not used). *)
Definition match_date (s : string) : option (string * string * string) :=
  '(_, s) ← plus is_word s;
  s ← lit "," s;
  '(_, s) ← plus is_space s;
  '(mon, s) ← plus is_word s;
  '(_, s) ← plus is_space s;
  '(d, s) ← plus is_digit s;
  s ← lit "," s;
  '(_, s) ← plus is_space s;
  '(y, _) ← plus is_digit s;
  Some (mon, d, y).

(** [re.match(r'(\d+):(\d+)([ap])', time_str)] *)
Definition match_time (s : string) : option (string * string * ascii) :=
  '(h, s) ← plus is_digit s;
  s ← lit ":" s;
  '(mi, s) ← plus is_digit s;
  match s with
  | String c _ =>
      if Ascii.eqb c "a" || Ascii.eqb c "p" then Some (h, mi, c) else None
  | EmptyString => None
  end.

Definition month_map : gmap string Z :=
  list_to_map
    [("Jan", 1); ("Feb", 2); ("Mar", 3); ("Apr", 4); ("May", 5); ("Jun", 6);
     ("Jul", 7); ("Aug", 8); ("Sep", 9); ("Oct", 10); ("Nov", 11); ("Dec", 12)].

Definition parse_datetime (date_str time_str : string) : result datetime :=
  match match_date date_str with
  | None => Raise (ValueError ("Could not parse date: " ++ date_str))
  | Some (mon, d, y) =>
      match month_map !! mon with
      | None => Raise (KeyError mon)
      | Some m =>
          let day := int_of_digits d in
          let year := int_of_digits y in
          match match_time time_str with
          | None => Raise (ValueError ("Could not parse time: " ++ time_str))
          | Some (h, mi, am_pm) =>
              let hour := int_of_digits h in
              let minute := int_of_digits mi in
              let hour :=
                if Ascii.eqb am_pm "p" && negb (hour =? 12) then hour + 12
                else if Ascii.eqb am_pm "a" && (hour =? 12) then 0
                else hour in
              new_datetime year m day hour minute
          end
      end
  end.

(** ** The input tables *)

(** A row of the season schedule CSV. *)
Record season_row : Type := mk_season_row {
  Game_Date : string;        (* 'Game Date' *)
  Start_ET : string;         (* 'Start (ET)' *)
  Visitor_Neutral : string;  (* 'Visitor/Neutral' *)
  Home_Neutral : string;     (* 'Home/Neutral' *)
  Arena : string
}.

(** A row of [nba_stadiums.csv]. *)
Record stadium_row : Type := mk_stadium_row {
  Team : string; Lat : Q; Long : Q
}.

Definition coords : Type := Q * Q.

(** A cell of the distance matrix as [read_csv] leaves it: a number, or text
    that [float] does not accept. *)
Inductive cell : Type :=
| Num (x : Q)
| Text (s : string).

Definition float_of_cell (c : cell) : result Q :=
  match c with
  | Num x => Ok x
  | Text s => Raise (ValueError ("could not convert string to float: " ++ s))
  end.

(** The distance matrix read with [index_col=0]: the row labels, and under
    each the cells by column label (labels are unique). *)
Abbreviation distance_frame := (gmap string (gmap string cell)).

(** [df.loc[r, c]] *)
Definition loc (df : distance_frame) (r c : string) : result cell :=
  match df !! r with
  | None => Raise (KeyError r)
  | Some cells =>
      match cells !! c with
      | None => Raise (KeyError c)
      | Some x => Ok x
      end
  end.

(** A row of [team_games]: the season row with the two added columns. *)
Record team_game : Type := mk_team_game {
  season : season_row;
  is_international : bool;
  game_datetime_col : datetime   (* column 'game_datetime' *)
}.

(** One dictionary of the returned list. *)
Record game_dict : Type := mk_game_dict {
  team : string;
  gameindex : nat;
  game_datetime : datetime;
  previous_game_datetime : option datetime;
  opponent : string;
  location : string;
  where_played : string;
  previous_where_played : option string;
  travel_distance : option Q;
  travel_hours : option Q;
  game_mile_hours_burden : option Q
}.

(** ** Library code *)

(** [DataFrame.sort_values(column)] with its default [kind='quicksort'],
    which pandas documents as not stable: the result holds the same rows in
    ascending order of the column, and nothing is promised about rows with
    equal keys. *)
Class SortValues : Type := {
  sort_values : (team_game -> Z) -> list team_game -> list team_game;
  sort_values_perm : forall key l, Permutation (sort_values key l) l;
  sort_values_sorted : forall key l,
    Sorted (fun a b => key a <= key b) (sort_values key l)
}.

(** Python's [float / float]. *)
Definition truediv (a b : Q) : result Q :=
  if Qeq_bool b 0 then Raise ZeroDivisionError else Ok (a / b)%Q.

(** [a > 0] on floats. *)
Definition Qpositive (a : Q) : bool := negb (Qle_bool a 0).

(** [try: c  except (KeyError, ValueError): handler] *)
Definition try_except_key_value {A} (c : result A) (handler : A) : result A :=
  match c with
  | Ok a => Ok a
  | Raise (KeyError _) | Raise (ValueError _) => Ok handler
  | Raise e => Raise e
  end.

(** ** [schedulizer] *)

Definition INTERNATIONAL_ARENAS : gmap string coords :=
  list_to_map
    [("Mexico City Arena", (19.496309, -99.175429)%Q);
     ("AccorHotels Arena", (48.8386, 2.3785)%Q)].

Definition normalize_team_name_for_coords (name : string) : string :=
  if String.eqb name "Sacramento Kings" then "Sacremento Kings" else name.

Definition normalize_team_name (name : string) : string :=
  if String.eqb name "Sacramento Kings" then "Sacremento Kings" else name.

(** [enumerate]-like view of [team_games.iterrows()] after
    [reset_index(drop=True)]: positions from 0. *)
Definition iterrows (team_games : list team_game) : list (nat * team_game) :=
  zip (seq 0 (length team_games)) team_games.

(** [team_games.iloc[i]] *)
Definition iloc (team_games : list team_game) (i : nat) : result team_game :=
  match team_games !! i with
  | Some r => Ok r
  | None => Raise IndexError
  end.

Section Schedulizer.

Context `{SortValues}.
Variable geodesic : coords -> coords -> Q.          (* [geodesic(a, b).miles] *)
Variable nba_stadiums : list stadium_row.           (* 'nba_stadiums.csv' *)
Variable regular_season_data : list season_row.
Variable stadium_distance_data : distance_frame.

(** [dict(zip(Team, zip(Lat, Long)))]: a later row replaces an earlier one. *)
Definition team_coords : gmap string coords :=
  foldl (fun m r => <[Team r := (Lat r, Long r)]> m) ∅ nba_stadiums.

Definition get_coordinates (team_name arena_name : string) (is_intl : bool)
  : result coords :=
  if is_intl then
    match INTERNATIONAL_ARENAS !! arena_name with
    | Some c => Ok c
    | None => Raise (KeyError arena_name)
    end
  else
    let normalized_name := normalize_team_name_for_coords team_name in
    match team_coords !! normalized_name with
    | Some c => Ok c
    | None => Raise (ValueError ("Could not find coordinates for team: " ++ team_name))
    end.

(** Lines 166-211: the distance of the leg from [prev_row] to [row]. *)
Definition leg_distance (prev_row row : team_game) : result Q :=
  let prev_where_played := Home_Neutral (season prev_row) in
  let where_played := Home_Neutral (season row) in
  let prev_is_international := is_international prev_row in
  let curr_is_international := is_international row in
  if prev_is_international || curr_is_international then
    let prev_arena := Arena (season prev_row) in
    let curr_arena := Arena (season row) in
    let* prev_coords :=
      get_coordinates prev_where_played prev_arena prev_is_international in
    let* curr_coords :=
      get_coordinates where_played curr_arena curr_is_international in
    Ok (geodesic prev_coords curr_coords)
  else
    let prev_where_played_normalized := normalize_team_name prev_where_played in
    let where_played_normalized := normalize_team_name where_played in
    try_except_key_value
      (let* x := loc stadium_distance_data
                     prev_where_played_normalized where_played_normalized in
       let* travel_distance := float_of_cell x in
       if String.eqb prev_where_played where_played then Ok 0%Q
       else Ok travel_distance)
      0%Q.

(** Lines 213-217. *)
Definition burden (travel_distance travel_hours : Q) : result (option Q) :=
  if Qpositive travel_hours then
    let* b := truediv travel_distance travel_hours in Ok (Some b)
  else Ok None.

(** The body of the loop over [team_games.iterrows()]. *)
Definition loop_body (team_games : list team_game) (team_name : string)
           (it : nat * team_game) : result game_dict :=
  let '(idx, row) := it in
  let is_home := String.eqb (Home_Neutral (season row)) team_name in
  let location := if is_home then "home" else "away" in
  let opponent :=
    if negb is_home then Home_Neutral (season row)
    else Visitor_Neutral (season row) in
  let where_played := Home_Neutral (season row) in
  let game_dt := game_datetime_col row in
  if (idx =? 0)%nat then
    Ok {| team := team_name;
          gameindex := idx + 1;
          game_datetime := game_dt;
          previous_game_datetime := None;
          opponent := opponent;
          location := location;
          where_played := where_played;
          previous_where_played := None;
          travel_distance := None;
          travel_hours := None;
          game_mile_hours_burden := None |}
  else
    let* prev_row := iloc team_games (idx - 1) in
    let prev_game_dt := game_datetime_col prev_row in
    let prev_where_played := Home_Neutral (season prev_row) in
    let travel_hours :=
      (inject_Z (total_seconds_between game_dt prev_game_dt) / 3600)%Q in
    let* travel_distance := leg_distance prev_row row in
    let* game_mile_hours_burden := burden travel_distance travel_hours in
    Ok {| team := team_name;
          gameindex := idx + 1;
          game_datetime := game_dt;
          previous_game_datetime := Some prev_game_dt;
          opponent := opponent;
          location := location;
          where_played := where_played;
          previous_where_played := Some prev_where_played;
          travel_distance := Some travel_distance;
          travel_hours := Some travel_hours;
          game_mile_hours_burden := game_mile_hours_burden |}.

(** Lines 125-235: the forward pass over the ordered games. *)
Definition game_list (team_games : list team_game) (team_name : string)
  : result (list game_dict) :=
  for_each (loop_body team_games team_name) (iterrows team_games).

(** Lines 66-73: the team's rows, flagged. *)
Definition filter_team (team_name : string) : list season_row :=
  filter (fun r => Visitor_Neutral r = team_name \/ Home_Neutral r = team_name)
         regular_season_data.

Definition flag_international (r : season_row) : bool :=
  bool_decide (Arena r ∈ dom INTERNATIONAL_ARENAS).

(** Lines 110-113: [apply] parses the rows in order. *)
Definition add_datetime (r : season_row) : result team_game :=
  let* dt := parse_datetime (Game_Date r) (Start_ET r) in
  Ok {| season := r;
        is_international := flag_international r;
        game_datetime_col := dt |}.

(** Lines 110-113 on a frame without rows: [apply] returns an empty frame
    where a column is expected, and the assignment of a frame of several
    columns to the one column raises pandas' [ValueError] (the text is that
    of pandas 2; earlier versions word it differently). *)
Definition empty_apply_message : string :=
  "Cannot set a DataFrame with multiple columns to the single column game_datetime".

Definition apply_add_datetime (rows : list season_row) : result (list team_game) :=
  match rows with
  | [] => Raise (ValueError empty_apply_message)
  | _ :: _ => for_each add_datetime rows
  end.

(** Lines 66-122: the team's schedule (the warning printed for a short
    season is not modelled).  The check of lines 119-120 is kept where the
    source has it, after the column of datetimes is set. *)
Definition team_schedule (team_name : string) : result (list team_game) :=
  let* team_games := apply_add_datetime (filter_team team_name) in
  let team_games := sort_values (fun g => timestamp (game_datetime_col g)) team_games in
  if (length team_games =? 0)%nat then
    Raise (ValueError ("No games found for " ++ team_name))
  else Ok team_games.

Definition schedulizer (team_name : string) : result (list game_dict) :=
  let* team_games := team_schedule team_name in
  game_list team_games team_name.

End Schedulizer.

(** ** [create_schedule_mapping] (metrics.py) *)

(** Python's [sorted] on a list of strings. *)
Definition string_le (a b : string) : Prop := String.leb a b = true.

#[local] Instance string_le_dec : RelDecision string_le :=
  fun a b => bool_eq_dec (String.leb a b) true.

Definition sorted (l : list string) : list string :=
  merge_sort string_le l.

Section Metrics.

Context `{SortValues}.
Variable geodesic : coords -> coords -> Q.
Variable nba_stadiums : list stadium_row.
Variable regular_season_data : list season_row.
Variable stadium_distance_data : distance_frame.

Definition all_teams : list string :=
  let teams : gset string :=
    list_to_set (Visitor_Neutral <$> regular_season_data)
    ∪ list_to_set (Home_Neutral <$> regular_season_data) in
  sorted (elements teams).

(** The body of [for team in all_teams]: the [try] stores the schedule,
    [except Exception] stores [None]. *)
Definition record_team (schedule_mapping : gmap string (option (list game_dict)))
           (team : string) : gmap string (option (list game_dict)) :=
  match schedulizer geodesic nba_stadiums regular_season_data
                    stadium_distance_data team with
  | Ok schedule => <[team := Some schedule]> schedule_mapping
  | Raise _ => <[team := None]> schedule_mapping
  end.

Definition create_schedule_mapping : gmap string (option (list game_dict)) :=
  foldl record_team ∅ all_teams.

End Metrics.

(** ** Vocabulary of the statements *)

(** The hours between two consecutive games, as line 164 computes them. *)
Definition hours_between (prev_row row : team_game) : Q :=
  (inject_Z (total_seconds_between (game_datetime_col row) (game_datetime_col prev_row))
   / 3600)%Q.

(** The record of the first game. *)
Definition first_record (team_name : string) (row : team_game) : game_dict :=
  let is_home := String.eqb (Home_Neutral (season row)) team_name in
  {| team := team_name;
     gameindex := 1;
     game_datetime := game_datetime_col row;
     previous_game_datetime := None;
     opponent := if negb is_home then Home_Neutral (season row)
                 else Visitor_Neutral (season row);
     location := if is_home then "home" else "away";
     where_played := Home_Neutral (season row);
     previous_where_played := None;
     travel_distance := None;
     travel_hours := None;
     game_mile_hours_burden := None |}.

(** The record of a later game, given the distance of its leg. *)
Definition later_record (team_name : string) (idx : nat)
           (prev_row row : team_game) (dist : Q) : game_dict :=
  let is_home := String.eqb (Home_Neutral (season row)) team_name in
  {| team := team_name;
     gameindex := idx + 1;
     game_datetime := game_datetime_col row;
     previous_game_datetime := Some (game_datetime_col prev_row);
     opponent := if negb is_home then Home_Neutral (season row)
                 else Visitor_Neutral (season row);
     location := if is_home then "home" else "away";
     where_played := Home_Neutral (season row);
     previous_where_played := Some (Home_Neutral (season prev_row));
     travel_distance := Some dist;
     travel_hours := Some (hours_between prev_row row);
     game_mile_hours_burden :=
       if Qpositive (hours_between prev_row row)
       then Some (dist / hours_between prev_row row)%Q else None |}.

Definition ascending (key : team_game -> Z) (a b : team_game) : Prop :=
  key a <= key b.

Definition by_game_datetime (g : team_game) : Z := timestamp (game_datetime_col g).

(** The flag of a row is the one line 73 computes from its arena. *)
Definition flagged (g : team_game) : Prop :=
  is_international g = flag_international (season g).

(** The game is at an international venue, or its home team has a row in the
    stadium table (under the spelling the table uses). *)
Definition located (nba_stadiums : list stadium_row) (g : team_game) : bool :=
  is_international g
  || bool_decide (is_Some (team_coords nba_stadiums
                             !! normalize_team_name_for_coords (Home_Neutral (season g)))).

Definition leg_resolves (nba_stadiums : list stadium_row) (prev_row row : team_game)
  : bool :=
  if is_international prev_row || is_international row
  then located nba_stadiums prev_row && located nba_stadiums row
  else true.

Fixpoint international_legs_resolve (nba_stadiums : list stadium_row)
         (team_games : list team_game) : bool :=
  match team_games with
  | prev_row :: ((row :: _) as rest) =>
      leg_resolves nba_stadiums prev_row row
      && international_legs_resolve nba_stadiums rest
  | _ => true
  end.



(** The fixed coordinates of the place of a game: those of its venue when
    the venue is international, else those of the home team's stadium. *)
Definition site_coordinates (nba_stadiums : list stadium_row) (r : season_row)
  : option coords :=
  match INTERNATIONAL_ARENAS !! Arena r with
  | Some c => Some c
  | None => team_coords nba_stadiums !! normalize_team_name_for_coords (Home_Neutral r)
  end.

(** What the batch stores for a team: its chain, or the marker [None]. *)
Definition outcome `{SortValues} (geodesic : coords -> coords -> Q)
           (nba_stadiums : list stadium_row) (regular_season_data : list season_row)
           (stadium_distance_data : distance_frame) (team_name : string)
  : option (list game_dict) :=
  match schedulizer geodesic nba_stadiums regular_season_data stadium_distance_data
                    team_name with
  | Ok schedule => Some schedule
  | Raise _ => None
  end.

(** ** An implementation of the sorting contract

    Sorting by insertion: [insert_before] puts a row in front of the rows
    with the same key. *)

Fixpoint insert_before (key : team_game -> Z) (x : team_game) (l : list team_game)
  : list team_game :=
  match l with
  | [] => [x]
  | y :: l' => if key x <=? key y then x :: l else y :: insert_before key x l'
  end.

(** Rows are inserted from the last to the first, so that equal keys keep
    the order of the input. *)
Definition stable_sort (key : team_game -> Z) (l : list team_game) : list team_game :=
  foldr (insert_before key) [] l.

(** It obeys the contract. *)

Lemma insert_before_perm key x l : Permutation (insert_before key x l) (x :: l).
Proof.
  induction l as [|y l IH]; simpl; [reflexivity|].
  destruct (key x <=? key y); [reflexivity|].
  rewrite IH. apply perm_swap.
Qed.

Lemma insert_before_hd key x y l :
  key y <= key x -> HdRel (ascending key) y l ->
  HdRel (ascending key) y (insert_before key x l).
Proof.
  intros Hyx Hhd. destruct l as [|z l]; simpl.
  - constructor. exact Hyx.
  - destruct (key x <=? key z); constructor;
      [exact Hyx | inversion Hhd; assumption].
Qed.

Lemma insert_before_sorted key x l :
  Sorted (ascending key) l -> Sorted (ascending key) (insert_before key x l).
Proof.
  induction l as [|y l IH]; intros Hs; simpl.
  - repeat constructor.
  - destruct (Z.leb_spec (key x) (key y)) as [Hle|Hgt].
    + constructor; [exact Hs|]. constructor. exact Hle.
    + inversion Hs as [|? ? Hs' Hhd]; subst.
      constructor; [apply IH; exact Hs'|].
      apply insert_before_hd; [lia | exact Hhd].
Qed.

Lemma stable_sort_perm key l : Permutation (stable_sort key l) l.
Proof.
  induction l as [|x l IH]; simpl; [reflexivity|].
  rewrite insert_before_perm. constructor. exact IH.
Qed.

Lemma stable_sort_sorted key l : Sorted (ascending key) (stable_sort key l).
Proof.
  induction l as [|x l IH]; simpl; [constructor|].
  apply insert_before_sorted, IH.
Qed.

Definition stable_sort_values : SortValues :=
  {| sort_values := stable_sort;
     sort_values_perm := stable_sort_perm;
     sort_values_sorted := stable_sort_sorted |}.



(** ** Sample data *)

(** A computable stand-in for [geodesic(a, b).miles], used to run the model
    on sample data: zero between equal points, positive otherwise. *)
Definition planar_miles (a b : coords) : Q :=
  (69 * (Qabs (fst a - fst b) + Qabs (snd a - snd b)))%Q.

Definition stadiums_sample : list stadium_row :=
  [ mk_stadium_row "Washington Wizards" 38.8981 (-77.0209);
    mk_stadium_row "Miami Heat" 25.7814 (-80.1870);
    mk_stadium_row "Sacremento Kings" 38.5802 (-121.4997);
    mk_stadium_row "Boston Celtics" 42.3662 (-71.0621) ].

Definition matrix_sample : distance_frame :=
  list_to_map
    [ ("Washington Wizards",
       list_to_map [("Washington Wizards", Num 0); ("Miami Heat", Num 923.5);
                    ("Sacremento Kings", Num 2372.1)]);
      ("Miami Heat",
       list_to_map [("Washington Wizards", Num 923.5); ("Miami Heat", Num 0);
                    ("Sacremento Kings", Num 2547.8)]);
      ("Sacremento Kings",
       list_to_map [("Washington Wizards", Num 2372.1); ("Miami Heat", Num 2547.8);
                    ("Sacremento Kings", Num 0)]) ].

(** Seven games of Washington, listed out of order, and one game of two
    other teams.  By date, Washington's second game is the Mexico City game,
    its fifth and sixth start at the same instant, and its seventh is in
    Boston, which [matrix_sample] does not list. *)
Definition season_sample : list season_row :=
  [ mk_season_row "Sat, Nov 2, 2024" "9:30p" "Miami Heat" "Washington Wizards"
                  "Mexico City Arena";
    mk_season_row "Mon, Nov 4, 2024" "7:00p" "Golden State Warriors" "Washington Wizards"
                  "Capital One Arena";
    mk_season_row "Wed, Oct 30, 2024" "7:00p" "Atlanta Hawks" "Washington Wizards"
                  "Capital One Arena";
    mk_season_row "Wed, Nov 6, 2024" "7:00p" "Washington Wizards" "Miami Heat"
                  "Kaseya Center";
    mk_season_row "Fri, Nov 8, 2024" "10:00p" "Washington Wizards" "Sacramento Kings"
                  "Golden 1 Center";
    mk_season_row "Fri, Nov 8, 2024" "10:00p" "Washington Wizards" "Sacramento Kings"
                  "Golden 1 Center";
    mk_season_row "Tue, Oct 22, 2024" "7:30p" "New York Knicks" "Boston Celtics"
                  "TD Garden";
    mk_season_row "Mon, Nov 11, 2024" "7:30p" "Washington Wizards" "Boston Celtics"
                  "TD Garden" ].

(** A stadium table without a row for Washington. *)
Definition stadiums_without_washington : list stadium_row :=
  [ mk_stadium_row "Miami Heat" 25.7814 (-80.1870);
    mk_stadium_row "Sacremento Kings" 38.5802 (-121.4997) ].



(** Washington's schedule and chain in the sample season, with the stable
    sort. *)
Definition wizards_schedule : list team_game :=
  Eval vm_compute in
    match @team_schedule stable_sort_values season_sample "Washington Wizards" with
    | Ok team_games => team_games
    | Raise _ => []
    end.

Definition wizards_chain : list game_dict :=
  Eval vm_compute in
    match @schedulizer stable_sort_values planar_miles stadiums_sample season_sample
                       matrix_sample "Washington Wizards" with
    | Ok chain => chain
    | Raise _ => []
    end.

(** ** Vocabulary of the further properties *)

(** The distance matrix without the row and the column of a label. *)
Definition drop_label (label : string) (df : distance_frame) : distance_frame :=
  delete label <$> delete label df.

(** The stadium table without the rows of a team. *)
Definition drop_team (name : string) (nba_stadiums : list stadium_row)
  : list stadium_row :=
  filter (fun r => Team r <> name) nba_stadiums.

(** The coordinates of the home team of a game are on file, or the game is
    at an international venue. *)
Definition located_row (nba_stadiums : list stadium_row) (r : season_row) : bool :=
  flag_international r
  || bool_decide (is_Some (team_coords nba_stadiums
                             !! normalize_team_name_for_coords (Home_Neutral r))).

(** The hour of the day for an hour of the 12-hour clock. *)
Definition hour_of_day (h : Z) (am_pm : ascii) : Z :=
  h mod 12 + (if Ascii.eqb am_pm "p" then 12 else 0).

(** Every numeric cell of the distance matrix is at least zero. *)
Definition nonnegative_matrix (df : distance_frame) : bool :=
  forallb (fun '(_, cells) =>
             forallb (fun '(_, c) => match c with
                                     | Num x => Qle_bool 0 x
                                     | Text _ => true
                                     end)
                     (map_to_list cells))
          (map_to_list df).

(** ** The rest of metrics.py *)

(** Python's [sum] on a list of floats. *)
Definition py_sum (l : list Q) : Q := fold_left Qplus l 0%Q.

(** [len(l)] as a float divisor. *)
Definition py_len {A} (l : list A) : Q := inject_Z (Z.of_nat (length l)).

(** [for key, value in d.items(): out[key] = body(value)], with [out] empty
    before the loop. *)
Definition for_items {V W} (body : V -> result W) (d : gmap string V)
  : result (gmap string W) :=
  map_fold (fun key value acc =>
              let* out := acc in
              let* w := body value in
              Ok (<[key := w]> out))
           (Ok ∅) d.

(** [schedule_mapping.get(team_name)]: [None] for a team that is not a key
    and for a team whose value is [None]. *)
Definition get_team_schedule (schedule_mapping : gmap string (option (list game_dict)))
           (team_name : string) : option (list game_dict) :=
  match schedule_mapping !! team_name with
  | Some schedule => schedule
  | None => None
  end.

(** The body of the loop of [calculate_average_burden]. *)
Definition average_burden_of (schedule : option (list game_dict)) : result (option Q) :=
  match schedule with
  | None => Ok None
  | Some schedule =>
      let burdens := omap game_mile_hours_burden schedule in
      if (0 <? length burdens)%nat then
        let* average_burden := truediv (py_sum burdens) (py_len burdens) in
        Ok (Some average_burden)
      else Ok None
  end.

(** The body of the loop of [calculate_total_burden]. *)
Definition total_burden_of (schedule : option (list game_dict)) : result (option Q) :=
  match schedule with
  | None => Ok None
  | Some schedule =>
      let burdens := omap game_mile_hours_burden schedule in
      if (0 <? length burdens)%nat then Ok (Some (py_sum burdens))
      else Ok None
  end.

Section MetricsAggregates.

Context `{SortValues}.
Variable geodesic : coords -> coords -> Q.
Variable nba_stadiums : list stadium_row.
Variable regular_season_data : list season_row.
Variable stadium_distance_data : distance_frame.

(** [if schedule_mapping is None: schedule_mapping = create_schedule_mapping(...)] *)
Definition mapping_or_new (schedule_mapping : option (gmap string (option (list game_dict))))
  : gmap string (option (list game_dict)) :=
  match schedule_mapping with
  | Some m => m
  | None => create_schedule_mapping geodesic nba_stadiums regular_season_data
                                    stadium_distance_data
  end.

Definition calculate_average_burden
           (schedule_mapping : option (gmap string (option (list game_dict))))
  : result (gmap string (option Q)) :=
  for_items average_burden_of (mapping_or_new schedule_mapping).

Definition calculate_total_burden
           (schedule_mapping : option (gmap string (option (list game_dict))))
  : result (gmap string (option Q)) :=
  for_items total_burden_of (mapping_or_new schedule_mapping).

End MetricsAggregates.

(** ** visualize_burden.py *)

Module visualize_burden.

(** The state of the loop: the two lists and the running total. *)
Definition cumulative_step (state : list nat * list Q * Q) (game : game_dict)
  : list nat * list Q * Q :=
  let '(game_numbers, cumulative_burdens, running_total) := state in
  let game_index := gameindex game in
  let running_total :=
    match game_mile_hours_burden game with
    | Some burden => (running_total + burden)%Q
    | None => running_total
    end in
  (game_numbers ++ [game_index], cumulative_burdens ++ [running_total],
   running_total)%list.

(** The values the loop appends to [cumulative_burdens], from a running
    total. *)
Fixpoint running_totals (running_total : Q) (schedule : list game_dict) : list Q :=
  match schedule with
  | [] => []
  | game :: schedule' =>
      let running_total :=
        match game_mile_hours_burden game with
        | Some burden => (running_total + burden)%Q
        | None => running_total
        end in
      running_total :: running_totals running_total schedule'
  end.

(** The pair [(None, None)] is [None]; the numpy arrays are lists. *)
Definition calculate_cumulative_burden (schedule : option (list game_dict))
  : option (list nat * list Q) :=
  match schedule with
  | None => None
  | Some schedule =>
      let '(game_numbers, cumulative_burdens, _) :=
        fold_left cumulative_step schedule ([], [], 0%Q) in
      Some (game_numbers, cumulative_burdens)
  end.

End visualize_burden.

(** ** analysis.py *)

Module analysis.

(** The exceptions of this file: the builtin ones of [exn], and the
    [StopIteration] of [next] on an exhausted reader. *)
Inductive py_exn : Type :=
| StopIteration
| Builtin (e : exn).

Inductive outcome (A : Type) : Type :=
| Returns (a : A)
| Raises (e : py_exn).
Arguments Returns {A} a.
Arguments Raises {A} e.

(** A row of the frame [BTY_data]. *)
Record bty_row : Type := mk_bty_row {
  bty_team : string;                 (* 'team' *)
  average_distance : Q;
  average_yearly_road_trip : Q
}.

(** [d[key] = value] on a dictionary that keeps the order of its keys. *)
Fixpoint dict_set (d : list (string * Q)) (key : string) (value : Q)
  : list (string * Q) :=
  match d with
  | [] => [(key, value)]
  | (k, v) :: d' =>
      if String.eqb k key then (k, value) :: d' else (k, v) :: dict_set d' key value
  end.

Section Analysis.

(** Python's [float] on a text field of the file. *)
Variable float : string -> result Q.

(** The body of the loop over the rows: the entry the row adds, if any. *)
Definition row_average (row : list string) : result (option (string * Q)) :=
  match row with
  | [] => Ok None
  | team_name :: fields =>
      if String.eqb team_name "" then Ok None
      else
        let* distances := for_each float (filter (fun dist => dist <> "") fields) in
        let other_distances := List.filter (fun d => negb (Qeq_bool d 0)) distances in
        if (0 <? length other_distances)%nat then
          let* average_distance :=
            truediv (py_sum other_distances) (py_len other_distances) in
          Ok (Some (team_name, average_distance))
        else Ok None
  end.

Fixpoint average_rows (rows : list (list string)) (average_distances : list (string * Q))
  : result (list (string * Q)) :=
  match rows with
  | [] => Ok average_distances
  | row :: rows' =>
      let* entry := row_average row in
      average_rows rows'
        (match entry with
         | Some (team_name, average_distance) =>
             dict_set average_distances team_name average_distance
         | None => average_distances
         end)
  end.

(** The file is the list of its rows, each the list of its fields; the
    first row is the header, which [next(reader)] takes. *)
Definition calculate_average_distances (csv_file : list (list string))
  : outcome (list (string * Q)) :=
  match csv_file with
  | [] => Raises StopIteration
  | header :: rows =>
      match average_rows rows [] with
      | Ok average_distances => Returns average_distances
      | Raise e => Raises (Builtin e)
      end
  end.

Definition create_BTY_dataframe (csv_file : list (list string))
  : outcome (list bty_row) :=
  match calculate_average_distances csv_file with
  | Returns average_distances =>
      Returns (map (fun '(team_name, dist) =>
                      {| bty_team := team_name;
                         average_distance := dist;
                         average_yearly_road_trip := (dist * 41)%Q |})
                   average_distances)
  | Raises e => Raises e
  end.

End Analysis.

(** Every field of the file that [float] accepts is at least zero. *)
Definition nonnegative_csv (float : string -> result Q) (csv_file : list (list string))
  : bool :=
  forallb (forallb (fun field => match float field with
                                 | Ok x => Qle_bool 0 x
                                 | Raise _ => true
                                 end))
          csv_file.

End analysis.

(** ** metrics_normalized.py *)

Module metrics_normalized.

(** The body of the loop of [calculate_total_distance]. *)
Definition total_distance_of (schedule : option (list game_dict)) : result (option Q) :=
  match schedule with
  | None => Ok None
  | Some schedule =>
      let distances := omap travel_distance schedule in
      if (0 <? length distances)%nat then Ok (Some (py_sum distances))
      else Ok None
  end.

Definition normalize_team_name (name : string) : string :=
  if String.eqb name "Sacramento Kings" then "Sacremento Kings" else name.

(** The loop over [bty_dataframe.iterrows()]: each row is stored under its
    name and under its normalised name. *)
Definition avg_road_trip_map (bty_dataframe : list analysis.bty_row) : gmap string Q :=
  foldl (fun m row =>
           let team_name := analysis.bty_team row in
           let avg_road_trip := analysis.average_yearly_road_trip row in
           let normalized_name := normalize_team_name team_name in
           <[normalized_name := avg_road_trip]> (<[team_name := avg_road_trip]> m))
        ∅ bty_dataframe.

(** The body of the loop over [total_distances.items()] (and over
    [total_burdens.items()], which has the same body). *)
Definition normalized_of (road_trips : gmap string Q) (team : string)
           (total : option Q) : result (option Q) :=
  match total with
  | None => Ok None
  | Some total =>
      let avg_road_trip :=
        match road_trips !! team with
        | Some a => Some a
        | None => road_trips !! normalize_team_name team
        end in
      match avg_road_trip with
      | Some a =>
          if Qpositive a then
            let* normalized := truediv total a in Ok (Some normalized)
          else Ok None
      | None => Ok None
      end
  end.

(** [for key, value in d.items(): out[key] = body(key, value)] *)
Definition for_items_with_key {V W} (body : string -> V -> result W)
           (d : gmap string V) : result (gmap string W) :=
  map_fold (fun key value acc =>
              let* out := acc in
              let* w := body key value in
              Ok (<[key := w]> out))
           (Ok ∅) d.

Definition lift {A} (c : result A) : analysis.outcome A :=
  match c with
  | Ok a => analysis.Returns a
  | Raise e => analysis.Raises (analysis.Builtin e)
  end.

Section Normalized.

Context `{SortValues}.
Variable geodesic : coords -> coords -> Q.
Variable nba_stadiums : list stadium_row.
Variable regular_season_data : list season_row.
Variable stadium_distance_data : distance_frame.
(** The distance matrix file as [csv.reader] reads it, and [float] on its
    fields. *)
Variable stadium_distance_csv : list (list string).
Variable float : string -> result Q.

Definition calculate_total_distance
           (schedule_mapping : option (gmap string (option (list game_dict))))
  : result (gmap string (option Q)) :=
  for_items total_distance_of
            (mapping_or_new geodesic nba_stadiums regular_season_data
                            stadium_distance_data schedule_mapping).

(** What follows the totals in both normalised functions. *)
Definition normalize_totals (totals : result (gmap string (option Q)))
           (bty_dataframe : option (list analysis.bty_row))
  : analysis.outcome (gmap string (option Q)) :=
  match totals with
  | Raise e => analysis.Raises (analysis.Builtin e)
  | Ok totals =>
      match (match bty_dataframe with
             | Some bty => analysis.Returns bty
             | None => analysis.create_BTY_dataframe float stadium_distance_csv
             end) with
      | analysis.Raises e => analysis.Raises e
      | analysis.Returns bty =>
          lift (for_items_with_key (normalized_of (avg_road_trip_map bty)) totals)
      end
  end.

Definition calculate_normalized_total_distance
           (schedule_mapping : option (gmap string (option (list game_dict))))
           (bty_dataframe : option (list analysis.bty_row))
  : analysis.outcome (gmap string (option Q)) :=
  normalize_totals (calculate_total_distance schedule_mapping) bty_dataframe.

Definition calculate_normalized_total_burden
           (schedule_mapping : option (gmap string (option (list game_dict))))
           (bty_dataframe : option (list analysis.bty_row))
  : analysis.outcome (gmap string (option Q)) :=
  normalize_totals
    (calculate_total_burden geodesic nba_stadiums regular_season_data
                            stadium_distance_data schedule_mapping)
    bty_dataframe.

End Normalized.

End metrics_normalized.

(** The loop over the rows of [bty_dataframe] stores the row under the key. *)
Definition writes (row : analysis.bty_row) (key : string) : Prop :=
  analysis.bty_team row = key
  \/ metrics_normalized.normalize_team_name (analysis.bty_team row) = key.

(** What the normalised functions store for a team, given the totals: the
    total divided by the yearly road trip of the row of the team in
    [bty_dataframe] (a row of the same name up to the spelling of
    Sacramento), [None] without a total, without such a row, or when the road
    trip of the row is not positive. *)
Definition normalized_entry (bty_dataframe : list analysis.bty_row)
           (totals normalized : gmap string (option Q)) (team : string) : Prop :=
  match totals !! team with
  | None => normalized !! team = None
  | Some None => normalized !! team = Some None
  | Some (Some total) =>
      (forall row,
          row ∈ bty_dataframe ->
          metrics_normalized.normalize_team_name (analysis.bty_team row)
          = metrics_normalized.normalize_team_name team ->
          normalized !! team
          = Some (if Qpositive (analysis.average_yearly_road_trip row)
                  then Some (total / analysis.average_yearly_road_trip row)%Q
                  else None))
      /\ ((forall row,
              row ∈ bty_dataframe ->
              metrics_normalized.normalize_team_name (analysis.bty_team row)
              <> metrics_normalized.normalize_team_name team) ->
          normalized !! team = Some None)
  end.

(** ** html_reader.py *)

Module html_reader.

(** *** Python text methods, on ASCII text *)

Fixpoint all_chars (p : ascii -> bool) (s : string) : bool :=
  match s with
  | EmptyString => true
  | String c s' => p c && all_chars p s'
  end.

(** Where a run of characters of class [p] ends: at the end of the text or
    before a character outside the class. *)
Definition stops (p : ascii -> bool) (s : string) : Prop :=
  match s with
  | EmptyString => True
  | String c _ => p c = false
  end.

Definition lstrip (s : string) : string := snd (span is_space s).

Fixpoint rstrip (s : string) : string :=
  match s with
  | EmptyString => EmptyString
  | String c s' =>
      match rstrip s' with
      | EmptyString => if is_space c then EmptyString else String c EmptyString
      | t => String c t
      end
  end.

(** [s.strip()] *)
Definition strip (s : string) : string := rstrip (lstrip s).

Definition upper_char (c : ascii) : ascii :=
  let n := nat_of_ascii c in
  if (97 <=? n)%nat && (n <=? 122)%nat then ascii_of_nat (n - 32) else c.

Definition lower_char (c : ascii) : ascii :=
  let n := nat_of_ascii c in
  if (65 <=? n)%nat && (n <=? 90)%nat then ascii_of_nat (n + 32) else c.

Fixpoint map_chars (f : ascii -> ascii) (s : string) : string :=
  match s with
  | EmptyString => EmptyString
  | String c s' => String (f c) (map_chars f s')
  end.

(** [s.upper()] and [s.lower()] *)
Definition upper (s : string) : string := map_chars upper_char s.
Definition lower (s : string) : string := map_chars lower_char s.

(** [s.startswith(sep)], with what follows the prefix. *)
Fixpoint strip_prefix (sep s : string) : option string :=
  match sep, s with
  | EmptyString, _ => Some s
  | String a sep', String b s' => if Ascii.eqb a b then strip_prefix sep' s' else None
  | String _ _, EmptyString => None
  end.

(** The text before and after the first occurrence of [sep]. *)
Fixpoint partition (sep s : string) : option (string * string) :=
  match strip_prefix sep s with
  | Some rest => Some (EmptyString, rest)
  | None =>
      match s with
      | EmptyString => None
      | String c s' =>
          match partition sep s' with
          | Some (a, b) => Some (String c a, b)
          | None => None
          end
      end
  end.

(** [sub in s] *)
Definition contains (sub s : string) : bool :=
  match partition sub s with
  | Some _ => true
  | None => false
  end.

(** [s.split(sep)] for a separator that is not empty; the text is cut at most
    [fuel] times, and cannot be cut more often than it has characters. *)
Fixpoint split_at (fuel : nat) (sep s : string) : list string :=
  match fuel with
  | O => [s]
  | S fuel' =>
      match partition sep s with
      | Some (a, rest) => a :: split_at fuel' sep rest
      | None => [s]
      end
  end.

Definition split (sep s : string) : list string := split_at (String.length s) sep s.

(** [parts[i]] *)
Definition item (parts : list string) (i : nat) : result string :=
  match parts !! i with
  | Some part => Ok part
  | None => Raise IndexError
  end.

(** [str(n)] on an [int] *)
Definition str (n : Z) : string := NilZero.string_of_int (Z.to_int n).

(** *** The team names of the scraped page *)

(** [team_map], a dictionary literal without a repeated key, in the order it
    is written (the order in which [team_map.items()] is traversed). *)
Definition team_map : list (string * string) :=
  [
    ("Oklahoma City Thunder", "Oklahoma City Thunder");
    ("Okla City", "Oklahoma City Thunder");
    ("Oklahoma City", "Oklahoma City Thunder");
    ("OKC", "Oklahoma City Thunder");
    ("Los Angeles Lakers", "Los Angeles Lakers");
    ("LA Lakers", "Los Angeles Lakers");
    ("Lakers", "Los Angeles Lakers");
    ("L.A. Lakers", "Los Angeles Lakers");
    ("Los Angeles Clippers", "Los Angeles Clippers");
    ("LA Clippers", "Los Angeles Clippers");
    ("Clippers", "Los Angeles Clippers");
    ("L.A. Clippers", "Los Angeles Clippers");
    ("Golden State Warriors", "Golden State Warriors");
    ("Golden State", "Golden State Warriors");
    ("Warriors", "Golden State Warriors");
    ("GSW", "Golden State Warriors");
    ("New York Knicks", "New York Knicks");
    ("New York", "New York Knicks");
    ("Knicks", "New York Knicks");
    ("NY Knicks", "New York Knicks");
    ("Brooklyn Nets", "Brooklyn Nets");
    ("Brooklyn", "Brooklyn Nets");
    ("Nets", "Brooklyn Nets");
    ("Houston Rockets", "Houston Rockets");
    ("Houston", "Houston Rockets");
    ("Rockets", "Houston Rockets");
    ("Cleveland Cavaliers", "Cleveland Cavaliers");
    ("Cleveland", "Cleveland Cavaliers");
    ("Cavaliers", "Cleveland Cavaliers");
    ("Cavs", "Cleveland Cavaliers");
    ("Charlotte Hornets", "Charlotte Hornets");
    ("Charlotte", "Charlotte Hornets");
    ("Hornets", "Charlotte Hornets");
    ("Miami Heat", "Miami Heat");
    ("Miami", "Miami Heat");
    ("Heat", "Miami Heat");
    ("Orlando Magic", "Orlando Magic");
    ("Orlando", "Orlando Magic");
    ("Magic", "Orlando Magic");
    ("Toronto Raptors", "Toronto Raptors");
    ("Toronto", "Toronto Raptors");
    ("Raptors", "Toronto Raptors");
    ("Atlanta Hawks", "Atlanta Hawks");
    ("Atlanta", "Atlanta Hawks");
    ("Hawks", "Atlanta Hawks");
    ("Philadelphia 76ers", "Philadelphia 76ers");
    ("Philadelphia", "Philadelphia 76ers");
    ("76ers", "Philadelphia 76ers");
    ("Philly", "Philadelphia 76ers");
    ("Boston Celtics", "Boston Celtics");
    ("Boston", "Boston Celtics");
    ("Celtics", "Boston Celtics");
    ("Detroit Pistons", "Detroit Pistons");
    ("Detroit", "Detroit Pistons");
    ("Pistons", "Detroit Pistons");
    ("Chicago Bulls", "Chicago Bulls");
    ("Chicago", "Chicago Bulls");
    ("Bulls", "Chicago Bulls");
    ("New Orleans Pelicans", "New Orleans Pelicans");
    ("New Orleans", "New Orleans Pelicans");
    ("Pelicans", "New Orleans Pelicans");
    ("NOLA", "New Orleans Pelicans");
    ("Memphis Grizzlies", "Memphis Grizzlies");
    ("Memphis", "Memphis Grizzlies");
    ("Grizzlies", "Memphis Grizzlies");
    ("Washington Wizards", "Washington Wizards");
    ("Washington", "Washington Wizards");
    ("Wizards", "Washington Wizards");
    ("Wiz", "Washington Wizards");
    ("Milwaukee Bucks", "Milwaukee Bucks");
    ("Milwaukee", "Milwaukee Bucks");
    ("Bucks", "Milwaukee Bucks");
    ("Dallas Mavericks", "Dallas Mavericks");
    ("Dallas", "Dallas Mavericks");
    ("Mavericks", "Dallas Mavericks");
    ("Mavs", "Dallas Mavericks");
    ("Denver Nuggets", "Denver Nuggets");
    ("Denver", "Denver Nuggets");
    ("Nuggets", "Denver Nuggets");
    ("Phoenix Suns", "Phoenix Suns");
    ("Phoenix", "Phoenix Suns");
    ("Suns", "Phoenix Suns");
    ("Portland Trail Blazers", "Portland Trail Blazers");
    ("Portland", "Portland Trail Blazers");
    ("Trail Blazers", "Portland Trail Blazers");
    ("Blazers", "Portland Trail Blazers");
    ("Sacramento Kings", "Sacramento Kings");
    ("Sacramento", "Sacramento Kings");
    ("Kings", "Sacramento Kings");
    ("San Antonio Spurs", "San Antonio Spurs");
    ("San Antonio", "San Antonio Spurs");
    ("Spurs", "San Antonio Spurs");
    ("Utah Jazz", "Utah Jazz");
    ("Utah", "Utah Jazz");
    ("Jazz", "Utah Jazz");
    ("Minnesota Timberwolves", "Minnesota Timberwolves");
    ("Minnesota", "Minnesota Timberwolves");
    ("Timberwolves", "Minnesota Timberwolves");
    ("Wolves", "Minnesota Timberwolves");
    ("Indiana Pacers", "Indiana Pacers");
    ("Indiana", "Indiana Pacers");
    ("Pacers", "Indiana Pacers")
  ].

Definition match_team_abbreviation (abbrev : string) : string :=
  match find (fun kv => String.eqb kv.1 abbrev) team_map with
  | Some (_, value) => value
  | None =>
      match find (fun kv => String.eqb (lower kv.1) (lower abbrev)) team_map with
      | Some (_, value) => value
      | None =>
          let abbrev_lower := lower abbrev in
          match find (fun kv => contains abbrev_lower (lower kv.1)
                                || contains (lower kv.1) abbrev_lower) team_map with
          | Some (_, value) => value
          | None => abbrev
          end
      end
  end.

Definition parse_matchup (matchup_str : string) : result (string * string) :=
  if negb (contains " @ " matchup_str)
  then Raise (ValueError ("Invalid matchup format: " ++ matchup_str))
  else
    let parts := split " @ " matchup_str in
    let* part0 := item parts 0 in
    let visitor_short := strip part0 in
    let* part1 := item parts 1 in
    let home_short := strip part1 in
    let visitor := match_team_abbreviation visitor_short in
    let home := match_team_abbreviation home_short in
    Ok (visitor, home).

(** *** Dates and times of the scraped page *)

(** [re.match(r'(\w+)\s+(\w+)\s+(\d+)', text)] *)
Definition match_date_header (s : string) : option (string * string * string) :=
  '(day_name, s) ← plus is_word s;
  '(_, s) ← plus is_space s;
  '(month_name, s) ← plus is_word s;
  '(_, s) ← plus is_space s;
  '(day, _) ← plus is_digit s;
  Some (day_name, month_name, day).

Definition month_num : gmap string Z :=
  list_to_map
    [("Jan", 1); ("Feb", 2); ("Mar", 3); ("Apr", 4); ("May", 5); ("Jun", 6);
     ("Jul", 7); ("Aug", 8); ("Sep", 9); ("Oct", 10); ("Nov", 11); ("Dec", 12)].

Definition parse_date_header (date_text : string) : option string :=
  match match_date_header (strip date_text) with
  | Some (day_name, month_name, day) =>
      let month_num := default 1 (month_num !! month_name) in
      let year := if 10 <=? month_num then 2024 else 2025 in
      Some (day_name ++ ", " ++ month_name ++ " " ++ day ++ ", " ++ str year)
  | None => None
  end.

(** [re.match(r'(\d+):(\d+)\s*(AM|PM)', text)] *)
Definition match_clock (s : string) : option (string * string * string) :=
  '(h, s) ← plus is_digit s;
  s ← lit ":" s;
  '(mi, s) ← plus is_digit s;
  let s := snd (span is_space s) in
  if String.prefix "AM" s then Some (h, mi, "AM")
  else if String.prefix "PM" s then Some (h, mi, "PM")
  else None.

(** [am_pm.lower()[0]]; the group [am_pm] is never empty. *)
Definition first_lower (am_pm : string) : string :=
  match lower am_pm with
  | String c _ => String c EmptyString
  | EmptyString => EmptyString
  end.

Definition convert_time_format (time_str : string) : string :=
  let time_str := upper (strip time_str) in
  match match_clock time_str with
  | Some (h, minute, am_pm) =>
      let hour := int_of_digits h in
      str hour ++ ":" ++ minute ++ first_lower am_pm
  | None => time_str
  end.

End html_reader.

(** ** More sample data *)

(** Three games of Washington; the second has no start time yet. *)
Definition season_postponed : list season_row :=
  [ mk_season_row "Wed, Oct 30, 2024" "7:00p" "Atlanta Hawks" "Washington Wizards"
                  "Capital One Arena";
    mk_season_row "Sat, Nov 2, 2024" "TBD" "Miami Heat" "Washington Wizards"
                  "Capital One Arena";
    mk_season_row "Mon, Nov 4, 2024" "7:00p" "Washington Wizards" "Miami Heat"
                  "Kaseya Center" ].

(** A schedule mapping with Washington's chain alone. *)
Definition wizards_mapping : gmap string (option (list game_dict)) :=
  {[ "Washington Wizards" := Some wizards_chain ]}.

(** A computable stand-in for [float] on the fields of the matrix file:
    digits, or digits, a point and digits. *)
Definition decimal_float (s : string) : result Q :=
  match plus is_digit s with
  | Some (whole, EmptyString) => Ok (inject_Z (int_of_digits whole))
  | Some (whole, String "." fraction) =>
      match plus is_digit fraction with
      | Some (digits, EmptyString) =>
          Ok (inject_Z (int_of_digits whole)
              + inject_Z (int_of_digits digits)
                / inject_Z (10 ^ Z.of_nat (String.length digits)))%Q
      | _ => Raise (ValueError ("could not convert string to float: " ++ s))
      end
  | _ => Raise (ValueError ("could not convert string to float: " ++ s))
  end.

(** A matrix file of three teams, and one whose third row has a field that
    is no number. *)
Definition csv_sample : list (list string) :=
  [ [""; "Washington Wizards"; "Miami Heat"; "Sacremento Kings"];
    ["Washington Wizards"; "0.0"; "923.5"; "2372.1"];
    ["Miami Heat"; "923.5"; "0.0"; "2547.8"];
    ["Sacremento Kings"; "2372.1"; "2547.8"; "0.0"] ].

Definition csv_unreadable : list (list string) :=
  [ [""; "Washington Wizards"; "Miami Heat"; "Sacremento Kings"];
    ["Washington Wizards"; "0.0"; "923.5"; "2372.1"];
    ["Miami Heat"; "923.5"; ""; "n/a"; "2547.8"];
    ["Sacremento Kings"; "2372.1"; "2547.8"; "0.0"] ].

(** The frame of [csv_sample]. *)
Definition bty_sample : list analysis.bty_row :=
  Eval vm_compute in
    match analysis.create_BTY_dataframe decimal_float csv_sample with
    | analysis.Returns bty => bty
    | analysis.Raises _ => []
    end.

(** * Properties *)

(** ** The model on sample text *)

Example parse_mexico_city :
  parse_datetime "Sat, Nov 2, 2024" "9:30p" = Ok (mk_datetime 2024 11 2 21 30).
Proof. vm_compute. reflexivity. Qed.

Example parse_year_too_long :
  parse_datetime "Sat, Jan 25, 99999999999" "12:00p" = Raise OverflowError.
Proof. vm_compute. reflexivity. Qed.

Example parse_noon :
  parse_datetime "Sat, Jan 25, 2025" "12:00p" = Ok (mk_datetime 2025 1 25 12 0).
Proof. vm_compute. reflexivity. Qed.

Example parse_bad_date :
  parse_datetime "2024-11-02" "9:30p" = Raise (ValueError "Could not parse date: 2024-11-02").
Proof. vm_compute. reflexivity. Qed.

Example parse_midnight :
  parse_datetime "Wed, Jan 1, 2025" "12:05a" = Ok (mk_datetime 2025 1 1 0 5).
Proof. vm_compute. reflexivity. Qed.

Example parse_bad_hour :
  parse_datetime "Wed, Jan 1, 2025" "13:05p"
  = Raise (ValueError "hour must be in 0..23").
Proof. vm_compute. reflexivity. Qed.

Example ordinal_of_1970_01_01 : toordinal (mk_datetime 1970 1 1 0 0) = 719163.
Proof. vm_compute. reflexivity. Qed.

Example ordinal_of_2024_11_02 : toordinal (mk_datetime 2024 11 2 21 30) = 739192.
Proof. vm_compute. reflexivity. Qed.

Example ordinal_of_2025_01_25 : toordinal (mk_datetime 2025 1 25 12 0) = 739276.
Proof. vm_compute. reflexivity. Qed.

Example hours_mexico_city_to_washington :
  total_seconds_between (mk_datetime 2024 11 4 19 0) (mk_datetime 2024 11 2 21 30)
  = 163800.
Proof. vm_compute. reflexivity. Qed.

(** ** The result monad and the loop *)

Lemma for_each_Ok {A B} (body : A -> result B) xs ys :
  for_each body xs = Ok ys <-> Forall2 (fun x y => body x = Ok y) xs ys.
Proof.
  revert ys. induction xs as [|x xs IH]; intros ys; simpl.
  - split.
    + intros [= <-]. constructor.
    + intros Hall. inversion Hall. reflexivity.
  - split.
    + destruct (body x) as [y|e] eqn:Hx; simpl; [|discriminate].
      destruct (for_each body xs) as [ys'|e] eqn:Hxs; simpl; [|discriminate].
      intros [= <-]. constructor; [exact Hx | apply IH; reflexivity].
    + intros Hall. inversion Hall as [|? y ? ys' Hx Hxs]; subst.
      apply IH in Hxs. rewrite Hx, Hxs. reflexivity.
Qed.

Lemma for_each_total {A B} (body : A -> result B) xs :
  (forall x, x ∈ xs -> exists y, body x = Ok y) ->
  exists ys, for_each body xs = Ok ys.
Proof.
  induction xs as [|x xs IH]; intros Hbody; simpl.
  - eexists; reflexivity.
  - destruct (Hbody x) as [y Hy]; [left|].
    destruct IH as [ys Hys].
    { intros x' Hin. apply Hbody. right. exact Hin. }
    rewrite Hy, Hys. eexists; reflexivity.
Qed.

Lemma for_each_raises {A B} (body : A -> result B) xs x e :
  x ∈ xs -> body x = Raise e -> exists e', for_each body xs = Raise e'.
Proof.
  induction xs as [|x' xs IH]; intros Hin Hx.
  - inversion Hin.
  - simpl. destruct (body x') as [y|e0] eqn:Hx'; simpl; [|eexists; reflexivity].
    apply elem_of_cons in Hin as [->|Hin]; [congruence|].
    destruct (IH Hin Hx) as [e' ->]. eexists; reflexivity.
Qed.

Lemma for_each_Raise_inv {A B} (body : A -> result B) xs e :
  for_each body xs = Raise e -> exists x, x ∈ xs /\ body x = Raise e.
Proof.
  induction xs as [|x xs IH]; simpl; [discriminate|].
  destruct (body x) as [y|e0] eqn:Hx; simpl.
  - destruct (for_each body xs) as [ys|e1]; simpl; [discriminate|].
    intros [= ->]. destruct IH as (x' & Hin & Hx'); [reflexivity|].
    exists x'. split; [right; exact Hin | exact Hx'].
  - intros [= ->]. exists x. split; [left | exact Hx].
Qed.

Lemma iterrows_lookup team_games i it :
  iterrows team_games !! i = Some it <->
  exists row, it = (i, row) /\ team_games !! i = Some row.
Proof.
  unfold iterrows. rewrite lookup_zip_with_Some. split.
  - intros (j & row & -> & Hj & Hrow). apply lookup_seq in Hj as [-> _].
    exists row. split; [reflexivity | exact Hrow].
  - intros (row & -> & Hrow). exists i, row. repeat split; [|exact Hrow].
    apply lookup_seq. split; [reflexivity|]. eapply lookup_lt_Some, Hrow.
Qed.

Lemma iterrows_length team_games : length (iterrows team_games) = length team_games.
Proof.
  unfold iterrows. rewrite length_zip_with, length_seq. lia.
Qed.

(** Neighbours in a sorted list are in order. *)
Lemma Sorted_neighbours {A} (R : A -> A -> Prop) (l : list A) i a b :
  Sorted R l -> l !! i = Some a -> l !! S i = Some b -> R a b.
Proof.
  intros Hs. revert i. induction Hs as [|x l Hs IH Hhd]; intros i Ha Hb.
  - discriminate.
  - destruct i as [|i]; simpl in *.
    + injection Ha as ->. destruct l as [|y l]; [discriminate|].
      simpl in Hb. injection Hb as ->. inversion Hhd. assumption.
    + eapply IH; eassumption.
Qed.

(** ** Rational arithmetic of the burden *)

Lemma Qpositive_spec (a : Q) : Qpositive a = true <-> (0 < a)%Q.
Proof.
  unfold Qpositive. rewrite negb_true_iff. split.
  - intros Hle. apply Qnot_le_lt. intros Hle'.
    apply Qle_bool_iff in Hle'. congruence.
  - intros Hlt. destruct (Qle_bool a 0) eqn:Hle; [|reflexivity].
    apply Qle_bool_iff in Hle. exfalso. eapply Qlt_not_le; eassumption.
Qed.

Lemma Qpositive_false (a : Q) : Qpositive a = false <-> (a <= 0)%Q.
Proof.
  unfold Qpositive. rewrite negb_false_iff. apply Qle_bool_iff.
Qed.

Lemma truediv_positive (a b : Q) : (0 < b)%Q -> truediv a b = Ok (a / b)%Q.
Proof.
  intros Hb. unfold truediv. destruct (Qeq_bool b 0) eqn:Hz; [|reflexivity].
  apply Qeq_bool_iff in Hz. rewrite Hz in Hb. exfalso. revert Hb. apply Qlt_irrefl.
Qed.

Lemma hours_sign (secs : Z) :
  ((0 <= secs)%Z -> (0 <= inject_Z secs / 3600)%Q)
  /\ ((inject_Z secs / 3600 <= 0)%Q <-> (secs <= 0)%Z)
  /\ ((inject_Z secs / 3600 == 0)%Q <-> secs = 0%Z).
Proof.
  unfold Qdiv, Qmult, Qinv, Qle, Qeq, inject_Z; simpl. lia.
Qed.

(** ** The forward pass, record by record *)

(** The guard of lines 213-217 always returns: the division is reached only
    with a positive divisor. *)
Lemma burden_returns (d h : Q) :
  burden d h = Ok (if Qpositive h then Some (d / h)%Q else None).
Proof.
  unfold burden. destruct (Qpositive h) eqn:Hh; [|reflexivity].
  apply Qpositive_spec in Hh. rewrite (truediv_positive d h Hh). reflexivity.
Qed.

(** Read the fields of a record of the chain. *)
Ltac fields :=
  unfold first_record, later_record;
  cbn [team gameindex game_datetime previous_game_datetime opponent location
       where_played previous_where_played travel_distance travel_hours
       game_mile_hours_burden].

Section Chain.

Variable geodesic : coords -> coords -> Q.
Variable nba_stadiums : list stadium_row.
Variable stadium_distance_data : distance_frame.

Local Abbreviation leg := (leg_distance geodesic nba_stadiums stadium_distance_data).
Local Abbreviation body := (loop_body geodesic nba_stadiums stadium_distance_data).
Local Abbreviation chain_of := (game_list geodesic nba_stadiums stadium_distance_data).

Lemma loop_body_first team_games team_name row :
  body team_games team_name (0%nat, row) = Ok (first_record team_name row).
Proof. reflexivity. Qed.

Lemma loop_body_later team_games team_name i row :
  body team_games team_name (S i, row) =
  match team_games !! i with
  | None => Raise IndexError
  | Some prev_row =>
      match leg prev_row row with
      | Ok dist => Ok (later_record team_name (S i) prev_row row dist)
      | Raise e => Raise e
      end
  end.
Proof.
  unfold loop_body, iloc. cbn [Nat.eqb Nat.sub]. rewrite Nat.sub_0_r.
  destruct (team_games !! i) as [prev_row|]; cbn [rbind]; [|reflexivity].
  destruct (leg prev_row row) as [dist|e]; cbn [rbind]; [|reflexivity].
  fold (hours_between prev_row row). rewrite burden_returns. reflexivity.
Qed.

Lemma game_list_Forall2 team_games team_name chain :
  chain_of team_games team_name = Ok chain <->
  Forall2 (fun it d => body team_games team_name it = Ok d)
          (iterrows team_games) chain.
Proof. unfold game_list. apply for_each_Ok. Qed.

Lemma game_list_length team_games team_name chain :
  chain_of team_games team_name = Ok chain -> length chain = length team_games.
Proof.
  intros Hc. apply game_list_Forall2, Forall2_length in Hc.
  rewrite iterrows_length in Hc. symmetry. exact Hc.
Qed.

Lemma game_list_entry team_games team_name chain i row :
  chain_of team_games team_name = Ok chain ->
  team_games !! i = Some row ->
  exists d, chain !! i = Some d /\ body team_games team_name (i, row) = Ok d.
Proof.
  intros Hc Hrow. apply game_list_Forall2 in Hc.
  eapply Forall2_lookup_l in Hc as (d & Hd & Hbody);
    [|apply iterrows_lookup; exists row; split; [reflexivity | exact Hrow]].
  exists d. split; assumption.
Qed.

Lemma game_list_first team_games team_name chain d :
  chain_of team_games team_name = Ok chain ->
  chain !! 0%nat = Some d ->
  exists row, team_games !! 0%nat = Some row /\ d = first_record team_name row.
Proof.
  intros Hc Hd.
  assert (Hlen : length chain = length team_games)
    by (eapply game_list_length; exact Hc).
  destruct (lookup_lt_is_Some_2 team_games 0) as [row Hrow].
  { rewrite <- Hlen. eapply lookup_lt_Some, Hd. }
  destruct (game_list_entry _ _ _ _ _ Hc Hrow) as (d' & Hd' & Hbody).
  rewrite loop_body_first in Hbody. exists row. split; [exact Hrow|]. congruence.
Qed.

Lemma game_list_later team_games team_name chain i d :
  chain_of team_games team_name = Ok chain ->
  chain !! S i = Some d ->
  exists prev_row row dist,
    team_games !! i = Some prev_row /\ team_games !! S i = Some row
    /\ leg prev_row row = Ok dist
    /\ d = later_record team_name (S i) prev_row row dist.
Proof.
  intros Hc Hd.
  assert (Hlen : length chain = length team_games)
    by (eapply game_list_length; exact Hc).
  destruct (lookup_lt_is_Some_2 team_games (S i)) as [row Hrow].
  { rewrite <- Hlen. eapply lookup_lt_Some, Hd. }
  destruct (game_list_entry _ _ _ _ _ Hc Hrow) as (d' & Hd' & Hbody).
  rewrite loop_body_later in Hbody.
  destruct (team_games !! i) as [prev_row|] eqn:Hprev; [|discriminate].
  destruct (leg prev_row row) as [dist|e] eqn:Hleg; [|discriminate].
  exists prev_row, row, dist. repeat split; try assumption. congruence.
Qed.

End Chain.

(** ** When the coordinates of a leg can be found *)

Lemma international_legs_resolve_lookup nba_stadiums team_games i prev_row row :
  international_legs_resolve nba_stadiums team_games = true ->
  team_games !! i = Some prev_row -> team_games !! S i = Some row ->
  leg_resolves nba_stadiums prev_row row = true.
Proof.
  revert i. induction team_games as [|g l IH]; intros i Hall Hp Hr; [discriminate|].
  destruct l as [|g' l]; [discriminate|].
  simpl in Hall. apply andb_true_iff in Hall as [Hleg Hrest].
  destruct i as [|i].
  - simpl in Hp, Hr. congruence.
  - apply (IH i Hrest); assumption.
Qed.

Lemma flagged_arena g :
  flagged g -> is_international g = true ->
  exists c, INTERNATIONAL_ARENAS !! Arena (season g) = Some c.
Proof.
  unfold flagged, flag_international. intros -> Hin.
  apply bool_decide_eq_true in Hin. apply elem_of_dom in Hin. exact Hin.
Qed.

Section Legs.

Variable geodesic : coords -> coords -> Q.
Variable nba_stadiums : list stadium_row.
Variable stadium_distance_data : distance_frame.

Local Abbreviation leg := (leg_distance geodesic nba_stadiums stadium_distance_data).

(** A leg between two games in NBA arenas: the matrix cell, 0.0 for a game
    in the same place, and 0.0 when the lookup or the conversion fails. *)
Lemma leg_distance_matrix prev_row row :
  is_international prev_row = false -> is_international row = false ->
  leg prev_row row =
  Ok (match loc stadium_distance_data
                (normalize_team_name (Home_Neutral (season prev_row)))
                (normalize_team_name (Home_Neutral (season row))) with
      | Ok (Num x) =>
          if String.eqb (Home_Neutral (season prev_row)) (Home_Neutral (season row))
          then 0%Q else x
      | _ => 0%Q
      end).
Proof.
  intros Hp Hr. unfold leg_distance. rewrite Hp, Hr. simpl.
  unfold loc.
  destruct (stadium_distance_data !! _) as [cells|]; simpl; [|reflexivity].
  destruct (cells !! _) as [[x|s]|]; simpl; [|reflexivity..].
  destruct (String.eqb _ _); reflexivity.
Qed.

(** A leg with an international game: the geodesic between the two sites. *)
Lemma leg_distance_international prev_row row :
  is_international prev_row || is_international row = true ->
  leg prev_row row =
  let* prev_coords :=
    get_coordinates nba_stadiums (Home_Neutral (season prev_row))
                    (Arena (season prev_row)) (is_international prev_row) in
  let* curr_coords :=
    get_coordinates nba_stadiums (Home_Neutral (season row))
                    (Arena (season row)) (is_international row) in
  Ok (geodesic prev_coords curr_coords).
Proof. intros Hint. unfold leg_distance. rewrite Hint. reflexivity. Qed.

Lemma get_coordinates_located g :
  flagged g -> located nba_stadiums g = true ->
  exists c, get_coordinates nba_stadiums (Home_Neutral (season g))
                            (Arena (season g)) (is_international g) = Ok c.
Proof.
  intros Hflag Hloc. unfold get_coordinates, located in *.
  destruct (is_international g) eqn:Hint.
  - destruct (flagged_arena g Hflag Hint) as [c ->]. eexists; reflexivity.
  - simpl in Hloc. apply bool_decide_eq_true in Hloc as [c ->].
    eexists; reflexivity.
Qed.

Lemma leg_distance_total prev_row row :
  flagged prev_row -> flagged row ->
  leg_resolves nba_stadiums prev_row row = true ->
  exists dist, leg prev_row row = Ok dist.
Proof.
  intros Hfp Hfr Hres. unfold leg_resolves in Hres.
  destruct (is_international prev_row || is_international row) eqn:Hint.
  - apply andb_true_iff in Hres as [Hp Hr].
    rewrite (leg_distance_international _ _ Hint).
    destruct (get_coordinates_located _ Hfp Hp) as [pc ->].
    destruct (get_coordinates_located _ Hfr Hr) as [cc ->].
    eexists; reflexivity.
  - apply orb_false_iff in Hint as [Hp Hr].
    rewrite (leg_distance_matrix _ _ Hp Hr). eexists; reflexivity.
Qed.

(** The forward pass returns when every leg finds its coordinates. *)
Lemma game_list_total team_games team_name :
  Forall flagged team_games ->
  international_legs_resolve nba_stadiums team_games = true ->
  exists chain,
    game_list geodesic nba_stadiums stadium_distance_data team_games team_name
    = Ok chain.
Proof.
  intros Hflag Hres. unfold game_list. apply for_each_total.
  intros it Hin. apply list_elem_of_lookup in Hin as [i Hi].
  apply iterrows_lookup in Hi as (row & -> & Hrow).
  destruct i as [|i].
  - rewrite loop_body_first. eexists; reflexivity.
  - rewrite loop_body_later.
    destruct (lookup_lt_is_Some_2 team_games i) as [prev_row Hprev].
    { apply lookup_lt_Some in Hrow. lia. }
    rewrite Hprev.
    destruct (leg_distance_total prev_row row) as [dist ->].
    + eapply Forall_lookup_1; eassumption.
    + eapply Forall_lookup_1; eassumption.
    + eapply international_legs_resolve_lookup; eassumption.
    + eexists; reflexivity.
Qed.

End Legs.

(** ** The team's schedule *)

Lemma add_datetime_Ok r g :
  add_datetime r = Ok g ->
  season g = r /\ flagged g
  /\ parse_datetime (Game_Date r) (Start_ET r) = Ok (game_datetime_col g).
Proof.
  unfold add_datetime, flagged.
  destruct (parse_datetime _ _) as [dt|e]; simpl; [|discriminate].
  intros [= <-]. simpl. repeat split.
Qed.

Lemma add_datetime_seasons rows parsed :
  Forall2 (fun r g => add_datetime r = Ok g) rows parsed ->
  season <$> parsed = rows /\ Forall flagged parsed.
Proof.
  induction 1 as [|r g rows parsed Hg _ [IH1 IH2]]; [split; [reflexivity|constructor]|].
  apply add_datetime_Ok in Hg as (Hs & Hf & _).
  split; [rewrite fmap_cons, Hs, IH1; reflexivity | constructor; assumption].
Qed.

Section Schedule.

Context `{SortValues}.
Variable regular_season_data : list season_row.

Local Abbreviation schedule_of := (team_schedule regular_season_data).

Lemma team_schedule_Ok team_name team_games :
  schedule_of team_name = Ok team_games ->
  exists parsed,
    for_each add_datetime (filter_team regular_season_data team_name) = Ok parsed
    /\ team_games = sort_values by_game_datetime parsed
    /\ (0 < length team_games)%nat.
Proof.
  unfold team_schedule, apply_add_datetime. fold by_game_datetime.
  destruct (filter_team regular_season_data team_name) as [|r rows];
    [discriminate|].
  destruct (for_each add_datetime _) as [parsed|e]; simpl; [|discriminate].
  destruct (Nat.eqb_spec (length (sort_values by_game_datetime parsed)) 0)
    as [Hz|Hnz]; [discriminate|].
  intros [= <-]. exists parsed. repeat split. lia.
Qed.

Lemma team_schedule_sorted team_name team_games :
  schedule_of team_name = Ok team_games ->
  Sorted (ascending by_game_datetime) team_games.
Proof.
  intros Hs. apply team_schedule_Ok in Hs as (parsed & _ & -> & _).
  apply sort_values_sorted.
Qed.

Lemma team_schedule_perm team_name team_games :
  schedule_of team_name = Ok team_games ->
  Permutation (season <$> team_games) (filter_team regular_season_data team_name).
Proof.
  intros Hs. apply team_schedule_Ok in Hs as (parsed & Hp & -> & _).
  apply for_each_Ok, add_datetime_seasons in Hp as [<- _].
  apply fmap_Permutation, sort_values_perm.
Qed.

Lemma team_schedule_flagged team_name team_games :
  schedule_of team_name = Ok team_games -> Forall flagged team_games.
Proof.
  intros Hs. apply team_schedule_Ok in Hs as (parsed & Hp & -> & _).
  apply for_each_Ok, add_datetime_seasons in Hp as [_ Hf].
  rewrite (sort_values_perm by_game_datetime parsed). exact Hf.
Qed.

Lemma team_schedule_empty team_name :
  filter_team regular_season_data team_name = [] ->
  schedule_of team_name = Raise (ValueError empty_apply_message).
Proof. intros Hnil. unfold team_schedule. rewrite Hnil. reflexivity. Qed.

Lemma team_schedule_nonempty team_name r rows :
  filter_team regular_season_data team_name = r :: rows ->
  schedule_of team_name
  = let* parsed := for_each add_datetime (r :: rows) in
    Ok (sort_values by_game_datetime parsed).
Proof.
  intros Hrows. unfold team_schedule, apply_add_datetime. rewrite Hrows.
  fold by_game_datetime.
  destruct (for_each add_datetime (r :: rows)) as [parsed|e] eqn:Hp; [|reflexivity].
  cbn [rbind].
  destruct (Nat.eqb_spec (length (sort_values by_game_datetime parsed)) 0)
    as [Hz|Hnz]; [|reflexivity].
  exfalso. rewrite (Permutation_length (sort_values_perm by_game_datetime parsed)) in Hz.
  apply for_each_Ok, Forall2_length in Hp. simpl in Hp. lia.
Qed.

End Schedule.

Lemma get_coordinates_site nba_stadiums g c :
  flagged g ->
  get_coordinates nba_stadiums (Home_Neutral (season g)) (Arena (season g))
                  (is_international g) = Ok c ->
  site_coordinates nba_stadiums (season g) = Some c.
Proof.
  intros Hflag. unfold get_coordinates, site_coordinates.
  destruct (is_international g) eqn:Hint.
  - destruct (flagged_arena g Hflag Hint) as [c' ->]. congruence.
  - assert (Hout : INTERNATIONAL_ARENAS !! Arena (season g) = None).
    { apply not_elem_of_dom. intros Hin.
      unfold flagged, flag_international in Hflag.
      rewrite (bool_decide_eq_true_2 _ Hin) in Hflag. congruence. }
    rewrite Hout.
    destruct (team_coords nba_stadiums !! _) as [c'|]; [congruence|discriminate].
Qed.

(** * The claims of the specification *)

Section Claims.

Context `{SortValues}.
Variable geodesic : coords -> coords -> Q.
Variable nba_stadiums : list stadium_row.
Variable regular_season_data : list season_row.
Variable stadium_distance_data : distance_frame.

Local Abbreviation schedule_of := (team_schedule regular_season_data).
Local Abbreviation run :=
  (schedulizer geodesic nba_stadiums regular_season_data stadium_distance_data).
Local Abbreviation chain_of :=
  (game_list geodesic nba_stadiums stadium_distance_data).
Local Abbreviation leg :=
  (leg_distance geodesic nba_stadiums stadium_distance_data).

Lemma schedulizer_Ok team_name chain :
  run team_name = Ok chain ->
  exists team_games,
    schedule_of team_name = Ok team_games
    /\ chain_of team_games team_name = Ok chain.
Proof.
  unfold schedulizer.
  destruct (schedule_of team_name) as [team_games|e]; simpl; [|discriminate].
  intros Hc. exists team_games. split; [reflexivity | exact Hc].
Qed.

Lemma schedulizer_of_schedule team_name team_games :
  schedule_of team_name = Ok team_games ->
  run team_name = chain_of team_games team_name.
Proof. intros Hs. unfold schedulizer. rewrite Hs. reflexivity. Qed.

(** Every record of a chain, by position. *)
Lemma chain_record team_games team_name chain i row :
  chain_of team_games team_name = Ok chain ->
  team_games !! i = Some row ->
  exists d, chain !! i = Some d
    /\ team d = team_name
    /\ gameindex d = (i + 1)%nat
    /\ game_datetime d = game_datetime_col row
    /\ where_played d = Home_Neutral (season row).
Proof.
  intros Hc Hrow.
  destruct (game_list_entry _ _ _ _ _ _ _ _ Hc Hrow) as (d & Hd & Hbody).
  exists d. split; [exact Hd|]. destruct i as [|i].
  - rewrite loop_body_first in Hbody. injection Hbody as <-. repeat split.
  - rewrite loop_body_later in Hbody.
    destruct (team_games !! i) as [prev_row|]; [|discriminate].
    destruct (leg prev_row row) as [dist|e]; [|discriminate].
    injection Hbody as <-. repeat split.
Qed.

(** C1: for every non-empty team schedule whose legs with an international
    game find the coordinates of both ends, [schedulizer] returns exactly one
    record per game of the schedule, in the order of the schedule, with
    [gameindex] running over 1..N. *)
Theorem C1_one_record_per_game team_name team_games :
  team_schedule regular_season_data team_name = Ok team_games ->
  international_legs_resolve nba_stadiums team_games = true ->
  exists chain,
    schedulizer geodesic nba_stadiums regular_season_data stadium_distance_data
              team_name = Ok chain
    /\ (0 < length team_games)%nat
    /\ length chain = length team_games
    /\ gameindex <$> chain = seq 1 (length team_games)
    /\ game_datetime <$> chain = game_datetime_col <$> team_games
    /\ where_played <$> chain = (fun g => Home_Neutral (season g)) <$> team_games.
Proof.
  intros Hs Hres.
  destruct (game_list_total geodesic nba_stadiums stadium_distance_data
              team_games team_name) as [chain Hc];
    [eapply team_schedule_flagged; exact Hs | exact Hres |].
  exists chain. rewrite (schedulizer_of_schedule _ _ Hs).
  pose proof (game_list_length _ _ _ _ _ _ Hc) as Hlen.
  split; [exact Hc|]. split.
  { apply team_schedule_Ok in Hs as (? & _ & _ & Hpos). exact Hpos. }
  split; [exact Hlen|].
  assert (Hrec : forall i, (i < length team_games)%nat ->
            exists row d, team_games !! i = Some row /\ chain !! i = Some d
              /\ gameindex d = (i + 1)%nat
              /\ game_datetime d = game_datetime_col row
              /\ where_played d = Home_Neutral (season row)).
  { intros i Hi. destruct (lookup_lt_is_Some_2 team_games i Hi) as [row Hrow].
    destruct (chain_record _ _ _ _ _ Hc Hrow) as (d & Hd & _ & Hrest).
    exists row, d. repeat split; try assumption; apply Hrest. }
  repeat split; apply list_eq; intros i; rewrite !list_lookup_fmap;
    destruct (Nat.lt_ge_cases i (length team_games)) as [Hi|Hi].
  - destruct (Hrec i Hi) as (row & d & Hrow & Hd & Hidx & _).
    rewrite Hd, (lookup_seq_lt _ _ _ Hi). simpl. f_equal. lia.
  - rewrite lookup_seq_ge by exact Hi.
    rewrite (lookup_ge_None_2 chain i) by lia. reflexivity.
  - destruct (Hrec i Hi) as (row & d & Hrow & Hd & _ & Hdt & _).
    rewrite Hd, Hrow. simpl. f_equal. exact Hdt.
  - rewrite (lookup_ge_None_2 chain i), (lookup_ge_None_2 team_games i) by lia.
    reflexivity.
  - destruct (Hrec i Hi) as (row & d & Hrow & Hd & _ & _ & Hwp).
    rewrite Hd, Hrow. simpl. f_equal. exact Hwp.
  - rewrite (lookup_ge_None_2 chain i), (lookup_ge_None_2 team_games i) by lia.
    reflexivity.
Qed.

(** C2: the first record of a chain has no previous game, no distance, no
    hours and no burden; every later record has all of them, except that
    its burden is missing exactly when its hours are not positive. *)
Theorem C2_first_record_null team_name chain :
  schedulizer geodesic nba_stadiums regular_season_data stadium_distance_data
              team_name = Ok chain ->
  (exists d, chain !! 0%nat = Some d
     /\ gameindex d = 1%nat
     /\ previous_game_datetime d = None
     /\ previous_where_played d = None
     /\ travel_distance d = None
     /\ travel_hours d = None
     /\ game_mile_hours_burden d = None)
  /\ (forall i d, chain !! S i = Some d ->
        is_Some (previous_game_datetime d)
        /\ is_Some (previous_where_played d)
        /\ is_Some (travel_distance d)
        /\ exists h, travel_hours d = Some h
             /\ (game_mile_hours_burden d = None <-> (h <= 0)%Q)).
Proof.
  intros Hrun. apply schedulizer_Ok in Hrun as (team_games & Hs & Hc). split.
  - apply team_schedule_Ok in Hs as (_ & _ & _ & Hpos).
    destruct (lookup_lt_is_Some_2 chain 0) as [d Hd].
    { rewrite (game_list_length _ _ _ _ _ _ Hc). exact Hpos. }
    destruct (game_list_first _ _ _ _ _ _ _ Hc Hd) as (row & _ & ->).
    exists (first_record team_name row). repeat split. exact Hd.
  - intros i d Hd.
    destruct (game_list_later _ _ _ _ _ _ _ _ Hc Hd)
      as (prev_row & row & dist & _ & _ & _ & ->).
    fields. repeat split; try (eexists; reflexivity).
    exists (hours_between prev_row row). split; [reflexivity|].
    destruct (Qpositive (hours_between prev_row row)) eqn:Hpos.
    + apply Qpositive_spec in Hpos. split; [discriminate|].
      intros Hle. exfalso. eapply Qlt_not_le; eassumption.
    + apply Qpositive_false in Hpos. split; [intros _; exact Hpos | reflexivity].
Qed.

(** C3: in every record after the first the burden is the distance divided
    by the hours when the hours are positive and is missing otherwise; two
    games with the same date and time give zero hours and no burden; the
    guard returns in every case, it never raises. *)
Theorem C3_burden_guard team_name chain i d :
  schedulizer geodesic nba_stadiums regular_season_data stadium_distance_data
              team_name = Ok chain ->
  chain !! S i = Some d ->
  exists dist h,
    (1 < gameindex d)%nat
    /\ travel_distance d = Some dist
    /\ travel_hours d = Some h
    /\ ((0 < h)%Q -> game_mile_hours_burden d = Some (dist / h)%Q)
    /\ ((h <= 0)%Q -> game_mile_hours_burden d = None)
    /\ (previous_game_datetime d = Some (game_datetime d) ->
        (h == 0)%Q /\ game_mile_hours_burden d = None)
    /\ burden dist h = Ok (game_mile_hours_burden d).
Proof.
  intros Hrun Hd. apply schedulizer_Ok in Hrun as (team_games & Hs & Hc).
  destruct (game_list_later _ _ _ _ _ _ _ _ Hc Hd)
    as (prev_row & row & dist & _ & _ & _ & ->).
  exists dist, (hours_between prev_row row). fields.
  split; [lia|]. split; [reflexivity|]. split; [reflexivity|].
  assert (Hzero : Some (game_datetime_col prev_row) = Some (game_datetime_col row) ->
                  (hours_between prev_row row == 0)%Q).
  { intros [= Heq]. unfold hours_between, total_seconds_between. rewrite Heq.
    apply hours_sign. lia. }
  destruct (Qpositive (hours_between prev_row row)) eqn:Hpos.
  - pose proof Hpos as Hlt. apply Qpositive_spec in Hlt.
    split; [reflexivity|]. split.
    { intros Hle. exfalso. eapply Qlt_not_le; eassumption. }
    split; [|rewrite burden_returns, Hpos; reflexivity].
    intros Heq. apply Hzero in Heq. rewrite Heq in Hlt.
    exfalso. revert Hlt. apply Qlt_irrefl.
  - pose proof Hpos as Hle. apply Qpositive_false in Hle.
    split; [intros Hlt; exfalso; eapply Qlt_not_le; eassumption|].
    split; [reflexivity|].
    split; [|rewrite burden_returns, Hpos; reflexivity].
    intros Heq. split; [apply Hzero; exact Heq | reflexivity].
Qed.

(** Two neighbours of the schedule and the record of the second. *)
Lemma chain_leg team_name team_games chain i prev_row row d :
  schedule_of team_name = Ok team_games ->
  run team_name = Ok chain ->
  team_games !! i = Some prev_row ->
  team_games !! S i = Some row ->
  chain !! S i = Some d ->
  exists dist,
    leg prev_row row = Ok dist
    /\ d = later_record team_name (S i) prev_row row dist
    /\ flagged prev_row /\ flagged row.
Proof.
  intros Hs Hrun Hprev Hrow Hd.
  rewrite (schedulizer_of_schedule _ _ Hs) in Hrun.
  destruct (game_list_later _ _ _ _ _ _ _ _ Hrun Hd)
    as (prev_row' & row' & dist & Hprev' & Hrow' & Hleg & ->).
  assert (prev_row' = prev_row) as -> by congruence.
  assert (row' = row) as -> by congruence.
  pose proof (team_schedule_flagged _ _ _ Hs) as Hflag.
  exists dist. repeat split; [exact Hleg | |];
    eapply Forall_lookup_1; eassumption.
Qed.


(** C5: when one of two consecutive games is at a venue of the
    international table, the travel distance is the geodesic between the
    fixed coordinates of the two places; the distance matrix plays no part,
    whatever entries it holds. *)
Theorem C5_international_leg_geodesic team_name team_games chain i prev_row row d :
  team_schedule regular_season_data team_name = Ok team_games ->
  schedulizer geodesic nba_stadiums regular_season_data stadium_distance_data
              team_name = Ok chain ->
  team_games !! i = Some prev_row ->
  team_games !! S i = Some row ->
  chain !! S i = Some d ->
  flag_international (season prev_row) || flag_international (season row) = true ->
  exists prev_coords curr_coords,
    site_coordinates nba_stadiums (season prev_row) = Some prev_coords
    /\ site_coordinates nba_stadiums (season row) = Some curr_coords
    /\ travel_distance d = Some (geodesic prev_coords curr_coords)
    /\ forall other_matrix : distance_frame,
         leg_distance geodesic nba_stadiums other_matrix prev_row row
         = Ok (geodesic prev_coords curr_coords).
Proof.
  intros Hs Hrun Hprev Hrow Hd Hvenue.
  destruct (chain_leg _ _ _ _ _ _ _ Hs Hrun Hprev Hrow Hd)
    as (dist & Hleg & -> & Hfp & Hfr).
  assert (Hint : is_international prev_row || is_international row = true).
  { unfold flagged in Hfp, Hfr. rewrite Hfp, Hfr. exact Hvenue. }
  rewrite (leg_distance_international _ _ _ _ _ Hint) in Hleg.
  destruct (get_coordinates nba_stadiums (Home_Neutral (season prev_row)) _ _)
    as [pc|e] eqn:Hpc; simpl in Hleg; [|discriminate].
  destruct (get_coordinates nba_stadiums (Home_Neutral (season row)) _ _)
    as [cc|e] eqn:Hcc; simpl in Hleg; [|discriminate].
  injection Hleg as <-. exists pc, cc.
  split; [apply get_coordinates_site; assumption|].
  split; [apply get_coordinates_site; assumption|].
  split; [reflexivity|].
  intros other_matrix. rewrite (leg_distance_international _ _ _ _ _ Hint).
  rewrite Hpc, Hcc. reflexivity.
Qed.

(** A leg raises only for want of the coordinates of a team. *)
Lemma leg_distance_Raise prev_row row e :
  flagged prev_row -> flagged row ->
  leg prev_row row = Raise e ->
  exists name, e = ValueError ("Could not find coordinates for team: " ++ name).
Proof.
  intros Hfp Hfr Hleg.
  destruct (is_international prev_row || is_international row) eqn:Hint.
  - rewrite (leg_distance_international _ _ _ _ _ Hint) in Hleg.
    assert (Hget : forall g e', flagged g ->
              get_coordinates nba_stadiums (Home_Neutral (season g))
                (Arena (season g)) (is_international g) = Raise e' ->
              exists name,
                e' = ValueError ("Could not find coordinates for team: " ++ name)).
    { intros g e' Hf. unfold get_coordinates.
      destruct (is_international g) eqn:Hg.
      - destruct (flagged_arena g Hf Hg) as [c ->]. discriminate.
      - destruct (team_coords nba_stadiums !! _); [discriminate|].
        intros [= <-]. eexists; reflexivity. }
    destruct (get_coordinates nba_stadiums (Home_Neutral (season prev_row)) _ _)
      as [pc|e1] eqn:Hpc; simpl in Hleg.
    + destruct (get_coordinates nba_stadiums (Home_Neutral (season row)) _ _)
        as [cc|e2] eqn:Hcc; simpl in Hleg; [discriminate|].
      injection Hleg as <-. exact (Hget row _ Hfr Hcc).
    + injection Hleg as <-. exact (Hget prev_row _ Hfp Hpc).
  - apply orb_false_iff in Hint as [Hp Hr].
    rewrite (leg_distance_matrix _ _ _ _ _ Hp Hr) in Hleg. discriminate.
Qed.

Lemma game_list_Raise team_games team_name e :
  Forall flagged team_games ->
  chain_of team_games team_name = Raise e ->
  exists name, e = ValueError ("Could not find coordinates for team: " ++ name).
Proof.
  intros Hflag Hc. unfold game_list in Hc.
  apply for_each_Raise_inv in Hc as (it & Hin & Hbody).
  apply list_elem_of_lookup in Hin as [i Hi].
  apply iterrows_lookup in Hi as (row & -> & Hrow).
  destruct i as [|i]; [rewrite loop_body_first in Hbody; discriminate|].
  rewrite loop_body_later in Hbody.
  destruct (lookup_lt_is_Some_2 team_games i) as [prev_row Hprev].
  { apply lookup_lt_Some in Hrow. lia. }
  rewrite Hprev in Hbody.
  destruct (leg prev_row row) as [dist|e'] eqn:Hleg; [discriminate|].
  injection Hbody as <-.
  eapply leg_distance_Raise; [| |exact Hleg]; eapply Forall_lookup_1; eassumption.
Qed.

Lemma get_coordinates_unlocated g :
  flagged g -> site_coordinates nba_stadiums (season g) = None ->
  exists e, get_coordinates nba_stadiums (Home_Neutral (season g))
              (Arena (season g)) (is_international g) = Raise e.
Proof.
  intros Hf Hsite.
  destruct (get_coordinates nba_stadiums _ _ _) as [c|e] eqn:Hget;
    [|eexists; reflexivity].
  apply (get_coordinates_site _ _ _ Hf) in Hget. congruence.
Qed.

(** C6: on a leg between two games in NBA arenas, a place that is absent
    from the distance matrix gives the travel distance 0.0 and no failure; on
    a leg with an international game, a place without coordinates makes
    [schedulizer] raise [ValueError], and no chain is returned. *)
Theorem C6_unknown_location team_name team_games i prev_row row :
  team_schedule regular_season_data team_name = Ok team_games ->
  team_games !! i = Some prev_row ->
  team_games !! S i = Some row ->
  (flag_international (season prev_row) = false ->
   flag_international (season row) = false ->
   (exists k, loc stadium_distance_data
                  (normalize_team_name (Home_Neutral (season prev_row)))
                  (normalize_team_name (Home_Neutral (season row)))
              = Raise (KeyError k)) ->
   leg_distance geodesic nba_stadiums stadium_distance_data prev_row row = Ok 0%Q
   /\ forall chain d, schedulizer geodesic nba_stadiums regular_season_data stadium_distance_data
              team_name = Ok chain -> chain !! S i = Some d ->
        travel_distance d = Some 0%Q)
  /\ (flag_international (season prev_row) || flag_international (season row)
      = true ->
      site_coordinates nba_stadiums (season prev_row) = None
      \/ site_coordinates nba_stadiums (season row) = None ->
      exists name,
        schedulizer geodesic nba_stadiums regular_season_data stadium_distance_data
              team_name
        = Raise (ValueError ("Could not find coordinates for team: " ++ name))).
Proof.
  intros Hs Hprev Hrow.
  pose proof (team_schedule_flagged _ _ _ Hs) as Hflag.
  assert (Hfp : flagged prev_row) by (eapply Forall_lookup_1; eassumption).
  assert (Hfr : flagged row) by (eapply Forall_lookup_1; eassumption).
  split.
  - intros Hnp Hnr [k Hloc].
    assert (Hp : is_international prev_row = false)
      by (unfold flagged in Hfp; congruence).
    assert (Hr : is_international row = false)
      by (unfold flagged in Hfr; congruence).
    assert (Hleg : leg prev_row row = Ok 0%Q).
    { rewrite (leg_distance_matrix _ _ _ _ _ Hp Hr), Hloc. reflexivity. }
    split; [exact Hleg|].
    intros chain d Hrun Hd.
    destruct (chain_leg _ _ _ _ _ _ _ Hs Hrun Hprev Hrow Hd)
      as (dist & Hleg' & -> & _).
    simpl. congruence.
  - intros Hvenue Hmissing.
    assert (Hint : is_international prev_row || is_international row = true).
    { unfold flagged in Hfp, Hfr. rewrite Hfp, Hfr. exact Hvenue. }
    assert (Hleg : exists e, leg prev_row row = Raise e).
    { rewrite (leg_distance_international _ _ _ _ _ Hint).
      destruct Hmissing as [Hm|Hm].
      - destruct (get_coordinates_unlocated _ Hfp Hm) as [e ->].
        eexists; reflexivity.
      - destruct (get_coordinates_unlocated _ Hfr Hm) as [e ->].
        destruct (get_coordinates nba_stadiums (Home_Neutral (season prev_row)) _ _);
          eexists; reflexivity. }
    destruct Hleg as [e Hleg].
    rewrite (schedulizer_of_schedule _ _ Hs).
    destruct (for_each_raises
                (loop_body geodesic nba_stadiums stadium_distance_data
                           team_games team_name)
                (iterrows team_games) (S i, row) e) as [e' He'].
    + eapply list_elem_of_lookup_2, iterrows_lookup.
      exists row. split; [reflexivity | exact Hrow].
    + rewrite loop_body_later, Hprev, Hleg. reflexivity.
    + fold (chain_of team_games team_name) in He'.
      destruct (game_list_Raise _ _ _ Hflag He') as [name ->].
      exists name. exact He'.
Qed.

(** C10: the games are sorted before the pass, so in every record after the
    first the hours are defined and not negative; they are zero, and the
    burden is missing, exactly when the two games have the same instant. *)
Theorem C10_travel_hours_nonnegative team_name chain i d :
  schedulizer geodesic nba_stadiums regular_season_data stadium_distance_data
              team_name = Ok chain ->
  chain !! S i = Some d ->
  exists prev_dt h,
    previous_game_datetime d = Some prev_dt
    /\ travel_hours d = Some h
    /\ (0 <= h)%Q
    /\ ((h <= 0)%Q <-> timestamp (game_datetime d) = timestamp prev_dt)
    /\ (game_mile_hours_burden d = None
        <-> timestamp (game_datetime d) = timestamp prev_dt).
Proof.
  intros Hrun Hd. pose proof Hrun as Hrun'.
  apply schedulizer_Ok in Hrun' as (team_games & Hs & Hc).
  destruct (game_list_later _ _ _ _ _ _ _ _ Hc Hd)
    as (prev_row & row & dist & Hprev & Hrow & _ & ->).
  pose proof (Sorted_neighbours _ _ _ _ _ (team_schedule_sorted _ _ _ Hs) Hprev Hrow)
    as Hord.
  unfold ascending, by_game_datetime in Hord.
  exists (game_datetime_col prev_row), (hours_between prev_row row). fields.
  split; [reflexivity|]. split; [reflexivity|].
  pose proof (hours_sign (total_seconds_between (game_datetime_col row)
                                                (game_datetime_col prev_row)))
    as (Hnonneg & Hle & _).
  fold (hours_between prev_row row) in Hnonneg, Hle.
  unfold total_seconds_between in Hnonneg, Hle.
  split; [apply Hnonneg; lia|].
  split; [rewrite Hle; lia|].
  destruct (Qpositive (hours_between prev_row row)) eqn:Hpos.
  - apply Qpositive_spec in Hpos. split; [discriminate|].
    intros Heq. exfalso. apply (Qlt_not_le _ _ Hpos), Hle. lia.
  - apply Qpositive_false in Hpos. split; [intros _; apply Hle in Hpos; lia|reflexivity].
Qed.

End Claims.

(** C7: both normalisers are idempotent, and they return every name other
    than "Sacramento Kings" unchanged; as functions of the model they are
    total. *)
Theorem C7_normalize_idempotent (x : string) :
  normalize_team_name (normalize_team_name x) = normalize_team_name x
  /\ normalize_team_name_for_coords (normalize_team_name_for_coords x)
     = normalize_team_name_for_coords x
  /\ (x <> "Sacramento Kings" ->
      normalize_team_name x = x /\ normalize_team_name_for_coords x = x).
Proof.
  unfold normalize_team_name, normalize_team_name_for_coords.
  destruct (String.eqb_spec x "Sacramento Kings") as [->|Hne].
  - split; [reflexivity|]. split; [reflexivity|].
    intros Hne. contradiction.
  - rewrite (proj2 (String.eqb_neq _ _) Hne).
    split; [reflexivity|]. split; [reflexivity|].
    intros _. split; reflexivity.
Qed.

Lemma parse_datetime_not_no_games date_str time_str team_name :
  parse_datetime date_str time_str
  <> Raise (ValueError ("No games found for " ++ team_name)).
Proof.
  unfold parse_datetime.
  destruct (match_date date_str) as [[[mon d] y]|]; [|discriminate].
  destruct (month_map !! mon) as [m|]; [|discriminate].
  destruct (match_time time_str) as [[[h mi] am_pm]|]; [|discriminate].
  unfold new_datetime.
  repeat (destruct (negb _); [discriminate|]). discriminate.
Qed.

Section Batch.

Context `{SortValues}.
Variable geodesic : coords -> coords -> Q.
Variable nba_stadiums : list stadium_row.
Variable regular_season_data : list season_row.
Variable stadium_distance_data : distance_frame.

Local Abbreviation run :=
  (schedulizer geodesic nba_stadiums regular_season_data stadium_distance_data).
Local Abbreviation record :=
  (record_team geodesic nba_stadiums regular_season_data stadium_distance_data).
Local Abbreviation mapping :=
  (create_schedule_mapping geodesic nba_stadiums regular_season_data
                           stadium_distance_data).
Local Abbreviation outcome_of :=
  (outcome geodesic nba_stadiums regular_season_data stadium_distance_data).

Lemma record_team_lookup m team_name other :
  record m team_name !! other =
  if decide (team_name = other) then Some (outcome_of team_name) else m !! other.
Proof.
  unfold record_team, outcome.
  destruct (run team_name) as [schedule|e]; rewrite lookup_insert; reflexivity.
Qed.

Lemma foldl_record_team_lookup teams m other :
  foldl record m teams !! other =
  if decide (other ∈ teams) then Some (outcome_of other) else m !! other.
Proof.
  revert m. induction teams as [|t teams IH]; intros m; simpl.
  - destruct (decide (other ∈ [])) as [Hin|_]; [inversion Hin | reflexivity].
  - rewrite IH, record_team_lookup.
    destruct (decide (other ∈ teams)) as [Hin|Hnin].
    + rewrite decide_True by (right; exact Hin). reflexivity.
    + destruct (decide (t = other)) as [->|Hne].
      * rewrite decide_True by left. reflexivity.
      * rewrite decide_False; [reflexivity|].
        intros Hin. apply elem_of_cons in Hin as [->|Hin]; [congruence|contradiction].
Qed.

Lemma all_teams_spec team_name :
  team_name ∈ all_teams regular_season_data <->
  exists r, r ∈ regular_season_data
            /\ (Visitor_Neutral r = team_name \/ Home_Neutral r = team_name).
Proof.
  unfold all_teams, sorted. rewrite merge_sort_Permutation.
  rewrite elem_of_elements, elem_of_union, !elem_of_list_to_set, !list_elem_of_fmap.
  split.
  - intros [(r & -> & Hr)|(r & -> & Hr)]; exists r; auto.
  - intros (r & Hr & [<-|<-]); [left|right]; exists r; auto.
Qed.

Lemma schedulizer_not_no_games team_name :
  run team_name <> Raise (ValueError ("No games found for " ++ team_name)).
Proof.
  unfold schedulizer.
  destruct (team_schedule regular_season_data team_name) as [team_games|e] eqn:Hs;
    cbn [rbind].
  - intros Hc.
    destruct (game_list_Raise _ _ _ _ _ _ (team_schedule_flagged _ _ _ Hs) Hc)
      as [name Hname].
    discriminate Hname.
  - intros [= ->]. unfold team_schedule, apply_add_datetime in Hs.
    destruct (filter_team regular_season_data team_name) as [|r rows];
      [discriminate Hs|].
    destruct (for_each add_datetime (r :: rows)) as [parsed|e] eqn:Hp;
      cbn [rbind] in Hs.
    + apply for_each_Ok, Forall2_length in Hp.
      pose proof (Permutation_length
                    (sort_values_perm (fun g => timestamp (game_datetime_col g)) parsed))
        as Hlen.
      destruct (Nat.eqb_spec
                  (length (sort_values (fun g => timestamp (game_datetime_col g)) parsed))
                  0) as [Hz|_]; [|discriminate Hs].
      simpl in Hp. lia.
    + injection Hs as ->.
      apply for_each_Raise_inv in Hp as (r' & _ & Hr). unfold add_datetime in Hr.
      destruct (parse_datetime (Game_Date r') (Start_ET r')) as [dt|e] eqn:Hparse;
        [discriminate Hr|].
      injection Hr as ->. exact (parse_datetime_not_no_games _ _ _ Hparse).
Qed.

(** C9: a team without games does not reach the check of lines 119-120:
    [schedulizer] raises the [ValueError] of pandas for the frame without
    rows, and the "No games found" error is raised for no input at all.
    The batch keeps, for every team of the season data, an entry that is
    the team's chain or the marker [None] when [schedulizer] raised for that
    team, whatever happened for the other teams. *)
Theorem C9_no_games_check_unreachable :
  (forall team_name,
      filter_team regular_season_data team_name = [] ->
      schedulizer geodesic nba_stadiums regular_season_data stadium_distance_data
                  team_name
      = Raise (ValueError empty_apply_message))
  /\ (forall team_name,
        schedulizer geodesic nba_stadiums regular_season_data stadium_distance_data
                    team_name
        <> Raise (ValueError ("No games found for " ++ team_name)))
  /\ (forall team_name,
        team_name ∈ all_teams regular_season_data ->
        create_schedule_mapping geodesic nba_stadiums regular_season_data
                                stadium_distance_data !! team_name
        = Some (outcome geodesic nba_stadiums regular_season_data
                        stadium_distance_data team_name))
  /\ (forall team_name e,
        team_name ∈ all_teams regular_season_data ->
        schedulizer geodesic nba_stadiums regular_season_data stadium_distance_data
                    team_name = Raise e ->
        create_schedule_mapping geodesic nba_stadiums regular_season_data
                                stadium_distance_data !! team_name
        = Some None)
  /\ (forall team_name,
        is_Some (create_schedule_mapping geodesic nba_stadiums regular_season_data
                                         stadium_distance_data !! team_name)
        <-> exists r, r ∈ regular_season_data
                      /\ (Visitor_Neutral r = team_name \/ Home_Neutral r = team_name)).
Proof.
  assert (Hlookup : forall team_name,
             team_name ∈ all_teams regular_season_data ->
             mapping !! team_name = Some (outcome_of team_name)).
  { intros team_name Hin. unfold create_schedule_mapping.
    rewrite foldl_record_team_lookup, decide_True by exact Hin. reflexivity. }
  split; [|split; [exact schedulizer_not_no_games|split; [exact Hlookup|split]]].
  - intros team_name Hnil. unfold schedulizer.
    rewrite (team_schedule_empty _ _ Hnil). reflexivity.
  - intros team_name e Hin Hraise. rewrite (Hlookup _ Hin).
    unfold outcome. rewrite Hraise. reflexivity.
  - intros team_name. rewrite <- all_teams_spec.
    unfold create_schedule_mapping. rewrite foldl_record_team_lookup.
    destruct (decide (team_name ∈ all_teams regular_season_data)) as [Hin|Hnin].
    + split; [intros _; exact Hin | intros _; eexists; reflexivity].
    + rewrite lookup_empty. split; [intros [? ?]; discriminate | contradiction].
Qed.

End Batch.

(** ** The claims on the sample data *)

Lemma wizards_schedule_Ok :
  @team_schedule stable_sort_values season_sample "Washington Wizards"
  = Ok wizards_schedule.
Proof. vm_compute. reflexivity. Defined.

Lemma wizards_chain_Ok :
  @schedulizer stable_sort_values planar_miles stadiums_sample season_sample
               matrix_sample "Washington Wizards"
  = Ok wizards_chain.
Proof. vm_compute. reflexivity. Defined.

(** Replace a record or a row by its value. *)
Ltac evaluate H := vm_compute in H; injection H as <-.

Lemma C1_witness :
  international_legs_resolve stadiums_sample wizards_schedule = true
  /\ exists chain,
       @schedulizer stable_sort_values planar_miles stadiums_sample season_sample
                    matrix_sample "Washington Wizards" = Ok chain
       /\ length chain = 7%nat
       /\ gameindex <$> chain = [1; 2; 3; 4; 5; 6; 7]%nat.
Proof.
  assert (Hres : international_legs_resolve stadiums_sample wizards_schedule = true)
    by (vm_compute; reflexivity).
  split; [exact Hres|].
  destruct (C1_one_record_per_game planar_miles stadiums_sample season_sample
              matrix_sample "Washington Wizards" wizards_schedule
              wizards_schedule_Ok Hres)
    as (chain & Hrun & _ & Hlen & Hidx & _).
  exists chain. split; [exact Hrun|]. split; [exact Hlen | exact Hidx].
Defined.

(** Without the condition on the coordinates C1 fails: with a stadium table
    that lacks Washington, the schedule is not empty and [schedulizer] raises
    at the Mexico City leg. *)
Lemma C1_counterexample :
  @team_schedule stable_sort_values season_sample "Washington Wizards"
  = Ok wizards_schedule
  /\ length wizards_schedule = 7%nat
  /\ @schedulizer stable_sort_values planar_miles stadiums_without_washington
                  season_sample matrix_sample "Washington Wizards"
     = Raise (ValueError "Could not find coordinates for team: Washington Wizards").
Proof. repeat split; vm_compute; reflexivity. Qed.

Lemma C2_witness :
  (exists d, wizards_chain !! 0%nat = Some d
     /\ gameindex d = 1%nat
     /\ previous_game_datetime d = None
     /\ previous_where_played d = None
     /\ travel_distance d = None
     /\ travel_hours d = None
     /\ game_mile_hours_burden d = None)
  /\ (exists d h, wizards_chain !! 1%nat = Some d
        /\ is_Some (previous_game_datetime d)
        /\ is_Some (previous_where_played d)
        /\ is_Some (travel_distance d)
        /\ travel_hours d = Some h
        /\ (game_mile_hours_burden d = None <-> (h <= 0)%Q)).
Proof.
  destruct (C2_first_record_null planar_miles stadiums_sample season_sample
              matrix_sample "Washington Wizards" wizards_chain wizards_chain_Ok)
    as [Hfirst Hlater].
  split; [exact Hfirst|].
  destruct (wizards_chain !! 1%nat) as [d|] eqn:Hd; [|vm_compute in Hd; discriminate].
  destruct (Hlater 0%nat d Hd) as (Hdt & Hwhere & Hdist & h & Hh & Hburden).
  exists d, h. repeat split; try assumption; apply Hburden.
Defined.

Lemma C3_witness :
  exists d dist h,
    wizards_chain !! 5%nat = Some d
    /\ previous_game_datetime d = Some (game_datetime d)
    /\ travel_distance d = Some dist
    /\ travel_hours d = Some h
    /\ (h == 0)%Q
    /\ game_mile_hours_burden d = None.
Proof.
  destruct (wizards_chain !! 5%nat) as [d|] eqn:Hd; [|vm_compute in Hd; discriminate].
  assert (Hsame : previous_game_datetime d = Some (game_datetime d))
    by (evaluate Hd; reflexivity).
  destruct (C3_burden_guard planar_miles stadiums_sample season_sample
              matrix_sample "Washington Wizards" wizards_chain 4 d
              wizards_chain_Ok Hd)
    as (dist & h & _ & Hdist & Hh & _ & _ & Htie & _).
  exists d, dist, h. destruct (Htie Hsame) as [Hzero Hnone].
  repeat split; assumption.
Defined.



Lemma C5_witness :
  exists prev_row row d,
    wizards_schedule !! 0%nat = Some prev_row
    /\ wizards_schedule !! 1%nat = Some row
    /\ wizards_chain !! 1%nat = Some d
    /\ flag_international (season row) = true
    /\ travel_distance d
       = Some (planar_miles (38.8981, -77.0209)%Q (19.496309, -99.175429)%Q)
    /\ leg_distance planar_miles stadiums_sample ∅ prev_row row
       = Ok (planar_miles (38.8981, -77.0209)%Q (19.496309, -99.175429)%Q).
Proof.
  destruct (wizards_schedule !! 0%nat) as [prev_row|] eqn:Hprev;
    [|vm_compute in Hprev; discriminate].
  destruct (wizards_schedule !! 1%nat) as [row|] eqn:Hrow;
    [|vm_compute in Hrow; discriminate].
  destruct (wizards_chain !! 1%nat) as [d|] eqn:Hd; [|vm_compute in Hd; discriminate].
  assert (Hrow_intl : flag_international (season row) = true)
    by (evaluate Hrow; vm_compute; reflexivity).
  assert (Hint : flag_international (season prev_row)
                 || flag_international (season row) = true)
    by (rewrite Hrow_intl; apply orb_true_r).
  assert (Hpc : site_coordinates stadiums_sample (season prev_row)
                = Some (38.8981, -77.0209)%Q)
    by (evaluate Hprev; vm_compute; reflexivity).
  assert (Hcc : site_coordinates stadiums_sample (season row)
                = Some (19.496309, -99.175429)%Q)
    by (evaluate Hrow; vm_compute; reflexivity).
  destruct (C5_international_leg_geodesic planar_miles stadiums_sample season_sample
              matrix_sample "Washington Wizards" wizards_schedule wizards_chain
              0 prev_row row d wizards_schedule_Ok wizards_chain_Ok
              Hprev Hrow Hd Hint)
    as (pc & cc & Hpc' & Hcc' & Hdist & Hany).
  assert (pc = (38.8981, -77.0209)%Q) as -> by congruence.
  assert (cc = (19.496309, -99.175429)%Q) as -> by congruence.
  exists prev_row, row, d. repeat split; try assumption. apply Hany.
Defined.

Lemma C6_witness :
  (exists prev_row row,
     wizards_schedule !! 5%nat = Some prev_row
     /\ wizards_schedule !! 6%nat = Some row
     /\ loc matrix_sample (normalize_team_name (Home_Neutral (season prev_row)))
            (normalize_team_name (Home_Neutral (season row)))
        = Raise (KeyError "Boston Celtics")
     /\ leg_distance planar_miles stadiums_sample matrix_sample prev_row row = Ok 0%Q)
  /\ (exists prev_row row name,
        wizards_schedule !! 0%nat = Some prev_row
        /\ wizards_schedule !! 1%nat = Some row
        /\ site_coordinates stadiums_without_washington (season prev_row) = None
        /\ @schedulizer stable_sort_values planar_miles stadiums_without_washington
                        season_sample matrix_sample "Washington Wizards"
           = Raise (ValueError ("Could not find coordinates for team: " ++ name))).
Proof.
  split.
  - destruct (wizards_schedule !! 5%nat) as [prev_row|] eqn:Hprev;
      [|vm_compute in Hprev; discriminate].
    destruct (wizards_schedule !! 6%nat) as [row|] eqn:Hrow;
      [|vm_compute in Hrow; discriminate].
    assert (Hnp : flag_international (season prev_row) = false)
      by (evaluate Hprev; vm_compute; reflexivity).
    assert (Hnr : flag_international (season row) = false)
      by (evaluate Hrow; vm_compute; reflexivity).
    assert (Hloc : loc matrix_sample
                       (normalize_team_name (Home_Neutral (season prev_row)))
                       (normalize_team_name (Home_Neutral (season row)))
                   = Raise (KeyError "Boston Celtics"))
      by (evaluate Hprev; evaluate Hrow; vm_compute; reflexivity).
    destruct (C6_unknown_location planar_miles stadiums_sample season_sample
                matrix_sample "Washington Wizards" wizards_schedule 5 prev_row row
                wizards_schedule_Ok Hprev Hrow)
      as [Hmatrix _].
    destruct (Hmatrix Hnp Hnr (ex_intro _ "Boston Celtics" Hloc)) as [Hleg _].
    exists prev_row, row. repeat split; assumption.
  - destruct (wizards_schedule !! 0%nat) as [prev_row|] eqn:Hprev;
      [|vm_compute in Hprev; discriminate].
    destruct (wizards_schedule !! 1%nat) as [row|] eqn:Hrow;
      [|vm_compute in Hrow; discriminate].
    assert (Hint : flag_international (season prev_row)
                   || flag_international (season row) = true)
      by (evaluate Hprev; evaluate Hrow; vm_compute; reflexivity).
    assert (Hmissing : site_coordinates stadiums_without_washington (season prev_row)
                       = None)
      by (evaluate Hprev; vm_compute; reflexivity).
    destruct (C6_unknown_location planar_miles stadiums_without_washington
                season_sample matrix_sample "Washington Wizards" wizards_schedule
                0 prev_row row wizards_schedule_Ok Hprev Hrow)
      as [_ Hintl].
    destruct (Hintl Hint (or_introl Hmissing)) as [name Hraise].
    exists prev_row, row, name. repeat split; assumption.
Defined.

(** On a leg with an international game the degrade of C6 fails: the stadium
    table has no row for Washington, whose home game precedes the Mexico City
    game, and [schedulizer] raises instead of returning a chain with the
    distance 0.0. *)
Lemma C6_counterexample :
  exists prev_row row,
    wizards_schedule !! 0%nat = Some prev_row
    /\ wizards_schedule !! 1%nat = Some row
    /\ is_international prev_row = false
    /\ is_international row = true
    /\ team_coords stadiums_without_washington
         !! normalize_team_name_for_coords (Home_Neutral (season prev_row)) = None
    /\ leg_distance planar_miles stadiums_without_washington matrix_sample prev_row row
       = Raise (ValueError "Could not find coordinates for team: Washington Wizards")
    /\ @schedulizer stable_sort_values planar_miles stadiums_without_washington
                    season_sample matrix_sample "Washington Wizards"
       = Raise (ValueError "Could not find coordinates for team: Washington Wizards").
Proof.
  do 2 eexists. split; [vm_compute; reflexivity|].
  split; [vm_compute; reflexivity|].
  repeat split; vm_compute; reflexivity.
Qed.

Lemma C7_witness :
  normalize_team_name "Boston Celtics" = "Boston Celtics"
  /\ normalize_team_name_for_coords "Boston Celtics" = "Boston Celtics".
Proof.
  apply (C7_normalize_idempotent "Boston Celtics"). discriminate.
Defined.

Lemma C9_witness :
  filter_team season_sample "Chicago Bulls" = []
  /\ @schedulizer stable_sort_values planar_miles stadiums_sample season_sample
                  matrix_sample "Chicago Bulls"
     = Raise (ValueError empty_apply_message)
  /\ @schedulizer stable_sort_values planar_miles stadiums_sample season_sample
                  matrix_sample "Chicago Bulls"
     <> Raise (ValueError "No games found for Chicago Bulls")
  /\ @create_schedule_mapping stable_sort_values planar_miles
       stadiums_without_washington season_sample matrix_sample
       !! "Washington Wizards" = Some None
  /\ is_Some (@create_schedule_mapping stable_sort_values planar_miles
                stadiums_without_washington season_sample matrix_sample
                !! "Miami Heat").
Proof.
  destruct (@C9_no_games_check_unreachable stable_sort_values planar_miles
              stadiums_sample season_sample matrix_sample) as (Hnone & Hnever & _).
  destruct (@C9_no_games_check_unreachable stable_sort_values planar_miles
              stadiums_without_washington season_sample matrix_sample)
    as (_ & _ & Hentry & Hmarker & _).
  assert (Hnil : filter_team season_sample "Chicago Bulls" = [])
    by (vm_compute; reflexivity).
  split; [exact Hnil|].
  split; [exact (Hnone "Chicago Bulls" Hnil)|].
  split; [exact (Hnever "Chicago Bulls")|].
  assert (Hall : all_teams season_sample
                 = ["Atlanta Hawks"; "Boston Celtics"; "Golden State Warriors";
                    "Miami Heat"; "New York Knicks"; "Sacramento Kings";
                    "Washington Wizards"])
    by (vm_compute; reflexivity).
  split.
  - eapply (Hmarker "Washington Wizards").
    + rewrite Hall. do 6 right. left.
    + vm_compute. reflexivity.
  - rewrite (Hentry "Miami Heat") by (rewrite Hall; do 3 right; left).
    eexists. reflexivity.
Defined.

Lemma C10_witness :
  exists d prev_dt h,
    wizards_chain !! 1%nat = Some d
    /\ previous_game_datetime d = Some prev_dt
    /\ travel_hours d = Some h
    /\ (0 <= h)%Q.
Proof.
  destruct (wizards_chain !! 1%nat) as [d|] eqn:Hd; [|vm_compute in Hd; discriminate].
  destruct (C10_travel_hours_nonnegative planar_miles stadiums_sample season_sample
              matrix_sample "Washington Wizards" wizards_chain 0 d
              wizards_chain_Ok Hd)
    as (prev_dt & h & Hprev & Hh & Hnonneg & _).
  exists d, prev_dt, h. repeat split; assumption.
Defined.

(** * Further properties of [schedulizer] *)

Section Further.

Context `{SortValues}.
Variable geodesic : coords -> coords -> Q.
Variable nba_stadiums : list stadium_row.
Variable regular_season_data : list season_row.
Variable stadium_distance_data : distance_frame.

Lemma team_schedule_parsed team_name team_games :
  team_schedule regular_season_data team_name = Ok team_games ->
  Forall (fun g => parse_datetime (Game_Date (season g)) (Start_ET (season g))
                   = Ok (game_datetime_col g)) team_games.
Proof.
  intros Hs. apply team_schedule_Ok in Hs as (parsed & Hp & -> & _).
  rewrite (sort_values_perm by_game_datetime parsed).
  apply for_each_Ok in Hp. clear -Hp.
  induction Hp as [|r g rows parsed Hg _ IH]; constructor; [|exact IH].
  apply add_datetime_Ok in Hg as (<- & _ & Hparse). exact Hparse.
Qed.

(** X1: in a chain, every record after the first names as its previous
    game the game of the record before it: same date and time, same place. *)
Theorem chain_links team_name chain i d d' :
  schedulizer geodesic nba_stadiums regular_season_data stadium_distance_data
              team_name = Ok chain ->
  chain !! i = Some d ->
  chain !! S i = Some d' ->
  previous_game_datetime d' = Some (game_datetime d)
  /\ previous_where_played d' = Some (where_played d)
  /\ gameindex d' = S (gameindex d).
Proof.
  intros Hrun Hd Hd'. apply schedulizer_Ok in Hrun as (team_games & _ & Hc).
  destruct (game_list_later _ _ _ _ _ _ _ _ Hc Hd')
    as (prev_row & row & dist & Hprev & _ & _ & ->).
  destruct (chain_record _ _ _ _ _ _ _ _ Hc Hprev) as (d0 & Hd0 & _ & Hidx & Hdt & Hwp).
  assert (d0 = d) as -> by congruence.
  fields. rewrite Hdt, Hwp, Hidx. repeat split.
Qed.

(** X2: every record of a chain is a game of the team in the season data:
    the record is played at the home team of the row, its time is the parsed
    time of the row, and the team is at home against the visitor, or away at
    its opponent's. *)
Theorem chain_home_away team_name chain d :
  schedulizer geodesic nba_stadiums regular_season_data stadium_distance_data
              team_name = Ok chain ->
  d ∈ chain ->
  team d = team_name
  /\ exists r,
       r ∈ regular_season_data
       /\ parse_datetime (Game_Date r) (Start_ET r) = Ok (game_datetime d)
       /\ where_played d = Home_Neutral r
       /\ ((location d = "home" /\ Home_Neutral r = team_name
            /\ opponent d = Visitor_Neutral r)
           \/ (location d = "away" /\ Visitor_Neutral r = team_name
               /\ Home_Neutral r <> team_name /\ opponent d = Home_Neutral r)).
Proof.
  intros Hrun Hin. apply schedulizer_Ok in Hrun as (team_games & Hs & Hc).
  apply list_elem_of_lookup in Hin as [i Hd].
  assert (Hrow : exists row, team_games !! i = Some row
                 /\ team d = team_name
                 /\ game_datetime d = game_datetime_col row
                 /\ where_played d = Home_Neutral (season row)
                 /\ location d = (if String.eqb (Home_Neutral (season row)) team_name
                                  then "home" else "away")
                 /\ opponent d = (if String.eqb (Home_Neutral (season row)) team_name
                                  then Visitor_Neutral (season row)
                                  else Home_Neutral (season row))).
  { destruct i as [|i].
    - destruct (game_list_first _ _ _ _ _ _ _ Hc Hd) as (row & Hrow & ->).
      exists row. fields. destruct (String.eqb _ _); repeat split; assumption.
    - destruct (game_list_later _ _ _ _ _ _ _ _ Hc Hd)
        as (prev_row & row & dist & _ & Hrow & _ & ->).
      exists row. fields. destruct (String.eqb _ _); repeat split; assumption. }
  destruct Hrow as (row & Hrow & Hteam & Hdt & Hwp & Hloc & Hopp).
  split; [exact Hteam|]. exists (season row).
  assert (Hmine : season row ∈ filter_team regular_season_data team_name).
  { rewrite <- (team_schedule_perm _ _ _ Hs). apply list_elem_of_fmap.
    exists row. split; [reflexivity|]. eapply list_elem_of_lookup_2, Hrow. }
  apply list_elem_of_filter in Hmine as [Hplays Hdata].
  split; [exact Hdata|]. split.
  { rewrite Hdt. pose proof (team_schedule_parsed _ _ Hs) as Hp.
    exact (Forall_lookup_1 _ _ _ _ Hp Hrow). }
  split; [exact Hwp|].
  destruct (String.eqb_spec (Home_Neutral (season row)) team_name) as [Hhome|Haway].
  - left. repeat split; assumption.
  - right. repeat split; try assumption. destruct Hplays; [assumption|contradiction].
Qed.

Lemma for_each_first_failure {A B} (body : A -> result B) good x rest e :
  Forall (fun y => exists z, body y = Ok z) good ->
  body x = Raise e ->
  for_each body (good ++ x :: rest)%list = Raise e.
Proof.
  intros Hgood Hx. induction Hgood as [|y good [z Hy] _ IH]; simpl.
  - rewrite Hx. reflexivity.
  - rewrite Hy, IH. reflexivity.
Qed.

Lemma add_datetime_parse r :
  add_datetime r =
  match parse_datetime (Game_Date r) (Start_ET r) with
  | Ok dt => Ok (mk_team_game r (flag_international r) dt)
  | Raise e => Raise e
  end.
Proof. unfold add_datetime. destruct (parse_datetime _ _); reflexivity. Qed.

Lemma plays_in_all_teams team_name r :
  r ∈ filter_team regular_season_data team_name ->
  team_name ∈ all_teams regular_season_data.
Proof.
  intros Hin. apply list_elem_of_filter in Hin as [Hplays Hdata].
  apply all_teams_spec. exists r. split; assumption.
Qed.

Lemma mapping_lookup team_name :
  team_name ∈ all_teams regular_season_data ->
  create_schedule_mapping geodesic nba_stadiums regular_season_data
                          stadium_distance_data !! team_name
  = Some (outcome geodesic nba_stadiums regular_season_data stadium_distance_data
                  team_name).
Proof.
  intros Hin. unfold create_schedule_mapping.
  rewrite foldl_record_team_lookup, decide_True by exact Hin. reflexivity.
Qed.

(** X3: a row of the team whose date or time cannot be parsed ends the whole
    computation for the team with the exception of the first such row (in
    the order of the season data), and the batch keeps [None] for the team. *)
Theorem parse_error_aborts team_name good r rest e :
  filter_team regular_season_data team_name = (good ++ r :: rest)%list ->
  Forall (fun r' => exists dt,
              parse_datetime (Game_Date r') (Start_ET r') = Ok dt) good ->
  parse_datetime (Game_Date r) (Start_ET r) = Raise e ->
  schedulizer geodesic nba_stadiums regular_season_data stadium_distance_data
              team_name = Raise e
  /\ create_schedule_mapping geodesic nba_stadiums regular_season_data
                             stadium_distance_data !! team_name = Some None.
Proof.
  intros Hfilter Hgood Hbad.
  assert (Hrun : schedulizer geodesic nba_stadiums regular_season_data
                             stadium_distance_data team_name = Raise e).
  { unfold schedulizer, team_schedule, apply_add_datetime. rewrite Hfilter.
    assert (Happly : match (good ++ r :: rest)%list with
                     | [] => Raise (ValueError empty_apply_message)
                     | _ :: _ => for_each add_datetime (good ++ r :: rest)%list
                     end = for_each add_datetime (good ++ r :: rest)%list)
      by (destruct good; reflexivity).
    rewrite Happly.
    rewrite (for_each_first_failure add_datetime good r rest e); [reflexivity| |].
    - eapply Forall_impl; [exact Hgood|]. intros r' [dt Hdt].
      rewrite add_datetime_parse, Hdt. eexists; reflexivity.
    - rewrite add_datetime_parse, Hbad. reflexivity. }
  split; [exact Hrun|].
  rewrite mapping_lookup.
  - unfold outcome. rewrite Hrun. reflexivity.
  - apply (plays_in_all_teams team_name r). rewrite Hfilter.
    apply elem_of_app. right. left.
Qed.

Lemma located_season g :
  flagged g -> located nba_stadiums g = located_row nba_stadiums (season g).
Proof. unfold flagged, located, located_row. intros ->. reflexivity. Qed.

Lemma international_legs_resolve_Forall team_games :
  Forall (fun g => located nba_stadiums g = true) team_games
  \/ Forall (fun g => is_international g = false) team_games ->
  international_legs_resolve nba_stadiums team_games = true.
Proof.
  intros Hall. induction team_games as [|g l IH]; [reflexivity|].
  destruct l as [|g' l]; [reflexivity|].
  cbn [international_legs_resolve]. apply andb_true_iff. split.
  - unfold leg_resolves. destruct Hall as [Hall|Hall].
    + inversion Hall as [|? ? Hg Hl]; subst. inversion Hl as [|? ? Hg' _]; subst.
      rewrite Hg, Hg'. destruct (_ || _); reflexivity.
    + inversion Hall as [|? ? Hg Hl]; subst. inversion Hl as [|? ? Hg' _]; subst.
      rewrite Hg, Hg'. reflexivity.
  - apply IH. destruct Hall as [Hall|Hall]; [left|right];
      inversion Hall; assumption.
Qed.

(** X4: the batch keeps a chain, with one record per game of the team, for
    every team of the season data whose rows all parse and whose games are
    all located (or none of them is at an international venue), whatever the
    rows of the other teams hold. *)
Theorem batch_stores_chain team_name :
  (exists r, r ∈ regular_season_data
             /\ (Visitor_Neutral r = team_name \/ Home_Neutral r = team_name)) ->
  Forall (fun r => exists dt, parse_datetime (Game_Date r) (Start_ET r) = Ok dt)
         (filter_team regular_season_data team_name) ->
  Forall (fun r => located_row nba_stadiums r = true)
         (filter_team regular_season_data team_name)
  \/ Forall (fun r => flag_international r = false)
            (filter_team regular_season_data team_name) ->
  exists chain,
    schedulizer geodesic nba_stadiums regular_season_data stadium_distance_data
                team_name = Ok chain
    /\ create_schedule_mapping geodesic nba_stadiums regular_season_data
                               stadium_distance_data !! team_name
       = Some (Some chain)
    /\ length chain = length (filter_team regular_season_data team_name).
Proof.
  intros (r & Hdata & Hplays) Hparse Hloc.
  assert (Hmine : r ∈ filter_team regular_season_data team_name)
    by (apply list_elem_of_filter; split; assumption).
  destruct (for_each_total add_datetime (filter_team regular_season_data team_name))
    as [parsed Hparsed].
  { intros r' Hin. rewrite add_datetime_parse.
    destruct (proj1 (Forall_forall _ _) Hparse r' Hin) as [dt ->].
    eexists; reflexivity. }
  pose proof Hparsed as Hrows. apply for_each_Ok in Hrows.
  pose proof (Forall2_length _ _ _ Hrows) as Hlen.
  apply add_datetime_seasons in Hrows as [Hseasons Hflagged].
  set (team_games := sort_values by_game_datetime parsed).
  pose proof (sort_values_perm by_game_datetime parsed) as Hperm.
  fold team_games in Hperm.
  assert (Hs : team_schedule regular_season_data team_name = Ok team_games).
  { destruct (filter_team regular_season_data team_name) as [|r0 rows] eqn:Hrows0;
      [inversion Hmine|].
    rewrite (team_schedule_nonempty _ _ _ _ Hrows0), Hparsed. reflexivity. }
  assert (Hflag : Forall flagged team_games) by (rewrite Hperm; exact Hflagged).
  destruct (game_list_total geodesic nba_stadiums stadium_distance_data
              team_games team_name Hflag) as [chain Hc].
  { apply international_legs_resolve_Forall.
    assert (Hrow : forall g, g ∈ team_games ->
              season g ∈ filter_team regular_season_data team_name).
    { intros g Hg. rewrite <- Hseasons. apply list_elem_of_fmap.
      exists g. split; [reflexivity|]. rewrite <- Hperm. exact Hg. }
    destruct Hloc as [Hloc|Hloc]; [left|right]; apply Forall_forall; intros g Hg.
    - rewrite (located_season g) by (exact (proj1 (Forall_forall _ _) Hflag g Hg)).
      exact (proj1 (Forall_forall _ _) Hloc _ (Hrow g Hg)).
    - rewrite (proj1 (Forall_forall _ _) Hflag g Hg).
      exact (proj1 (Forall_forall _ _) Hloc _ (Hrow g Hg)). }
  assert (Hrun : schedulizer geodesic nba_stadiums regular_season_data
                             stadium_distance_data team_name = Ok chain).
  { rewrite (schedulizer_of_schedule _ _ _ _ _ _ Hs). exact Hc. }
  exists chain. split; [exact Hrun|]. split.
  - rewrite mapping_lookup by (eapply plays_in_all_teams; exact Hmine).
    unfold outcome. rewrite Hrun. reflexivity.
  - rewrite (game_list_length _ _ _ _ _ _ Hc), (Permutation_length Hperm). lia.
Qed.

Lemma for_each_ext {A B} (body body' : A -> result B) xs :
  (forall x, body x = body' x) -> for_each body xs = for_each body' xs.
Proof.
  intros Hext. induction xs as [|x xs IH]; simpl; [reflexivity|].
  rewrite Hext, IH. reflexivity.
Qed.

Lemma normalize_team_name_spelling x :
  normalize_team_name x <> "Sacramento Kings"
  /\ normalize_team_name_for_coords x <> "Sacramento Kings".
Proof.
  unfold normalize_team_name, normalize_team_name_for_coords.
  destruct (String.eqb_spec x "Sacramento Kings"); split;
    solve [discriminate | assumption].
Qed.

Lemma team_coords_drop_team name stadiums k :
  k <> name ->
  team_coords (drop_team name stadiums) !! k = team_coords stadiums !! k.
Proof.
  intros Hk. unfold team_coords, drop_team.
  generalize (@eq_refl _ ((∅ : gmap string coords) !! k)).
  generalize (∅ : gmap string coords) at 1 3.
  generalize (∅ : gmap string coords).
  induction stadiums as [|r l IH]; intros m m' Hm; simpl; [exact Hm|].
  rewrite filter_cons. destruct (decide (Team r <> name)) as [Hkeep|Hdrop].
  - simpl. apply IH. rewrite !lookup_insert. destruct (decide (Team r = k)); congruence.
  - apply IH. rewrite lookup_insert_ne; [exact Hm|].
    intros Heq. apply Hdrop. congruence.
Qed.

Lemma loc_drop_label label df r c :
  r <> label -> c <> label -> loc (drop_label label df) r c = loc df r c.
Proof.
  intros Hr Hc. unfold loc, drop_label.
  rewrite lookup_fmap, lookup_delete_ne by congruence.
  destruct (df !! r) as [cells|]; simpl; [|reflexivity].
  rewrite lookup_delete_ne by congruence. reflexivity.
Qed.

(** X5: the row and the column of the distance matrix labelled "Sacramento
    Kings", and the rows of the stadium table for that team, are never read:
    without them [schedulizer] returns the same result.  (Sacramento is
    looked up under "Sacremento Kings" only.) *)
Theorem correct_spelling_never_read team_name :
  schedulizer geodesic (drop_team "Sacramento Kings" nba_stadiums)
              regular_season_data
              (drop_label "Sacramento Kings" stadium_distance_data) team_name
  = schedulizer geodesic nba_stadiums regular_season_data stadium_distance_data
                team_name.
Proof.
  unfold schedulizer.
  destruct (team_schedule regular_season_data team_name) as [team_games|e];
    [|reflexivity].
  cbn [rbind]. unfold game_list. apply for_each_ext. intros [idx row].
  assert (Hleg : forall prev_row,
             leg_distance geodesic (drop_team "Sacramento Kings" nba_stadiums)
                          (drop_label "Sacramento Kings" stadium_distance_data)
                          prev_row row
             = leg_distance geodesic nba_stadiums stadium_distance_data prev_row row).
  { intros prev_row. unfold leg_distance, get_coordinates.
    rewrite !team_coords_drop_team by apply normalize_team_name_spelling.
    rewrite loc_drop_label by apply normalize_team_name_spelling.
    reflexivity. }
  unfold loop_body. destruct (idx =? 0)%nat; [reflexivity|].
  destruct (iloc team_games (idx - 1)) as [prev_row|e]; [|reflexivity].
  cbn [rbind]. rewrite Hleg. reflexivity.
Qed.

Lemma nonnegative_matrix_loc df r c x :
  nonnegative_matrix df = true -> loc df r c = Ok (Num x) -> (0 <= x)%Q.
Proof.
  unfold nonnegative_matrix, loc. intros Hall.
  destruct (df !! r) as [cells|] eqn:Hr; [|discriminate].
  destruct (cells !! c) as [y|] eqn:Hc; [|discriminate].
  intros [= ->].
  rewrite forallb_forall in Hall.
  assert (Hrow : In (r, cells) (map_to_list df))
    by (apply list_elem_of_In, elem_of_map_to_list; exact Hr).
  apply Hall in Hrow. cbn beta iota in Hrow. rewrite forallb_forall in Hrow.
  assert (Hcell : In (c, Num x) (map_to_list cells))
    by (apply list_elem_of_In, elem_of_map_to_list; exact Hc).
  apply Hrow in Hcell. cbn beta iota in Hcell.
  apply Qle_bool_iff. exact Hcell.
Qed.

Lemma record_nonnegative team_name chain d :
  (forall a b, (0 <= geodesic a b)%Q) ->
  nonnegative_matrix stadium_distance_data = true ->
  schedulizer geodesic nba_stadiums regular_season_data stadium_distance_data
              team_name = Ok chain ->
  d ∈ chain ->
  (forall x, travel_distance d = Some x -> (0 <= x)%Q)
  /\ (forall b, game_mile_hours_burden d = Some b -> (0 <= b)%Q).
Proof.
  intros Hgeo Hmatrix Hrun Hin.
  apply schedulizer_Ok in Hrun as (team_games & Hs & Hc).
  apply list_elem_of_lookup in Hin as [i Hd]. destruct i as [|i].
  - destruct (game_list_first _ _ _ _ _ _ _ Hc Hd) as (row & _ & ->).
    fields. split; intros ? [=].
  - destruct (game_list_later _ _ _ _ _ _ _ _ Hc Hd)
      as (prev_row & row & dist & _ & _ & Hleg & ->).
    assert (Hdist : (0 <= dist)%Q).
    { destruct (is_international prev_row || is_international row) eqn:Hint.
      - rewrite (leg_distance_international _ _ _ _ _ Hint) in Hleg.
        destruct (get_coordinates _ _ _ _) as [pc|]; [|discriminate].
        destruct (get_coordinates _ _ _ _) as [cc|]; [|discriminate].
        injection Hleg as <-. apply Hgeo.
      - apply orb_false_iff in Hint as [Hp Hr].
        rewrite (leg_distance_matrix _ _ _ _ _ Hp Hr) in Hleg.
        injection Hleg as <-.
        destruct (loc _ _ _) as [[x|s]|e] eqn:Hloc; try apply Qle_refl.
        destruct (String.eqb _ _); [apply Qle_refl|].
        eapply nonnegative_matrix_loc; eassumption. }
    fields. split; [intros x [= <-]; exact Hdist|].
    intros b. destruct (Qpositive (hours_between prev_row row)) eqn:Hpos; [|discriminate].
    intros [= <-]. apply Qpositive_spec in Hpos.
    apply Qle_shift_div_l; [exact Hpos|]. rewrite Qmult_0_l. exact Hdist.
Qed.

(** X6: when the geodesic and the cells of the distance matrix are not
    negative, no record of a chain has a negative travel distance or a
    negative burden. *)
Theorem burden_nonnegative team_name chain d :
  (forall a b, (0 <= geodesic a b)%Q) ->
  nonnegative_matrix stadium_distance_data = true ->
  schedulizer geodesic nba_stadiums regular_season_data stadium_distance_data
              team_name = Ok chain ->
  d ∈ chain ->
  (forall x, travel_distance d = Some x -> (0 <= x)%Q)
  /\ (forall b, game_mile_hours_burden d = Some b -> (0 <= b)%Q).
Proof. apply record_nonnegative. Qed.

End Further.

(** * Further properties of [parse_datetime] *)

Lemma match_time_meridiem s h mi am_pm :
  match_time s = Some (h, mi, am_pm) -> am_pm = "a"%char \/ am_pm = "p"%char.
Proof.
  unfold match_time.
  destruct (plus is_digit s) as [[h' s1]|]; [|discriminate]. cbn.
  destruct (lit ":" s1) as [s2|]; [|discriminate]. cbn.
  destruct (plus is_digit s2) as [[mi' s3]|]; [|discriminate]. cbn.
  destruct s3 as [|c s4]; [discriminate|].
  destruct (Ascii.eqb_spec c "a") as [->|Ha]; [intros [= _ _ <-]; left; reflexivity|].
  destruct (Ascii.eqb_spec c "p") as [->|Hp]; [intros [= _ _ <-]; right; reflexivity|].
  discriminate.
Qed.

(** X7: for a time on the 12-hour clock (hour 1 to 12), [parse_datetime]
    builds the date of the text with the hour of the day: 12 a.m. is hour 0,
    12 p.m. is hour 12, the other afternoon hours are twelve later. *)
Theorem parse_datetime_twelve_hour date_str time_str mon d y m h mi am_pm :
  match_date date_str = Some (mon, d, y) ->
  month_map !! mon = Some m ->
  match_time time_str = Some (h, mi, am_pm) ->
  1 <= int_of_digits h <= 12 ->
  parse_datetime date_str time_str
  = new_datetime (int_of_digits y) m (int_of_digits d)
                 (hour_of_day (int_of_digits h) am_pm) (int_of_digits mi).
Proof.
  intros Hdate Hmon Htime Hh. unfold parse_datetime, hour_of_day.
  rewrite Hdate, Hmon, Htime.
  destruct (match_time_meridiem _ _ _ _ Htime) as [-> | ->];
    repeat match goal with
           | |- context [Ascii.eqb ?a ?b] =>
               let v := eval vm_compute in (Ascii.eqb a b) in
               change (Ascii.eqb a b) with v
           end;
    destruct (Z.eqb_spec (int_of_digits h) 12) as [Heq|Hne]; cbn [negb andb];
    f_equal.
  - rewrite Heq. reflexivity.
  - rewrite Z.mod_small by lia. lia.
  - rewrite Heq. reflexivity.
  - rewrite Z.mod_small by lia. lia.
Qed.

(** * Properties of the aggregates (metrics.py, metrics_normalized.py,
      visualize_burden.py) *)

Lemma for_items_total {V W} (body : V -> result W) (d : gmap string V) :
  (forall v, exists w, body v = Ok w) ->
  exists out,
    for_items body d = Ok out
    /\ forall key, match d !! key with
                   | None => out !! key = None
                   | Some v => exists w, out !! key = Some w /\ body v = Ok w
                   end.
Proof.
  intros Hbody. unfold for_items.
  apply (map_fold_weak_ind
           (fun r m => exists out, r = Ok out
              /\ forall key, match m !! key with
                             | None => out !! key = None
                             | Some v => exists w, out !! key = Some w /\ body v = Ok w
                             end)).
  - exists ∅. split; [reflexivity|]. intros key. rewrite !lookup_empty. reflexivity.
  - intros i x m r Hfresh (out & -> & Hout).
    destruct (Hbody x) as [w Hw]. exists (<[i:=w]> out).
    split; [cbn [rbind]; rewrite Hw; reflexivity|].
    intros key. rewrite !lookup_insert.
    destruct (decide (i = key)) as [->|Hne]; [exists w; split; [reflexivity|exact Hw]|].
    apply Hout.
Qed.

Lemma for_items_lookup {V W} (body : V -> result W) (d : gmap string V) out key v w :
  for_items body d = Ok out -> d !! key = Some v -> body v = Ok w ->
  (forall v', exists w', body v' = Ok w') ->
  out !! key = Some w.
Proof.
  intros Hout Hv Hw Hbody.
  destruct (for_items_total body d Hbody) as (out' & Hout' & Hspec).
  assert (out' = out) as -> by congruence.
  specialize (Hspec key). rewrite Hv in Hspec.
  destruct Hspec as (w' & Hlook & Hw'). congruence.
Qed.

Lemma py_len_positive {A} (x : A) (l : list A) : (0 < py_len (x :: l))%Q.
Proof. unfold py_len, Qlt. simpl. lia. Qed.

Lemma average_burden_of_total schedule : exists w, average_burden_of schedule = Ok w.
Proof.
  destruct schedule as [s|]; [|eexists; reflexivity]. cbn [average_burden_of].
  destruct (omap game_mile_hours_burden s) as [|b bs]; [eexists; reflexivity|].
  cbn [length Nat.ltb Nat.leb]. rewrite truediv_positive by apply py_len_positive.
  eexists; reflexivity.
Qed.

Lemma total_burden_of_total schedule : exists w, total_burden_of schedule = Ok w.
Proof.
  destruct schedule as [s|]; [|eexists; reflexivity]. cbn [total_burden_of].
  destruct (_ <? _)%nat; eexists; reflexivity.
Qed.

Section Aggregates.

Context `{SortValues}.
Variable geodesic : coords -> coords -> Q.
Variable nba_stadiums : list stadium_row.
Variable regular_season_data : list season_row.
Variable stadium_distance_data : distance_frame.

(** X9: [get_team_schedule] on the batch returns a chain exactly for a team
    that plays in the season data and for which [schedulizer] returned that
    chain; a team that is absent and a team whose schedule failed both give
    [None]. *)
Theorem get_team_schedule_batch team_name chain :
  get_team_schedule
    (create_schedule_mapping geodesic nba_stadiums regular_season_data
                             stadium_distance_data) team_name = Some chain
  <-> (exists r, r ∈ regular_season_data
                 /\ (Visitor_Neutral r = team_name \/ Home_Neutral r = team_name))
      /\ schedulizer geodesic nba_stadiums regular_season_data stadium_distance_data
                     team_name = Ok chain.
Proof.
  rewrite <- all_teams_spec. unfold get_team_schedule, create_schedule_mapping.
  rewrite foldl_record_team_lookup.
  destruct (decide (team_name ∈ all_teams regular_season_data)) as [Hin|Hout].
  - unfold outcome.
    destruct (schedulizer _ _ _ _ _) as [c|e]; split.
    + intros [= ->]. split; [exact Hin | reflexivity].
    + intros [_ [= ->]]. reflexivity.
    + discriminate.
    + intros [_ [=]].
  - rewrite lookup_empty. split; [discriminate | intros [Hin _]; contradiction].
Qed.

(** X10: [calculate_total_burden] and [calculate_average_burden] return (they
    never raise) one entry per entry of the schedule mapping: [None] for a
    schedule that is [None] or has no record with a burden, otherwise the
    sum of the burdens, and for the average that sum divided by their
    number. *)
Theorem burden_total_and_average
        (schedule_mapping : gmap string (option (list game_dict))) :
  exists totals averages,
    calculate_total_burden geodesic nba_stadiums regular_season_data
                           stadium_distance_data (Some schedule_mapping) = Ok totals
    /\ calculate_average_burden geodesic nba_stadiums regular_season_data
                                stadium_distance_data (Some schedule_mapping)
       = Ok averages
    /\ forall team_name,
         match schedule_mapping !! team_name with
         | None => totals !! team_name = None /\ averages !! team_name = None
         | Some None =>
             totals !! team_name = Some None /\ averages !! team_name = Some None
         | Some (Some schedule) =>
             match omap game_mile_hours_burden schedule with
             | [] => totals !! team_name = Some None
                     /\ averages !! team_name = Some None
             | burdens =>
                 totals !! team_name = Some (Some (py_sum burdens))
                 /\ averages !! team_name
                    = Some (Some (py_sum burdens / py_len burdens)%Q)
             end
         end.
Proof.
  destruct (for_items_total total_burden_of schedule_mapping total_burden_of_total)
    as (totals & Htotals & Ht).
  destruct (for_items_total average_burden_of schedule_mapping average_burden_of_total)
    as (averages & Haverages & Ha).
  exists totals, averages. split; [exact Htotals|]. split; [exact Haverages|].
  intros team_name. specialize (Ht team_name). specialize (Ha team_name).
  destruct (schedule_mapping !! team_name) as [[s|]|]; [| |split; assumption].
  - destruct Ht as (t & Ht & Htv). destruct Ha as (a & Ha & Hav).
    cbn [total_burden_of average_burden_of] in Htv, Hav.
    destruct (omap game_mile_hours_burden s) as [|b bs] eqn:Hb.
    + injection Htv as <-. injection Hav as <-. split; assumption.
    + cbn [length Nat.ltb Nat.leb] in Htv, Hav.
      rewrite truediv_positive in Hav by apply py_len_positive.
      injection Htv as <-. injection Hav as <-. split; assumption.
  - destruct Ht as (t & Ht & [= <-]). destruct Ha as (a & Ha & [= <-]).
    split; assumption.
Qed.

Lemma omap_all_Some_length {A B} (f : A -> option B) (l : list A) :
  Forall (fun x => is_Some (f x)) l -> length (omap f l) = length l.
Proof.
  induction 1 as [|x l [y Hy] _ IH]; [reflexivity|].
  cbn [omap list_omap]. rewrite Hy. simpl. f_equal. exact IH.
Qed.

(** The shape of a chain: a first record without distance and burden, then
    records that all have a distance. *)
Lemma chain_shape team_name chain :
  schedulizer geodesic nba_stadiums regular_season_data stadium_distance_data
              team_name = Ok chain ->
  exists d0 rest,
    chain = d0 :: rest
    /\ travel_distance d0 = None
    /\ game_mile_hours_burden d0 = None
    /\ Forall (fun d => is_Some (travel_distance d)) rest
    /\ gameindex <$> chain = seq 1 (length chain).
Proof.
  intros Hrun. apply schedulizer_Ok in Hrun as (team_games & Hs & Hc).
  pose proof (game_list_length _ _ _ _ _ _ Hc) as Hlen.
  apply team_schedule_Ok in Hs as (_ & _ & _ & Hpos).
  destruct chain as [|d0 rest]; [simpl in Hlen; lia|].
  exists d0, rest. split; [reflexivity|].
  destruct (game_list_first _ _ _ _ _ _ d0 Hc eq_refl) as (row & _ & Hd0).
  split; [rewrite Hd0; reflexivity|]. split; [rewrite Hd0; reflexivity|]. split.
  - apply Forall_lookup. intros i d Hd.
    destruct (game_list_later _ _ _ _ _ _ i d Hc Hd)
      as (prev_row & row' & dist & _ & _ & _ & ->).
    eexists; reflexivity.
  - apply list_eq. intros i. rewrite list_lookup_fmap.
    destruct (Nat.lt_ge_cases i (length (d0 :: rest))) as [Hi|Hi].
    + rewrite (lookup_seq_lt _ _ _ Hi).
      destruct (lookup_lt_is_Some_2 team_games i) as [row' Hrow']; [lia|].
      destruct (chain_record _ _ _ _ _ _ _ _ Hc Hrow') as (d & Hd & _ & Hidx & _).
      rewrite Hd. simpl. f_equal. lia.
    + rewrite lookup_seq_ge by exact Hi.
      rewrite (lookup_ge_None_2 (d0 :: rest) i) by exact Hi. reflexivity.
Qed.

Lemma total_distance_of_total schedule :
  exists w, metrics_normalized.total_distance_of schedule = Ok w.
Proof.
  destruct schedule as [s|]; [|eexists; reflexivity].
  cbn [metrics_normalized.total_distance_of].
  destruct (_ <? _)%nat; eexists; reflexivity.
Qed.

(** X11: [calculate_total_distance] on the batch returns (it never raises) a
    total for every team of the season data with at least two games, the sum
    of the distances of its N-1 legs, and [None] for a team with a single
    game or a failed schedule. *)
Theorem total_distance_of_batch :
  exists totals,
    metrics_normalized.calculate_total_distance
      geodesic nba_stadiums regular_season_data stadium_distance_data None
    = Ok totals
    /\ forall team_name,
         team_name ∈ all_teams regular_season_data ->
         match schedulizer geodesic nba_stadiums regular_season_data
                           stadium_distance_data team_name with
         | Raise _ => totals !! team_name = Some None
         | Ok chain =>
             length (omap travel_distance chain) = (length chain - 1)%nat
             /\ (length chain = 1%nat -> totals !! team_name = Some None)
             /\ ((2 <= length chain)%nat ->
                 totals !! team_name
                 = Some (Some (py_sum (omap travel_distance chain))))
         end.
Proof.
  destruct (for_items_total metrics_normalized.total_distance_of
              (create_schedule_mapping geodesic nba_stadiums regular_season_data
                                       stadium_distance_data)
              total_distance_of_total) as (totals & Htotals & Hspec).
  exists totals. split; [exact Htotals|].
  intros team_name Hin. specialize (Hspec team_name).
  rewrite (mapping_lookup _ _ _ _ _ Hin) in Hspec. unfold outcome in Hspec.
  destruct (schedulizer _ _ _ _ _) as [chain|e] eqn:Hrun.
  - destruct Hspec as (w & Hw & Hbody).
    destruct (chain_shape _ _ Hrun) as (d0 & rest & -> & Hd0 & _ & Hrest & _).
    cbn [metrics_normalized.total_distance_of] in Hbody.
    assert (Hlen : length (omap travel_distance (d0 :: rest)) = length rest).
    { cbn [omap list_omap]. rewrite Hd0. apply omap_all_Some_length, Hrest. }
    rewrite Hlen in *. cbn [length].
    split; [lia|]. split.
    + intros Hone. destruct (Nat.ltb_spec 0 (length rest)) as [Hz|_]; [lia|].
      injection Hbody as <-. exact Hw.
    + intros Htwo. destruct (Nat.ltb_spec 0 (length rest)) as [_|Hz]; [|lia].
      injection Hbody as <-. exact Hw.
  - destruct Hspec as (w & Hw & [= <-]). exact Hw.
Qed.

End Aggregates.

Lemma cumulative_fold schedule game_numbers cumulative_burdens running_total :
  fold_left visualize_burden.cumulative_step schedule
            (game_numbers, cumulative_burdens, running_total)
  = ((game_numbers ++ (gameindex <$> schedule))%list,
     (cumulative_burdens
      ++ visualize_burden.running_totals running_total schedule)%list,
     fold_left Qplus (omap game_mile_hours_burden schedule) running_total).
Proof.
  revert game_numbers cumulative_burdens running_total.
  induction schedule as [|g s IH]; intros gn cb rt.
  - simpl. rewrite !app_nil_r. reflexivity.
  - cbn [fold_left visualize_burden.cumulative_step]. rewrite IH.
    rewrite fmap_cons, <- !app_assoc.
    cbn [visualize_burden.running_totals omap list_omap].
    destruct (game_mile_hours_burden g); reflexivity.
Qed.

Lemma running_totals_length rt schedule :
  length (visualize_burden.running_totals rt schedule) = length schedule.
Proof.
  revert rt. induction schedule as [|g s IH]; intros rt; [reflexivity|].
  simpl. f_equal. apply IH.
Qed.

Lemma running_totals_lookup rt schedule i :
  (i < length schedule)%nat ->
  visualize_burden.running_totals rt schedule !! i
  = Some (fold_left Qplus (omap game_mile_hours_burden (take (S i) schedule)) rt).
Proof.
  revert rt i. induction schedule as [|g s IH]; intros rt i Hi; [simpl in Hi; lia|].
  destruct i as [|i].
  - cbn [visualize_burden.running_totals take omap list_omap].
    rewrite take_0. destruct (game_mile_hours_burden g); reflexivity.
  - cbn [visualize_burden.running_totals]. rewrite lookup_cons.
    rewrite IH by (simpl in Hi; lia).
    change (take (S (S i)) (g :: s)) with (g :: take (S i) s).
    cbn [omap list_omap]. destruct (game_mile_hours_burden g); reflexivity.
Qed.

Lemma cumulative_burden_Some schedule :
  visualize_burden.calculate_cumulative_burden (Some schedule)
  = Some (gameindex <$> schedule, visualize_burden.running_totals 0 schedule).
Proof.
  unfold visualize_burden.calculate_cumulative_burden.
  rewrite cumulative_fold. reflexivity.
Qed.

(** X12: for a schedule, [calculate_cumulative_burden] returns the game
    indices of the records, in order, and as many cumulative values: the
    value at a position is the sum of the burdens of the records up to and
    including it, the missing burdens counting for nothing. *)
Theorem cumulative_burden_prefix_sums (schedule : list game_dict) :
  exists game_numbers cumulative_burdens,
    visualize_burden.calculate_cumulative_burden (Some schedule)
    = Some (game_numbers, cumulative_burdens)
    /\ game_numbers = gameindex <$> schedule
    /\ length cumulative_burdens = length schedule
    /\ forall i, (i < length schedule)%nat ->
         cumulative_burdens !! i
         = Some (py_sum (omap game_mile_hours_burden (take (S i) schedule))).
Proof.
  eexists _, _. split; [apply cumulative_burden_Some|].
  split; [reflexivity|]. split; [apply running_totals_length|].
  intros i Hi. apply running_totals_lookup, Hi.
Qed.

Lemma running_totals_last rt g schedule :
  last (visualize_burden.running_totals rt (g :: schedule))
  = Some (fold_left Qplus (omap game_mile_hours_burden (g :: schedule)) rt).
Proof.
  rewrite last_lookup, running_totals_length.
  rewrite running_totals_lookup by (simpl; lia).
  rewrite take_ge by (simpl; lia). reflexivity.
Qed.

Lemma running_totals_monotone rt schedule i x y :
  Forall (fun d => forall b, game_mile_hours_burden d = Some b -> (0 <= b)%Q) schedule ->
  (rt :: visualize_burden.running_totals rt schedule) !! i = Some x ->
  (rt :: visualize_burden.running_totals rt schedule) !! S i = Some y ->
  (x <= y)%Q.
Proof.
  intros Hall. revert rt i. induction Hall as [|g s Hg _ IH]; intros rt i Hx Hy.
  - destruct i; discriminate.
  - cbn [visualize_burden.running_totals] in Hx, Hy. destruct i as [|i].
    + injection Hx as <-. rewrite lookup_cons in Hy. cbn in Hy. injection Hy as <-.
      destruct (game_mile_hours_burden g) as [b|]; [|apply Qle_refl].
      apply Qle_trans with (rt + 0)%Q; [rewrite Qplus_0_r; apply Qle_refl|].
      apply Qplus_le_r, Hg. reflexivity.
    + rewrite lookup_cons in Hx. rewrite lookup_cons in Hy.
      eapply IH; eassumption.
Qed.

Section Curve.

Context `{SortValues}.
Variable geodesic : coords -> coords -> Q.
Variable nba_stadiums : list stadium_row.
Variable regular_season_data : list season_row.
Variable stadium_distance_data : distance_frame.

(** X13: the cumulative values of a team end at the team's total burden (in
    exact arithmetic): the last value is the total that
    [calculate_total_burden] stores for the team, and 0 when that total is
    [None]. *)
Theorem cumulative_ends_at_total
        (schedule_mapping : gmap string (option (list game_dict)))
        team_name game schedule totals :
  schedule_mapping !! team_name = Some (Some (game :: schedule)) ->
  calculate_total_burden geodesic nba_stadiums regular_season_data
                         stadium_distance_data (Some schedule_mapping) = Ok totals ->
  exists game_numbers cumulative_burdens,
    visualize_burden.calculate_cumulative_burden
      (get_team_schedule schedule_mapping team_name)
    = Some (game_numbers, cumulative_burdens)
    /\ match totals !! team_name with
       | Some (Some total) => last cumulative_burdens = Some total
       | _ => last cumulative_burdens = Some 0%Q
       end.
Proof.
  intros Hteam Htotals. unfold get_team_schedule. rewrite Hteam.
  eexists _, _. split; [apply cumulative_burden_Some|].
  rewrite running_totals_last.
  destruct (total_burden_of_total (Some (game :: schedule))) as [w Hw].
  rewrite (for_items_lookup _ _ _ _ _ _ Htotals Hteam Hw total_burden_of_total).
  cbn [total_burden_of] in Hw.
  destruct (omap game_mile_hours_burden (game :: schedule)) as [|b bs];
    cbn [length Nat.ltb Nat.leb] in Hw; injection Hw as <-; reflexivity.
Qed.

(** X14: when the geodesic and the cells of the distance matrix are not
    negative, the curve of a chain runs over the game numbers 1..N, starts
    at 0 and never decreases. *)
Theorem cumulative_curve team_name chain :
  (forall a b, (0 <= geodesic a b)%Q) ->
  nonnegative_matrix stadium_distance_data = true ->
  schedulizer geodesic nba_stadiums regular_season_data stadium_distance_data
              team_name = Ok chain ->
  exists game_numbers cumulative_burdens,
    visualize_burden.calculate_cumulative_burden (Some chain)
    = Some (game_numbers, cumulative_burdens)
    /\ game_numbers = seq 1 (length chain)
    /\ cumulative_burdens !! 0%nat = Some 0%Q
    /\ forall i x y,
         cumulative_burdens !! i = Some x ->
         cumulative_burdens !! S i = Some y ->
         (x <= y)%Q.
Proof.
  intros Hgeo Hmatrix Hrun.
  eexists _, _. split; [apply cumulative_burden_Some|].
  destruct (chain_shape _ _ _ _ _ _ Hrun) as (d0 & rest & -> & _ & Hd0 & _ & Hidx).
  split; [exact Hidx|].
  cbn [visualize_burden.running_totals]. rewrite Hd0.
  split; [reflexivity|].
  intros i x y. apply running_totals_monotone.
  apply Forall_forall. intros d Hd.
  apply (record_nonnegative _ _ _ _ _ _ d Hgeo Hmatrix Hrun). right. exact Hd.
Qed.

End Curve.

(** * Properties of the normalisation (metrics_normalized.py, analysis.py) *)

Lemma for_items_with_key_total {V W} (body : string -> V -> result W)
      (d : gmap string V) :
  (forall key v, exists w, body key v = Ok w) ->
  exists out,
    metrics_normalized.for_items_with_key body d = Ok out
    /\ forall key, match d !! key with
                   | None => out !! key = None
                   | Some v => exists w, out !! key = Some w /\ body key v = Ok w
                   end.
Proof.
  intros Hbody. unfold metrics_normalized.for_items_with_key.
  apply (map_fold_weak_ind
           (fun r m => exists out, r = Ok out
              /\ forall key, match m !! key with
                             | None => out !! key = None
                             | Some v => exists w, out !! key = Some w
                                                   /\ body key v = Ok w
                             end)).
  - exists ∅. split; [reflexivity|]. intros key. rewrite !lookup_empty. reflexivity.
  - intros i x m r Hfresh (out & -> & Hout).
    destruct (Hbody i x) as [w Hw]. exists (<[i:=w]> out).
    split; [cbn [rbind]; rewrite Hw; reflexivity|].
    intros key. rewrite !lookup_insert.
    destruct (decide (i = key)) as [->|Hne]; [exists w; split; [reflexivity|exact Hw]|].
    apply Hout.
Qed.

Lemma normalized_of_total road_trips team total :
  exists w, metrics_normalized.normalized_of road_trips team total = Ok w.
Proof.
  unfold metrics_normalized.normalized_of. destruct total as [t|]; [|eexists; reflexivity].
  destruct (match road_trips !! team with Some a => Some a | None => _ end) as [a|];
    [|eexists; reflexivity].
  destruct (Qpositive a) eqn:Hpos; [|eexists; reflexivity].
  apply Qpositive_spec in Hpos. rewrite truediv_positive by exact Hpos.
  eexists; reflexivity.
Qed.

Lemma normalize_idempotent x :
  metrics_normalized.normalize_team_name (metrics_normalized.normalize_team_name x)
  = metrics_normalized.normalize_team_name x.
Proof.
  unfold metrics_normalized.normalize_team_name.
  destruct (String.eqb_spec x "Sacramento Kings") as [->|Hne]; [reflexivity|].
  rewrite (proj2 (String.eqb_neq _ _) Hne). reflexivity.
Qed.

Lemma writes_normalized row key :
  writes row key ->
  metrics_normalized.normalize_team_name (analysis.bty_team row)
  = metrics_normalized.normalize_team_name key.
Proof.
  intros [<- | <-]; [reflexivity|]. symmetry. apply normalize_idempotent.
Qed.

Lemma avg_road_trip_map_snoc bty row key :
  metrics_normalized.avg_road_trip_map (bty ++ [row]) !! key
  = if decide (writes row key)
    then Some (analysis.average_yearly_road_trip row)
    else metrics_normalized.avg_road_trip_map bty !! key.
Proof.
  unfold metrics_normalized.avg_road_trip_map. rewrite foldl_snoc.
  fold (metrics_normalized.avg_road_trip_map bty). cbn zeta. unfold writes.
  rewrite !lookup_insert.
  destruct (decide (metrics_normalized.normalize_team_name (analysis.bty_team row) = key)).
  - rewrite decide_True by (right; assumption). reflexivity.
  - destruct (decide (analysis.bty_team row = key)).
    + rewrite decide_True by (left; assumption). reflexivity.
    + rewrite decide_False by (intros [?|?]; contradiction). reflexivity.
Qed.

Lemma avg_road_trip_map_none bty key :
  (forall row, row ∈ bty -> ~ writes row key) ->
  metrics_normalized.avg_road_trip_map bty !! key = None.
Proof.
  induction bty as [|row bty IH] using rev_ind; intros Hnone; [apply lookup_empty|].
  rewrite avg_road_trip_map_snoc, decide_False.
  - apply IH. intros r Hr. apply Hnone, elem_of_app. left. exact Hr.
  - apply Hnone, elem_of_app. right. left.
Qed.

Lemma avg_road_trip_map_writer bty key a :
  metrics_normalized.avg_road_trip_map bty !! key = Some a ->
  exists row, row ∈ bty /\ writes row key.
Proof.
  induction bty as [|r0 bty IH] using rev_ind.
  { change (metrics_normalized.avg_road_trip_map []) with (∅ : gmap string Q).
    rewrite lookup_empty. discriminate. }
  rewrite avg_road_trip_map_snoc.
  destruct (decide (writes r0 key)) as [Hw|_].
  - intros _. exists r0. split; [apply elem_of_app; right; left | exact Hw].
  - intros Hlook. destruct (IH Hlook) as (row & Hin & Hw).
    exists row. split; [apply elem_of_app; left; exact Hin | exact Hw].
Qed.

Lemma avg_road_trip_map_own bty row key :
  NoDup ((fun r => metrics_normalized.normalize_team_name (analysis.bty_team r))
           <$> bty) ->
  row ∈ bty -> writes row key ->
  metrics_normalized.avg_road_trip_map bty !! key
  = Some (analysis.average_yearly_road_trip row).
Proof.
  induction bty as [|r0 bty IH] using rev_ind; intros Hdup Hin Hw; [inversion Hin|].
  rewrite fmap_app in Hdup. apply NoDup_app in Hdup as (Hdup & Hfresh & _).
  rewrite avg_road_trip_map_snoc.
  apply elem_of_app in Hin as [Hin|Hin].
  - rewrite decide_False; [apply IH; assumption|].
    intros Hw0. apply (Hfresh (metrics_normalized.normalize_team_name
                                 (analysis.bty_team row))).
    + apply list_elem_of_fmap. exists row. split; [reflexivity|exact Hin].
    + rewrite (writes_normalized _ _ Hw), <- (writes_normalized _ _ Hw0). left.
  - apply list_elem_of_singleton in Hin as ->.
    rewrite decide_True by exact Hw. reflexivity.
Qed.

Lemma normalize_totals_entries `{SortValues} bty totals :
  NoDup ((fun r => metrics_normalized.normalize_team_name (analysis.bty_team r))
           <$> bty) ->
  exists normalized,
    metrics_normalized.for_items_with_key
      (metrics_normalized.normalized_of (metrics_normalized.avg_road_trip_map bty))
      totals = Ok normalized
    /\ forall team, normalized_entry bty totals normalized team.
Proof.
  intros Hdup.
  destruct (for_items_with_key_total
              (metrics_normalized.normalized_of (metrics_normalized.avg_road_trip_map bty))
              totals (normalized_of_total _)) as (normalized & Hn & Hspec).
  exists normalized. split; [exact Hn|].
  intros team. unfold normalized_entry. specialize (Hspec team).
  destruct (totals !! team) as [[total|]|]; [| |exact Hspec].
  - destruct Hspec as (w & Hw & Hbody). rewrite Hw. clear Hw.
    unfold metrics_normalized.normalized_of in Hbody. split.
    + intros row Hin Hname.
      assert (Hfound : match metrics_normalized.avg_road_trip_map bty !! team with
                       | Some a => Some a
                       | None => metrics_normalized.avg_road_trip_map bty
                                   !! metrics_normalized.normalize_team_name team
                       end = Some (analysis.average_yearly_road_trip row)).
      { destruct (metrics_normalized.avg_road_trip_map bty !! team) as [a|] eqn:Hteam.
        - destruct (decide (writes row team)) as [Hw|Hnw].
          + rewrite (avg_road_trip_map_own _ _ _ Hdup Hin Hw) in Hteam. congruence.
          + exfalso.
            destruct (avg_road_trip_map_writer _ _ _ Hteam) as (r & Hr & Hwr).
            assert (r = row) as ->; [|contradiction].
            apply writes_normalized in Hwr.
            apply list_elem_of_lookup in Hr as [i Hi].
            apply list_elem_of_lookup in Hin as [j Hj].
            assert (i = j) as ->; [|congruence].
            eapply (NoDup_lookup _ i j); [exact Hdup| |];
              rewrite list_lookup_fmap; [rewrite Hi|rewrite Hj]; simpl;
              f_equal; congruence.
        - apply (avg_road_trip_map_own _ _ _ Hdup Hin). right. exact Hname. }
      rewrite Hfound in Hbody.
      destruct (Qpositive (analysis.average_yearly_road_trip row)) eqn:Hpos.
      * pose proof Hpos as Hlt. apply Qpositive_spec in Hlt.
        rewrite truediv_positive in Hbody by exact Hlt.
        injection Hbody as <-. reflexivity.
      * injection Hbody as <-. reflexivity.
    + intros Hnone.
      rewrite !avg_road_trip_map_none in Hbody.
      * injection Hbody as <-. reflexivity.
      * intros r Hr Hwr. apply (Hnone r Hr).
        rewrite (writes_normalized _ _ Hwr). apply normalize_idempotent.
      * intros r Hr Hwr. apply (Hnone r Hr). apply writes_normalized, Hwr.
  - destruct Hspec as (w & Hw & [= <-]). exact Hw.
Qed.

(** X15: when [bty_dataframe] has one row per team (up to the spelling of
    Sacramento), the two normalised functions return (they never raise), for
    every team of the schedule mapping, the team's total divided by the
    yearly road trip of the team's row, and [None] when the total is [None],
    the team has no row, or the road trip is not positive. *)
Theorem normalized_by_team_row `{SortValues}
        (geodesic : coords -> coords -> Q) (nba_stadiums : list stadium_row)
        (regular_season_data : list season_row) (stadium_distance_data : distance_frame)
        (stadium_distance_csv : list (list string)) (float : string -> result Q)
        (schedule_mapping : gmap string (option (list game_dict)))
        (bty_dataframe : list analysis.bty_row) :
  NoDup ((fun r => metrics_normalized.normalize_team_name (analysis.bty_team r))
           <$> bty_dataframe) ->
  exists distances burdens normalized_distances normalized_burdens,
    metrics_normalized.calculate_total_distance
      geodesic nba_stadiums regular_season_data stadium_distance_data
      (Some schedule_mapping) = Ok distances
    /\ calculate_total_burden
         geodesic nba_stadiums regular_season_data stadium_distance_data
         (Some schedule_mapping) = Ok burdens
    /\ metrics_normalized.calculate_normalized_total_distance
         geodesic nba_stadiums regular_season_data stadium_distance_data
         stadium_distance_csv float (Some schedule_mapping) (Some bty_dataframe)
       = analysis.Returns normalized_distances
    /\ metrics_normalized.calculate_normalized_total_burden
         geodesic nba_stadiums regular_season_data stadium_distance_data
         stadium_distance_csv float (Some schedule_mapping) (Some bty_dataframe)
       = analysis.Returns normalized_burdens
    /\ forall team,
         normalized_entry bty_dataframe distances normalized_distances team
         /\ normalized_entry bty_dataframe burdens normalized_burdens team.
Proof.
  intros Hdup.
  destruct (for_items_total metrics_normalized.total_distance_of schedule_mapping
              total_distance_of_total) as (distances & Hd & _).
  destruct (for_items_total total_burden_of schedule_mapping total_burden_of_total)
    as (burdens & Hb & _).
  destruct (normalize_totals_entries bty_dataframe distances Hdup) as (nd & Hnd & Hsd).
  destruct (normalize_totals_entries bty_dataframe burdens Hdup) as (nb & Hnb & Hsb).
  exists distances, burdens, nd, nb.
  split; [exact Hd|]. split; [exact Hb|]. split.
  { unfold metrics_normalized.calculate_normalized_total_distance,
      metrics_normalized.normalize_totals, metrics_normalized.calculate_total_distance.
    cbn [mapping_or_new]. rewrite Hd, Hnd. reflexivity. }
  split.
  { unfold metrics_normalized.calculate_normalized_total_burden,
      metrics_normalized.normalize_totals, calculate_total_burden.
    cbn [mapping_or_new]. rewrite Hb, Hnb. reflexivity. }
  intros team. split; [apply Hsd | apply Hsb].
Qed.

Lemma fold_left_Qplus_positive (l : list Q) (acc : Q) :
  (0 < acc)%Q -> Forall (fun x => (0 < x)%Q) l -> (0 < fold_left Qplus l acc)%Q.
Proof.
  intros Hacc Hall. revert acc Hacc.
  induction Hall as [|x l Hx _ IH]; intros acc Hacc; [exact Hacc|].
  cbn [fold_left]. apply IH.
  apply Qlt_trans with (acc + 0)%Q; [rewrite Qplus_0_r; exact Hacc|].
  apply Qplus_lt_r. exact Hx.
Qed.

Lemma py_sum_positive (x : Q) (l : list Q) :
  Forall (fun y => (0 < y)%Q) (x :: l) -> (0 < py_sum (x :: l))%Q.
Proof.
  intros Hall. inversion Hall as [|? ? Hx Hl]; subst.
  unfold py_sum. cbn [fold_left]. apply fold_left_Qplus_positive; [|exact Hl].
  rewrite Qplus_0_l. exact Hx.
Qed.

Lemma dict_set_keys d key value :
  NoDup d.*1 -> NoDup (analysis.dict_set d key value).*1
  /\ forall k, k ∈ (analysis.dict_set d key value).*1 <-> k = key \/ k ∈ d.*1.
Proof.
  induction d as [|[k v] d IH]; intros Hdup.
  - split; [repeat constructor; inversion 1|].
    intros k0. cbn. rewrite list_elem_of_singleton, elem_of_nil. tauto.
  - cbn [analysis.dict_set]. apply NoDup_cons in Hdup as [Hfresh Hdup].
    destruct (String.eqb_spec k key) as [->|Hne].
    + split; [apply NoDup_cons; split; assumption|].
      intros k0. cbn. rewrite !elem_of_cons. tauto.
    + destruct (IH Hdup) as [IHdup IHin]. split.
      * cbn. apply NoDup_cons. split; [|exact IHdup].
        rewrite IHin. intros [->|Hin]; [congruence|contradiction].
      * intros k0. cbn. rewrite !elem_of_cons, IHin. tauto.
Qed.

Lemma dict_set_Forall (P : string * Q -> Prop) d key value :
  Forall P d -> P (key, value) ->
  Forall P (analysis.dict_set d key value).
Proof.
  intros Hall Hnew. induction Hall as [|[k v] d Hkv Hd IH].
  - repeat constructor. exact Hnew.
  - cbn [analysis.dict_set]. destruct (String.eqb_spec k key) as [->|Hne].
    + constructor; [exact Hnew | assumption].
    + constructor; [exact Hkv | exact IH].
Qed.

Section AnalysisFacts.

Variable float : string -> result Q.

Lemma row_average_positive row key value :
  forallb (fun field => match float field with
                        | Ok x => Qle_bool 0 x
                        | Raise _ => true
                        end) row = true ->
  analysis.row_average float row = Ok (Some (key, value)) ->
  key <> "" /\ (0 < value)%Q.
Proof.
  intros Hnn. destruct row as [|team_name fields]; [discriminate|].
  cbn [analysis.row_average].
  destruct (String.eqb_spec team_name "") as [->|Hname]; [discriminate|].
  destruct (for_each float _) as [distances|e] eqn:Hd; cbn [rbind]; [|discriminate].
  set (others := List.filter (fun d => negb (Qeq_bool d 0)) distances).
  assert (Hpos : Forall (fun x => (0 < x)%Q) others).
  { apply Forall_forall. intros x Hx. apply list_elem_of_In in Hx.
    apply filter_In in Hx as [Hx Hnz]. apply list_elem_of_In in Hx.
    apply for_each_Ok in Hd.
    apply list_elem_of_lookup in Hx as [i Hi].
    destruct (Forall2_lookup_r _ _ _ _ _ Hd Hi) as (field & Hfield & Hfloat).
    apply list_elem_of_lookup_2, list_elem_of_filter in Hfield as [_ Hfield].
    rewrite forallb_forall in Hnn.
    specialize (Hnn field). rewrite Hfloat in Hnn.
    assert (Hle : (0 <= x)%Q).
    { apply Qle_bool_iff, Hnn. right. apply list_elem_of_In. exact Hfield. }
    apply Qle_lt_or_eq in Hle as [Hlt|Heq]; [exact Hlt|].
    apply negb_true_iff in Hnz. apply Qeq_bool_neq in Hnz.
    exfalso. apply Hnz. symmetry. exact Heq. }
  destruct others as [|x others]; cbn [length Nat.ltb Nat.leb]; [discriminate|].
  rewrite truediv_positive by apply py_len_positive. intros [= <- <-].
  split; [exact Hname|].
  apply Qlt_shift_div_l; [apply py_len_positive|].
  rewrite Qmult_0_l. apply py_sum_positive, Hpos.
Qed.

Lemma average_rows_positive rows d out :
  analysis.nonnegative_csv float rows = true ->
  NoDup d.*1 -> Forall (fun kv => kv.1 <> "" /\ (0 < kv.2)%Q) d ->
  analysis.average_rows float rows d = Ok out ->
  NoDup out.*1 /\ Forall (fun kv => kv.1 <> "" /\ (0 < kv.2)%Q) out.
Proof.
  revert d. induction rows as [|row rows IH]; intros d Hnn Hdup Hall.
  - intros [= <-]. split; assumption.
  - cbn [analysis.average_rows].
    unfold analysis.nonnegative_csv in Hnn. cbn [forallb] in Hnn.
    apply andb_true_iff in Hnn as [Hrow Hrows].
    destruct (analysis.row_average float row) as [[[key value]|]|e] eqn:Hr;
      cbn [rbind]; [| |discriminate].
    + destruct (row_average_positive _ _ _ Hrow Hr) as [Hkey Hvalue].
      apply IH; [exact Hrows | apply dict_set_keys; exact Hdup |].
      apply dict_set_Forall; [exact Hall | split; assumption].
    + apply IH; assumption.
Qed.

(** X16: when no field of the matrix file is a negative number, every row of
    the frame [create_BTY_dataframe] returns has a non-empty team name that
    no other row has, a positive average distance, and 41 times that as its
    yearly road trip, which is positive too (so that the guard of the
    normalisation passes). *)
Theorem bty_rows_positive (csv_file : list (list string)) bty :
  analysis.nonnegative_csv float csv_file = true ->
  analysis.create_BTY_dataframe float csv_file = analysis.Returns bty ->
  NoDup (analysis.bty_team <$> bty)
  /\ Forall (fun row =>
               analysis.bty_team row <> ""
               /\ (0 < analysis.average_distance row)%Q
               /\ analysis.average_yearly_road_trip row
                  = (analysis.average_distance row * 41)%Q
               /\ Qpositive (analysis.average_yearly_road_trip row) = true) bty.
Proof.
  intros Hnn. unfold analysis.create_BTY_dataframe, analysis.calculate_average_distances.
  destruct csv_file as [|header rows]; [discriminate|].
  destruct (analysis.average_rows float rows []) as [d|e] eqn:Hd; [|discriminate].
  intros [= <-].
  unfold analysis.nonnegative_csv in Hnn. cbn [forallb] in Hnn.
  apply andb_true_iff in Hnn as [_ Hrows].
  destruct (average_rows_positive rows [] d Hrows) as [Hdup Hall];
    [constructor | constructor | exact Hd |].
  split.
  - clear -Hdup. induction d as [|[k v] d IH]; [constructor|].
    cbn in *. apply NoDup_cons in Hdup as [Hfresh Hdup].
    apply NoDup_cons. split; [|apply IH; exact Hdup].
    intros Hin. apply Hfresh. clear -Hin.
    induction d as [|[k' v'] d IH]; [inversion Hin|].
    cbn in *. apply elem_of_cons in Hin as [->|Hin]; [left | right; apply IH, Hin].
  - clear -Hall. induction Hall as [|[k v] d [Hk Hv] _ IH]; [constructor|].
    cbn [map]. constructor; [|exact IH]. cbn.
    split; [exact Hk|]. split; [exact Hv|]. split; [reflexivity|].
    apply Qpositive_spec, Qmult_lt_0_compat; [exact Hv | reflexivity].
Qed.

End AnalysisFacts.

Lemma average_rows_app float good rest d0 :
  analysis.average_rows float (good ++ rest)%list d0
  = let* d := analysis.average_rows float good d0 in
    analysis.average_rows float rest d.
Proof.
  revert d0. induction good as [|row good IH]; intros d0; [reflexivity|].
  cbn [app analysis.average_rows].
  destruct (analysis.row_average float row) as [entry|e]; cbn [rbind]; [|reflexivity].
  apply IH.
Qed.

(** X17: the first field of the matrix file that [float] rejects, in a row
    with a name after rows that were read, ends [calculate_average_distances]
    and [create_BTY_dataframe] with the exception of [float], whatever
    follows; the normalised functions called without a frame raise it too,
    though their totals were computed. A file without a header row raises
    [StopIteration]. *)
Theorem unreadable_field_aborts `{SortValues}
        (geodesic : coords -> coords -> Q) (nba_stadiums : list stadium_row)
        (regular_season_data : list season_row) (stadium_distance_data : distance_frame)
        (float : string -> result Q)
        (schedule_mapping : gmap string (option (list game_dict)))
        (header : list string) (good : list (list string)) (team_name : string)
        (fields : list string) (rest : list (list string))
        (read : list (string * Q)) (ok : list string) (bad : string)
        (more : list string) (e : exn) :
  analysis.average_rows float good [] = Ok read ->
  team_name <> "" ->
  filter (fun dist => dist <> "") fields = (ok ++ bad :: more)%list ->
  Forall (fun field => exists x, float field = Ok x) ok ->
  float bad = Raise e ->
  let csv_file := header :: (good ++ (team_name :: fields) :: rest)%list in
  analysis.calculate_average_distances float csv_file
  = analysis.Raises (analysis.Builtin e)
  /\ analysis.create_BTY_dataframe float csv_file
     = analysis.Raises (analysis.Builtin e)
  /\ metrics_normalized.calculate_normalized_total_distance
       geodesic nba_stadiums regular_season_data stadium_distance_data
       csv_file float (Some schedule_mapping) None
     = analysis.Raises (analysis.Builtin e)
  /\ metrics_normalized.calculate_normalized_total_burden
       geodesic nba_stadiums regular_season_data stadium_distance_data
       csv_file float (Some schedule_mapping) None
     = analysis.Raises (analysis.Builtin e)
  /\ analysis.create_BTY_dataframe float [] = analysis.Raises analysis.StopIteration.
Proof.
  intros Hgood Hname Hfields Hok Hbad csv_file.
  assert (Hrow : analysis.row_average float (team_name :: fields) = Raise e).
  { cbn [analysis.row_average].
    destruct (String.eqb_spec team_name "") as [->|_]; [congruence|].
    rewrite Hfields, (for_each_first_failure float ok bad more e Hok Hbad).
    reflexivity. }
  assert (Hcalc : analysis.calculate_average_distances float csv_file
                  = analysis.Raises (analysis.Builtin e)).
  { unfold csv_file, analysis.calculate_average_distances.
    rewrite average_rows_app, Hgood. cbn [rbind analysis.average_rows].
    rewrite Hrow. reflexivity. }
  assert (Hbty : analysis.create_BTY_dataframe float csv_file
                 = analysis.Raises (analysis.Builtin e)).
  { unfold analysis.create_BTY_dataframe. rewrite Hcalc. reflexivity. }
  split; [exact Hcalc|]. split; [exact Hbty|].
  destruct (for_items_total metrics_normalized.total_distance_of schedule_mapping
              total_distance_of_total) as (distances & Hd & _).
  destruct (for_items_total total_burden_of schedule_mapping total_burden_of_total)
    as (burdens & Hb & _).
  split.
  { unfold metrics_normalized.calculate_normalized_total_distance,
      metrics_normalized.normalize_totals, metrics_normalized.calculate_total_distance.
    cbn [mapping_or_new]. rewrite Hd, Hbty. reflexivity. }
  split; [|reflexivity].
  unfold metrics_normalized.calculate_normalized_total_burden,
    metrics_normalized.normalize_totals, calculate_total_burden.
  cbn [mapping_or_new]. rewrite Hb, Hbty. reflexivity.
Qed.

(** ** Scanning text *)

Lemma span_spec (p : ascii -> bool) (s a b : string) :
  span p s = (a, b) ->
  s = a ++ b /\ html_reader.all_chars p a = true /\ html_reader.stops p b.
Proof.
  revert a b. induction s as [|c s IH]; intros a b; cbn [span].
  - intros [= <- <-]. repeat split.
  - destruct (p c) eqn:Hc.
    + destruct (span p s) as [a' b'] eqn:Hs. intros [= <- <-].
      destruct (IH a' b' eq_refl) as (-> & Ha & Hb).
      cbn [html_reader.all_chars]. rewrite Hc, Ha. repeat split. exact Hb.
    + intros [= <- <-]. repeat split. exact Hc.
Qed.

Lemma span_app (p : ascii -> bool) (a r : string) :
  html_reader.all_chars p a = true -> html_reader.stops p r ->
  span p (a ++ r) = (a, r).
Proof.
  intros Ha Hr. induction a as [|c a IH].
  - change (span p r = ("", r)).
    destruct r as [|c r]; [reflexivity|]. cbn [span]. cbn in Hr. rewrite Hr. reflexivity.
  - cbn [html_reader.all_chars] in Ha. apply andb_true_iff in Ha as [Hc Ha].
    change (span p (String c (a ++ r)) = (String c a, r)).
    cbn [span]. rewrite Hc, (IH Ha). reflexivity.
Qed.

Lemma plus_spec (p : ascii -> bool) (s a b : string) :
  plus p s = Some (a, b) ->
  s = a ++ b /\ a <> "" /\ html_reader.all_chars p a = true /\ html_reader.stops p b.
Proof.
  unfold plus. destruct (span p s) as [a' b'] eqn:Hs.
  destruct (span_spec p s a' b' Hs) as (Heq & Ha & Hb).
  destruct a' as [|c a']; [discriminate|]. intros [= <- <-].
  repeat split; [exact Heq | discriminate | exact Ha | exact Hb].
Qed.

Lemma plus_app (p : ascii -> bool) (a r : string) :
  a <> "" -> html_reader.all_chars p a = true -> html_reader.stops p r ->
  plus p (a ++ r) = Some (a, r).
Proof.
  intros Hne Ha Hr. unfold plus. rewrite (span_app p a r Ha Hr).
  destruct a; [congruence | reflexivity].
Qed.

Lemma stops_app (p q : ascii -> bool) (a r : string) :
  (forall c, q c = true -> p c = false) ->
  a <> "" -> html_reader.all_chars q a = true ->
  html_reader.stops p (a ++ r).
Proof.
  intros Hpq Hne Ha. destruct a as [|c a]; [congruence|].
  cbn [html_reader.all_chars] in Ha. apply andb_true_iff in Ha as [Hc _].
  cbn. apply Hpq, Hc.
Qed.

Lemma ascii_cases (P : ascii -> Prop) :
  (forall b0 b1 b2 b3 b4 b5 b6 b7, P (Ascii b0 b1 b2 b3 b4 b5 b6 b7)) ->
  forall c, P c.
Proof. intros HP [b0 b1 b2 b3 b4 b5 b6 b7]. apply HP. Qed.

Ltac by_ascii_cases :=
  let c := fresh "c" in
  intros c; pattern c; apply ascii_cases;
  intros [] [] [] [] [] [] [] []; vm_compute; congruence.

Lemma word_not_space c : is_word c = true -> is_space c = false.
Proof. revert c. by_ascii_cases. Qed.

Lemma digit_not_space c : is_digit c = true -> is_space c = false.
Proof. revert c. by_ascii_cases. Qed.

Lemma upper_char_meridiem c :
  Ascii.eqb (html_reader.upper_char c) "a" || Ascii.eqb (html_reader.upper_char c) "p"
  = false.
Proof. revert c. by_ascii_cases. Qed.

(** ** Decimal numerals *)

Lemma digits_of_uint (d : Decimal.uint) :
  html_reader.all_chars is_digit (NilEmpty.string_of_uint d) = true.
Proof. induction d; cbn [NilEmpty.string_of_uint html_reader.all_chars]; try rewrite IHd; reflexivity. Qed.

Lemma digits_of_str (n : Z) :
  0 <= n ->
  html_reader.str n <> "" /\ html_reader.all_chars is_digit (html_reader.str n) = true.
Proof.
  intros Hn. unfold html_reader.str. destruct n as [|p|p]; [split; [discriminate|reflexivity]| |lia].
  cbn [Z.to_int NilZero.string_of_int]. unfold NilZero.string_of_uint.
  destruct (Pos.to_uint p) eqn:Hp;
    [split; [discriminate|reflexivity] | ..];
    (split; [discriminate | rewrite <- Hp at 1; apply digits_of_uint]).
Qed.

Ltac digit_value :=
  repeat match goal with
         | |- context [Z.of_nat (nat_of_ascii ?c - 48)] =>
             let v := eval vm_compute in (Z.of_nat (nat_of_ascii c - 48)) in
             change (Z.of_nat (nat_of_ascii c - 48)) with v
         end.

Lemma int_of_uint_acc (d : Decimal.uint) (acc : positive) :
  fold_left (fun acc c => acc * 10 + Z.of_nat (nat_of_ascii c - 48))
            (list_ascii_of_string (NilEmpty.string_of_uint d)) (Z.pos acc)
  = Z.pos (Pos.of_uint_acc d acc).
Proof.
  revert acc.
  induction d; intros acc;
    cbn [NilEmpty.string_of_uint list_ascii_of_string fold_left Pos.of_uint_acc];
    [reflexivity | ..];
    digit_value; rewrite <- IHd; f_equal; lia.
Qed.

Lemma int_of_uint (d : Decimal.uint) :
  int_of_digits (NilEmpty.string_of_uint d) = Z.of_N (Pos.of_uint d).
Proof.
  unfold int_of_digits.
  induction d;
    cbn [NilEmpty.string_of_uint list_ascii_of_string fold_left Pos.of_uint];
    [reflexivity | exact IHd | ..];
    digit_value;
    match goal with
    | |- fold_left _ _ (0 * 10 + ?k) = _ =>
        change (0 * 10 + k) with k; rewrite int_of_uint_acc; reflexivity
    end.
Qed.

Lemma int_of_str (n : Z) : 0 <= n -> int_of_digits (html_reader.str n) = n.
Proof.
  intros Hn. unfold html_reader.str. destruct n as [|p|p]; [reflexivity| |lia].
  cbn [Z.to_int NilZero.string_of_int]. unfold NilZero.string_of_uint.
  pose proof (DecimalPos.Unsigned.of_to p) as Hp.
  destruct (Pos.to_uint p) eqn:Hd; [discriminate | ..];
    rewrite int_of_uint, Hp; reflexivity.
Qed.

Lemma int_of_digits_nonnegative (s : string) : 0 <= int_of_digits s.
Proof.
  unfold int_of_digits.
  assert (Hacc : forall l acc, 0 <= acc ->
            0 <= fold_left (fun acc c => acc * 10 + Z.of_nat (nat_of_ascii c - 48)) l acc).
  { induction l as [|c l IH]; intros acc Hacc; [exact Hacc|].
    cbn [fold_left]. apply IH. lia. }
  apply Hacc. lia.
Qed.

Lemma append_assoc (a b c : string) : (a ++ b) ++ c = a ++ (b ++ c).
Proof.
  induction a as [|x a IH]; [reflexivity|].
  change (String x ((a ++ b) ++ c) = String x (a ++ (b ++ c))). rewrite IH. reflexivity.
Qed.

Lemma match_time_steps (s : string) :
  match_time s =
  match plus is_digit s with
  | Some (h, s1) =>
      match lit ":" s1 with
      | Some s2 =>
          match plus is_digit s2 with
          | Some (mi, String c _) =>
              if Ascii.eqb c "a" || Ascii.eqb c "p" then Some (h, mi, c) else None
          | _ => None
          end
      | None => None
      end
  | None => None
  end.
Proof. reflexivity. Qed.

Lemma match_time_upper (s : string) : match_time (html_reader.upper s) = None.
Proof.
  unfold match_time.
  destruct (plus is_digit (html_reader.upper s)) as [[h r1]|] eqn:Hh; [|reflexivity].
  apply plus_spec in Hh as (Hs & _). cbn.
  destruct (lit ":" r1) as [r2|] eqn:Hl; [|reflexivity]. cbn.
  destruct (plus is_digit r2) as [[mi r3]|] eqn:Hm; [|reflexivity]. cbn.
  apply plus_spec in Hm as (Hr2 & _).
  destruct r3 as [|c r3]; [reflexivity|].
  assert (Hc : exists c', c = html_reader.upper_char c').
  { assert (Hsub : forall t a b, html_reader.upper t = a ++ String c b ->
                     exists c', c = html_reader.upper_char c').
    { clear. intros t a. revert t.
      induction a as [|x a IH]; intros [|y t] b Ht; cbn in Ht; try discriminate.
      - injection Ht as Hx _. eauto.
      - injection Ht as _ Ht. eapply IH. exact Ht. }
    destruct r1 as [|c1 r1]; unfold lit in Hl; [discriminate|].
    destruct (Ascii.eqb ":" c1) eqn:Hc1; [|discriminate]. injection Hl as <-.
    apply Ascii.eqb_eq in Hc1 as <-.
    apply (Hsub s (h ++ String ":" mi) r3).
    rewrite Hs, Hr2. symmetry. apply (append_assoc h (String ":" mi) (String c r3)). }
  destruct Hc as [c' ->]. rewrite upper_char_meridiem. reflexivity.
Qed.

(** X18: a time of the page that [convert_time_format] converts (hour,
    minute and AM or PM found after stripping and upper-casing) is read by
    the time pattern of [parse_datetime] as the same hour and minute, with
    [a] for AM and [p] for PM; a time it cannot convert is returned stripped
    and upper-cased, and that text is never accepted by the time pattern of
    [parse_datetime]. *)
Theorem converted_time_read (time_str : string) :
  match html_reader.match_clock (html_reader.upper (html_reader.strip time_str)) with
  | Some (h, mi, am_pm) =>
      match_time (html_reader.convert_time_format time_str)
      = Some (html_reader.str (int_of_digits h), mi,
              if String.eqb am_pm "AM" then "a"%char else "p"%char)
      /\ int_of_digits (html_reader.str (int_of_digits h)) = int_of_digits h
  | None =>
      html_reader.convert_time_format time_str
      = html_reader.upper (html_reader.strip time_str)
      /\ match_time (html_reader.convert_time_format time_str) = None
  end.
Proof.
  unfold html_reader.convert_time_format.
  destruct (html_reader.match_clock _) as [[[h mi] am_pm]|] eqn:Hclock.
  - split; [|apply int_of_str, int_of_digits_nonnegative].
    unfold html_reader.match_clock in Hclock.
    destruct (plus is_digit _) as [[h0 r1]|] eqn:Hh; [|discriminate]. cbn in Hclock.
    destruct (lit ":" r1) as [r2|] eqn:Hl; [|discriminate]. cbn in Hclock.
    destruct (plus is_digit r2) as [[mi0 r3]|] eqn:Hm; [|discriminate]. cbn in Hclock.
    apply plus_spec in Hm as (_ & Hmi_ne & Hmi & _).
    destruct (digits_of_str (int_of_digits h) (int_of_digits_nonnegative h))
      as [Hstr_ne Hstr].
    assert (Hread : forall c,
               Ascii.eqb c "a" || Ascii.eqb c "p" = true -> is_digit c = false ->
               match_time (html_reader.str (int_of_digits h0) ++ ":" ++ mi0 ++ String c "")
               = Some (html_reader.str (int_of_digits h0), mi0, c)).
    { intros c Hc Hnd. rewrite match_time_steps.
      assert (Hstr0 := digits_of_str (int_of_digits h0) (int_of_digits_nonnegative h0)).
      destruct Hstr0 as [Hne0 Hd0].
      rewrite (plus_app is_digit _ _ Hne0 Hd0) by reflexivity. cbv beta iota.
      change (lit ":" (":" ++ mi0 ++ String c "")) with (Some (mi0 ++ String c "")).
      cbv beta iota.
      rewrite (plus_app is_digit mi0 (String c "") Hmi_ne Hmi) by exact Hnd.
      cbv beta iota. rewrite Hc. reflexivity. }
    destruct (String.prefix "AM" _); [|destruct (String.prefix "PM" _); [|discriminate]];
      injection Hclock as <- <- <-; apply Hread; reflexivity.
  - split; [reflexivity | apply match_time_upper].
Qed.

Lemma match_date_steps (s : string) :
  match_date s =
  match plus is_word s with
  | Some (_, s1) =>
      match lit "," s1 with
      | Some s2 =>
          match plus is_space s2 with
          | Some (_, s3) =>
              match plus is_word s3 with
              | Some (mon, s4) =>
                  match plus is_space s4 with
                  | Some (_, s5) =>
                      match plus is_digit s5 with
                      | Some (d, s6) =>
                          match lit "," s6 with
                          | Some s7 =>
                              match plus is_space s7 with
                              | Some (_, s8) =>
                                  match plus is_digit s8 with
                                  | Some (y, _) => Some (mon, d, y)
                                  | None => None
                                  end
                              | None => None
                              end
                          | None => None
                          end
                      | None => None
                      end
                  | None => None
                  end
              | None => None
              end
          | None => None
          end
      | None => None
      end
  | None => None
  end.
Proof. reflexivity. Qed.

Lemma match_date_of_header (day_name month_name day year : string) :
  day_name <> "" -> html_reader.all_chars is_word day_name = true ->
  month_name <> "" -> html_reader.all_chars is_word month_name = true ->
  day <> "" -> html_reader.all_chars is_digit day = true ->
  year <> "" -> html_reader.all_chars is_digit year = true ->
  match_date (day_name ++ ", " ++ month_name ++ " " ++ day ++ ", " ++ year)
  = Some (month_name, day, year).
Proof.
  intros Hdn_ne Hdn Hmn_ne Hmn Hd_ne Hd Hy_ne Hy.
  rewrite match_date_steps.
  rewrite (plus_app is_word day_name _ Hdn_ne Hdn) by reflexivity. cbv beta iota.
  change (lit "," (", " ++ month_name ++ " " ++ day ++ ", " ++ year))
    with (Some (" " ++ month_name ++ " " ++ day ++ ", " ++ year)).
  cbv beta iota.
  rewrite (plus_app is_space " " (month_name ++ " " ++ day ++ ", " ++ year))
    by (try discriminate; try reflexivity;
        apply (stops_app is_space is_word); auto using word_not_space).
  cbv beta iota.
  rewrite (plus_app is_word month_name _ Hmn_ne Hmn) by reflexivity. cbv beta iota.
  rewrite (plus_app is_space " " (day ++ ", " ++ year))
    by (try discriminate; try reflexivity;
        apply (stops_app is_space is_digit); auto using digit_not_space).
  cbv beta iota.
  rewrite (plus_app is_digit day _ Hd_ne Hd) by reflexivity. cbv beta iota.
  change (lit "," (", " ++ year)) with (Some (" " ++ year)). cbv beta iota.
  replace year with (year ++ "") at 1
    by (clear; induction year as [|c y IH]; [reflexivity|];
        change (String c (y ++ "") = String c y); rewrite IH; reflexivity).
  rewrite (plus_app is_space " " (year ++ ""))
    by (try discriminate; try reflexivity;
        apply (stops_app is_space is_digit); auto using digit_not_space).
  cbv beta iota.
  rewrite (plus_app is_digit year "" Hy_ne Hy) by exact I.
  reflexivity.
Qed.

(** X19: a date header that [parse_date_header] accepts gives a game date
    that the date pattern of [parse_datetime] accepts, with the month name
    and the day of the header; the year is 2024 for October to December and
    2025 for the other months; a month name that is no key of the month
    table also gets 2025 from [parse_date_header], and [parse_datetime] then
    raises a [KeyError] on the game date, whatever the time. *)
Theorem date_header_read (date_text game_date : string) :
  html_reader.parse_date_header date_text = Some game_date ->
  exists day_name month_name day year,
    html_reader.match_date_header (html_reader.strip date_text)
    = Some (day_name, month_name, day)
    /\ match_date game_date = Some (month_name, day, year)
    /\ int_of_digits year
       = match month_map !! month_name with
         | Some m => if 10 <=? m then 2024 else 2025
         | None => 2025
         end
    /\ (month_map !! month_name = None ->
        forall time_str,
          parse_datetime game_date time_str = Raise (KeyError month_name)).
Proof.
  unfold html_reader.parse_date_header.
  destruct (html_reader.match_date_header _) as [[[day_name month_name] day]|] eqn:Hh;
    [|discriminate].
  intros [= <-].
  set (year := if 10 <=? default 1 (html_reader.month_num !! month_name)
               then 2024 else 2025).
  exists day_name, month_name, day, (html_reader.str year).
  unfold html_reader.match_date_header in Hh.
  destruct (plus is_word _) as [[dn r1]|] eqn:H1; [|discriminate]. cbn in Hh.
  destruct (plus is_space r1) as [[sp1 r2]|] eqn:H2; [|discriminate]. cbn in Hh.
  destruct (plus is_word r2) as [[mn r3]|] eqn:H3; [|discriminate]. cbn in Hh.
  destruct (plus is_space r3) as [[sp2 r4]|] eqn:H4; [|discriminate]. cbn in Hh.
  destruct (plus is_digit r4) as [[dd r5]|] eqn:H5; [|discriminate]. cbn in Hh.
  injection Hh as -> -> ->.
  apply plus_spec in H1 as (_ & Hdn_ne & Hdn & _).
  apply plus_spec in H3 as (_ & Hmn_ne & Hmn & _).
  apply plus_spec in H5 as (_ & Hd_ne & Hd & _).
  assert (Hyear : 0 <= year) by (unfold year; destruct (10 <=? _); lia).
  destruct (digits_of_str year Hyear) as [Hy_ne Hy].
  assert (Hdate : match_date (day_name ++ ", " ++ month_name ++ " " ++ day ++ ", "
                                ++ html_reader.str year)
                  = Some (month_name, day, html_reader.str year))
    by (apply match_date_of_header; assumption).
  split; [reflexivity|]. split; [exact Hdate|]. split.
  - rewrite (int_of_str year Hyear). unfold year.
    change html_reader.month_num with month_map.
    destruct (month_map !! month_name); reflexivity.
  - intros Hmonth time_str. unfold parse_datetime. rewrite Hdate, Hmonth. reflexivity.
Qed.

(** ** Team names of the scraped page *)

Lemma match_team_abbreviation_range (abbrev : string) :
  html_reader.match_team_abbreviation abbrev = abbrev
  \/ In (html_reader.match_team_abbreviation abbrev) (map snd html_reader.team_map).
Proof.
  unfold html_reader.match_team_abbreviation.
  repeat match goal with
         | |- context [find ?f html_reader.team_map] =>
             let Hf := fresh "Hf" in
             destruct (find f html_reader.team_map) as [[? ?]|] eqn:Hf;
             [right; apply find_some in Hf as [Hf _];
              apply (in_map snd) in Hf; exact Hf|]
         end.
  left. reflexivity.
Qed.

Lemma team_map_values_fixed (name : string) :
  In name (map snd html_reader.team_map) ->
  html_reader.match_team_abbreviation name = name.
Proof.
  assert (Hall : forallb (fun name =>
                            String.eqb (html_reader.match_team_abbreviation name) name)
                         (map snd html_reader.team_map) = true)
    by (vm_compute; reflexivity).
  intros Hin. rewrite forallb_forall in Hall.
  apply String.eqb_eq, Hall, Hin.
Qed.

(** X20: [match_team_abbreviation] returns its argument or one of the full
    names the table maps to, and applying it to its result changes nothing:
    the names it produces are stable. *)
Theorem team_names_stable (abbrev : string) :
  (html_reader.match_team_abbreviation abbrev = abbrev
   \/ In (html_reader.match_team_abbreviation abbrev) (map snd html_reader.team_map))
  /\ html_reader.match_team_abbreviation (html_reader.match_team_abbreviation abbrev)
     = html_reader.match_team_abbreviation abbrev.
Proof.
  split; [apply match_team_abbreviation_range|].
  destruct (match_team_abbreviation_range abbrev) as [Heq|Hin].
  - rewrite !Heq. reflexivity.
  - apply team_map_values_fixed, Hin.
Qed.

Lemma strip_prefix_length (sep s rest : string) :
  html_reader.strip_prefix sep s = Some rest ->
  String.length s = (String.length sep + String.length rest)%nat.
Proof.
  revert s. induction sep as [|a sep IH]; intros s.
  - cbn. intros [= <-]. reflexivity.
  - destruct s as [|b s]; cbn [html_reader.strip_prefix]; [discriminate|].
    destruct (Ascii.eqb a b); [|discriminate].
    intros Hrest. apply IH in Hrest. cbn [String.length]. lia.
Qed.

Lemma partition_length (sep s a b : string) :
  html_reader.partition sep s = Some (a, b) ->
  String.length s = (String.length a + String.length sep + String.length b)%nat.
Proof.
  revert a b. induction s as [|c s IH]; intros a b; cbn [html_reader.partition].
  - destruct (html_reader.strip_prefix sep "") as [rest|] eqn:Hp; [|discriminate].
    intros [= <- <-]. apply strip_prefix_length in Hp. cbn [String.length] in *. lia.
  - destruct (html_reader.strip_prefix sep (String c s)) as [rest|] eqn:Hp.
    + intros [= <- <-]. apply strip_prefix_length in Hp. cbn [String.length] in *. lia.
    + destruct (html_reader.partition sep s) as [[a' b']|]; [|discriminate].
      intros [= <- <-]. specialize (IH a' b' eq_refl). cbn [String.length]. lia.
Qed.

(** X21: [parse_matchup] raises its [ValueError] exactly when the text has no
    [" @ "], and never an [IndexError]; otherwise the visitor is the team of
    the text before the first [" @ "] and the home team the team of the text
    between the first and the second [" @ "] (what follows a second one is
    dropped), and both names are stable under [match_team_abbreviation]. *)
Theorem parse_matchup_teams (matchup_str : string) :
  match html_reader.partition " @ " matchup_str with
  | None =>
      html_reader.contains " @ " matchup_str = false
      /\ html_reader.parse_matchup matchup_str
         = Raise (ValueError ("Invalid matchup format: " ++ matchup_str))
  | Some (before, after) =>
      let between := match html_reader.partition " @ " after with
                     | Some (text, _) => text
                     | None => after
                     end in
      let visitor := html_reader.match_team_abbreviation (html_reader.strip before) in
      let home := html_reader.match_team_abbreviation (html_reader.strip between) in
      html_reader.contains " @ " matchup_str = true
      /\ html_reader.parse_matchup matchup_str = Ok (visitor, home)
      /\ html_reader.match_team_abbreviation visitor = visitor
      /\ html_reader.match_team_abbreviation home = home
  end.
Proof.
  unfold html_reader.parse_matchup, html_reader.contains.
  destruct (html_reader.partition " @ " matchup_str) as [[before after]|] eqn:Hp.
  - cbv zeta. split; [reflexivity|]. split.
    + cbn [negb]. unfold html_reader.split.
      pose proof (partition_length _ _ _ _ Hp) as Hlen.
      change (String.length " @ ") with 3%nat in Hlen.
      destruct (String.length matchup_str) as [|[|n]]; [lia | lia |].
      cbn [html_reader.split_at]. rewrite Hp.
      destruct (html_reader.partition " @ " after) as [[text rest]|]; reflexivity.
    + split.
      * destruct (match_team_abbreviation_range (html_reader.strip before)) as [Heq|Hin];
          [rewrite !Heq; reflexivity | apply team_map_values_fixed, Hin].
      * match goal with
        | |- html_reader.match_team_abbreviation
               (html_reader.match_team_abbreviation ?x) = _ =>
            destruct (match_team_abbreviation_range x) as [Heq|Hin];
            [rewrite !Heq; reflexivity | apply team_map_values_fixed, Hin]
        end.
  - split; reflexivity.
Qed.

(** * The further properties on the sample data *)

Lemma planar_miles_nonnegative (a b : coords) : (0 <= planar_miles a b)%Q.
Proof.
  unfold planar_miles. apply Qmult_le_0_compat; [discriminate|].
  apply Qle_trans with (0 + 0)%Q; [discriminate|].
  apply Qplus_le_compat; apply Qabs_nonneg.
Qed.

Lemma chain_links_witness :
  exists d d',
    wizards_chain !! 0%nat = Some d
    /\ wizards_chain !! 1%nat = Some d'
    /\ previous_game_datetime d' = Some (game_datetime d)
    /\ previous_where_played d' = Some (where_played d)
    /\ gameindex d' = 2%nat.
Proof.
  destruct (wizards_chain !! 0%nat) as [d|] eqn:Hd; [|vm_compute in Hd; discriminate].
  destruct (wizards_chain !! 1%nat) as [d'|] eqn:Hd'; [|vm_compute in Hd'; discriminate].
  destruct (@chain_links stable_sort_values planar_miles stadiums_sample season_sample
              matrix_sample "Washington Wizards" wizards_chain 0 d d'
              wizards_chain_Ok Hd Hd') as (Hdt & Hwp & Hidx).
  exists d, d'. repeat split; try assumption.
  rewrite Hidx. evaluate Hd. reflexivity.
Defined.

Lemma chain_home_away_witness :
  exists d r,
    wizards_chain !! 3%nat = Some d
    /\ r ∈ season_sample
    /\ parse_datetime (Game_Date r) (Start_ET r) = Ok (game_datetime d)
    /\ where_played d = Home_Neutral r
    /\ location d = "away"
    /\ opponent d = "Miami Heat".
Proof.
  destruct (wizards_chain !! 3%nat) as [d|] eqn:Hd; [|vm_compute in Hd; discriminate].
  destruct (@chain_home_away stable_sort_values planar_miles stadiums_sample
              season_sample matrix_sample "Washington Wizards" wizards_chain d
              wizards_chain_Ok (list_elem_of_lookup_2 _ _ _ Hd))
    as (_ & r & Hr & Hparse & Hwhere & _).
  exists d, r. repeat split; try assumption; evaluate Hd; reflexivity.
Defined.

Lemma parse_error_aborts_witness :
  @schedulizer stable_sort_values planar_miles stadiums_sample season_postponed
               matrix_sample "Washington Wizards"
  = Raise (ValueError "Could not parse time: TBD")
  /\ @create_schedule_mapping stable_sort_values planar_miles stadiums_sample
                              season_postponed matrix_sample
     !! "Washington Wizards" = Some None.
Proof.
  apply (@parse_error_aborts stable_sort_values planar_miles stadiums_sample
           season_postponed matrix_sample "Washington Wizards"
           [mk_season_row "Wed, Oct 30, 2024" "7:00p" "Atlanta Hawks"
                          "Washington Wizards" "Capital One Arena"]
           (mk_season_row "Sat, Nov 2, 2024" "TBD" "Miami Heat" "Washington Wizards"
                          "Capital One Arena")
           [mk_season_row "Mon, Nov 4, 2024" "7:00p" "Washington Wizards" "Miami Heat"
                          "Kaseya Center"]).
  - vm_compute. reflexivity.
  - repeat constructor. exists (mk_datetime 2024 10 30 19 0). vm_compute. reflexivity.
  - vm_compute. reflexivity.
Defined.

Lemma batch_stores_chain_witness :
  exists chain,
    @schedulizer stable_sort_values planar_miles stadiums_sample season_sample
                 matrix_sample "Washington Wizards" = Ok chain
    /\ @create_schedule_mapping stable_sort_values planar_miles stadiums_sample
                                season_sample matrix_sample
       !! "Washington Wizards" = Some (Some chain)
    /\ length chain = 7%nat.
Proof.
  destruct (@batch_stores_chain stable_sort_values planar_miles stadiums_sample
              season_sample matrix_sample "Washington Wizards")
    as (chain & Hrun & Hbatch & Hlen).
  - exists (mk_season_row "Sat, Nov 2, 2024" "9:30p" "Miami Heat" "Washington Wizards"
                          "Mexico City Arena").
    split; [left | right; reflexivity].
  - apply Forall_forall. intros r Hr.
    destruct (parse_datetime (Game_Date r) (Start_ET r)) as [dt|e] eqn:Hp;
      [exists dt; reflexivity|].
    exfalso. revert Hp. apply list_elem_of_In in Hr. vm_compute in Hr.
    repeat (destruct Hr as [<-|Hr]; [vm_compute; discriminate|]). contradiction.
  - left. apply Forall_forall. intros r Hr.
    apply list_elem_of_In in Hr. vm_compute in Hr.
    repeat (destruct Hr as [<-|Hr]; [vm_compute; reflexivity|]). contradiction.
  - exists chain. split; [exact Hrun|]. split; [exact Hbatch|].
    rewrite Hlen. vm_compute. reflexivity.
Defined.

Lemma burden_nonnegative_witness :
  exists d x b,
    wizards_chain !! 1%nat = Some d
    /\ travel_distance d = Some x /\ (0 <= x)%Q
    /\ game_mile_hours_burden d = Some b /\ (0 <= b)%Q.
Proof.
  destruct (wizards_chain !! 1%nat) as [d|] eqn:Hd; [|vm_compute in Hd; discriminate].
  assert (Hmatrix : nonnegative_matrix matrix_sample = true) by (vm_compute; reflexivity).
  destruct (@burden_nonnegative stable_sort_values planar_miles stadiums_sample
              season_sample matrix_sample "Washington Wizards" wizards_chain d
              planar_miles_nonnegative Hmatrix wizards_chain_Ok
              (list_elem_of_lookup_2 _ _ _ Hd)) as [Hx Hb].
  destruct (travel_distance d) as [x|] eqn:Hdist;
    [|exfalso; evaluate Hd; vm_compute in Hdist; discriminate].
  destruct (game_mile_hours_burden d) as [b|] eqn:Hburden;
    [|exfalso; evaluate Hd; vm_compute in Hburden; discriminate].
  exists d, x, b.
  split; [reflexivity|]. split; [exact Hdist|]. split; [apply Hx; reflexivity|].
  split; [exact Hburden | apply Hb; reflexivity].
Defined.

Lemma parse_datetime_twelve_hour_witness :
  parse_datetime "Fri, Nov 8, 2024" "12:05a" = Ok (mk_datetime 2024 11 8 0 5)
  /\ parse_datetime "Fri, Nov 8, 2024" "10:00p" = Ok (mk_datetime 2024 11 8 22 0).
Proof.
  split.
  - rewrite (parse_datetime_twelve_hour "Fri, Nov 8, 2024" "12:05a"
               "Nov" "8" "2024" 11 "12" "05" "a");
      [vm_compute; reflexivity | vm_compute; reflexivity | vm_compute; reflexivity
      | vm_compute; reflexivity | vm_compute; split; discriminate].
  - rewrite (parse_datetime_twelve_hour "Fri, Nov 8, 2024" "10:00p"
               "Nov" "8" "2024" 11 "10" "00" "p");
      [vm_compute; reflexivity | vm_compute; reflexivity | vm_compute; reflexivity
      | vm_compute; reflexivity | vm_compute; split; discriminate].
Defined.

Lemma get_team_schedule_batch_witness :
  get_team_schedule
    (@create_schedule_mapping stable_sort_values planar_miles stadiums_sample
                              season_sample matrix_sample) "Washington Wizards"
  = Some wizards_chain.
Proof.
  apply (@get_team_schedule_batch stable_sort_values planar_miles stadiums_sample
           season_sample matrix_sample "Washington Wizards" wizards_chain).
  split; [|exact wizards_chain_Ok].
  exists (mk_season_row "Sat, Nov 2, 2024" "9:30p" "Miami Heat" "Washington Wizards"
                        "Mexico City Arena").
  split; [left | right; reflexivity].
Defined.

Lemma total_distance_of_batch_witness :
  exists totals,
    @metrics_normalized.calculate_total_distance
      stable_sort_values planar_miles stadiums_sample season_sample matrix_sample None
    = Ok totals
    /\ totals !! "Washington Wizards"
       = Some (Some (py_sum (omap travel_distance wizards_chain))).
Proof.
  destruct (@total_distance_of_batch stable_sort_values planar_miles stadiums_sample
              season_sample matrix_sample) as (totals & Htotals & Hspec).
  exists totals. split; [exact Htotals|].
  assert (Hin : "Washington Wizards" ∈ all_teams season_sample)
    by (apply list_elem_of_In; vm_compute; tauto).
  specialize (Hspec "Washington Wizards" Hin).
  rewrite wizards_chain_Ok in Hspec. destruct Hspec as (_ & _ & Htwo).
  apply Htwo. change (length wizards_chain) with 7%nat. lia.
Defined.

Lemma cumulative_burden_prefix_sums_witness :
  exists game_numbers cumulative_burdens,
    visualize_burden.calculate_cumulative_burden (Some wizards_chain)
    = Some (game_numbers, cumulative_burdens)
    /\ game_numbers = [1; 2; 3; 4; 5; 6; 7]%nat
    /\ length cumulative_burdens = 7%nat
    /\ cumulative_burdens !! 2%nat
       = Some (py_sum (omap game_mile_hours_burden (take 3 wizards_chain))).
Proof.
  destruct (cumulative_burden_prefix_sums wizards_chain)
    as (game_numbers & cumulative_burdens & Hrun & Hnumbers & Hlen & Hsum).
  exists game_numbers, cumulative_burdens.
  split; [exact Hrun|]. split; [rewrite Hnumbers; vm_compute; reflexivity|].
  split; [rewrite Hlen; reflexivity|].
  apply Hsum. change (length wizards_chain) with 7%nat. lia.
Defined.

Lemma cumulative_ends_at_total_witness :
  exists totals game_numbers cumulative_burdens total,
    @calculate_total_burden stable_sort_values planar_miles stadiums_sample
                            season_sample matrix_sample (Some wizards_mapping)
    = Ok totals
    /\ visualize_burden.calculate_cumulative_burden
         (get_team_schedule wizards_mapping "Washington Wizards")
       = Some (game_numbers, cumulative_burdens)
    /\ totals !! "Washington Wizards" = Some (Some total)
    /\ last cumulative_burdens = Some total.
Proof.
  destruct (for_items_total total_burden_of wizards_mapping total_burden_of_total)
    as (totals & Htotals & Hspec).
  specialize (Hspec "Washington Wizards").
  assert (Hteam : wizards_mapping !! "Washington Wizards" = Some (Some wizards_chain))
    by (vm_compute; reflexivity).
  rewrite Hteam in Hspec. destruct Hspec as (w & Hw & Hbody).
  destruct w as [total|]; [|exfalso; vm_compute in Hbody; discriminate].
  destruct (@cumulative_ends_at_total stable_sort_values planar_miles stadiums_sample
              season_sample matrix_sample wizards_mapping "Washington Wizards"
              _ _ totals Hteam Htotals)
    as (game_numbers & cumulative_burdens & Hrun & Hlast).
  exists totals, game_numbers, cumulative_burdens, total.
  split; [exact Htotals|]. split; [exact Hrun|]. split; [exact Hw|].
  rewrite Hw in Hlast. exact Hlast.
Defined.

Lemma cumulative_curve_witness :
  exists game_numbers cumulative_burdens x y,
    visualize_burden.calculate_cumulative_burden (Some wizards_chain)
    = Some (game_numbers, cumulative_burdens)
    /\ game_numbers = seq 1 7
    /\ cumulative_burdens !! 0%nat = Some 0%Q
    /\ cumulative_burdens !! 1%nat = Some x
    /\ cumulative_burdens !! 2%nat = Some y
    /\ (x <= y)%Q.
Proof.
  assert (Hmatrix : nonnegative_matrix matrix_sample = true) by (vm_compute; reflexivity).
  destruct (@cumulative_curve stable_sort_values planar_miles stadiums_sample
              season_sample matrix_sample "Washington Wizards" wizards_chain
              planar_miles_nonnegative Hmatrix wizards_chain_Ok)
    as (game_numbers & cumulative_burdens & Hrun & Hnumbers & Hstart & Hgrows).
  assert (Hlen : length cumulative_burdens = 7%nat).
  { assert (Hcb : cumulative_burdens = visualize_burden.running_totals 0 wizards_chain)
      by (rewrite cumulative_burden_Some in Hrun; congruence).
    rewrite Hcb, running_totals_length. reflexivity. }
  destruct (cumulative_burdens !! 1%nat) as [x|] eqn:Hx;
    [|apply lookup_ge_None in Hx; lia].
  destruct (cumulative_burdens !! 2%nat) as [y|] eqn:Hy;
    [|apply lookup_ge_None in Hy; lia].
  exists game_numbers, cumulative_burdens, x, y.
  split; [exact Hrun|]. split; [exact Hnumbers|]. split; [exact Hstart|].
  split; [exact Hx|]. split; [exact Hy|]. exact (Hgrows 1%nat x y Hx Hy).
Defined.

Lemma normalized_by_team_row_witness :
  exists distances burdens normalized_distances normalized_burdens,
    @metrics_normalized.calculate_total_distance
      stable_sort_values planar_miles stadiums_sample season_sample matrix_sample
      (Some wizards_mapping) = Ok distances
    /\ @calculate_total_burden
         stable_sort_values planar_miles stadiums_sample season_sample matrix_sample
         (Some wizards_mapping) = Ok burdens
    /\ @metrics_normalized.calculate_normalized_total_distance
         stable_sort_values planar_miles stadiums_sample season_sample matrix_sample
         csv_sample decimal_float (Some wizards_mapping) (Some bty_sample)
       = analysis.Returns normalized_distances
    /\ @metrics_normalized.calculate_normalized_total_burden
         stable_sort_values planar_miles stadiums_sample season_sample matrix_sample
         csv_sample decimal_float (Some wizards_mapping) (Some bty_sample)
       = analysis.Returns normalized_burdens
    /\ normalized_entry bty_sample distances normalized_distances "Washington Wizards"
    /\ normalized_entry bty_sample burdens normalized_burdens "Washington Wizards".
Proof.
  assert (Hrows : NoDup ((fun r => metrics_normalized.normalize_team_name
                                     (analysis.bty_team r)) <$> bty_sample))
    by (apply (bool_decide_unpack _); vm_compute; reflexivity).
  destruct (@normalized_by_team_row stable_sort_values planar_miles stadiums_sample
              season_sample matrix_sample csv_sample decimal_float wizards_mapping
              bty_sample Hrows)
    as (distances & burdens & nd & nb & Hd & Hb & Hnd & Hnb & Hentries).
  exists distances, burdens, nd, nb.
  repeat (split; [assumption|]). apply Hentries.
Defined.

Lemma bty_rows_positive_witness :
  analysis.nonnegative_csv decimal_float csv_sample = true
  /\ analysis.create_BTY_dataframe decimal_float csv_sample = analysis.Returns bty_sample
  /\ length bty_sample = 3%nat
  /\ NoDup (analysis.bty_team <$> bty_sample)
  /\ Forall (fun row =>
               analysis.bty_team row <> ""
               /\ (0 < analysis.average_distance row)%Q
               /\ analysis.average_yearly_road_trip row
                  = (analysis.average_distance row * 41)%Q
               /\ Qpositive (analysis.average_yearly_road_trip row) = true) bty_sample.
Proof.
  assert (Hcsv : analysis.nonnegative_csv decimal_float csv_sample = true)
    by (vm_compute; reflexivity).
  assert (Hrun : analysis.create_BTY_dataframe decimal_float csv_sample
                 = analysis.Returns bty_sample) by (vm_compute; reflexivity).
  split; [exact Hcsv|]. split; [exact Hrun|]. split; [reflexivity|].
  exact (bty_rows_positive decimal_float csv_sample bty_sample Hcsv Hrun).
Defined.

Lemma unreadable_field_aborts_witness :
  analysis.calculate_average_distances decimal_float csv_unreadable
  = analysis.Raises
      (analysis.Builtin (ValueError "could not convert string to float: n/a"))
  /\ analysis.create_BTY_dataframe decimal_float csv_unreadable
     = analysis.Raises
         (analysis.Builtin (ValueError "could not convert string to float: n/a"))
  /\ @metrics_normalized.calculate_normalized_total_distance
       stable_sort_values planar_miles stadiums_sample season_sample matrix_sample
       csv_unreadable decimal_float (Some wizards_mapping) None
     = analysis.Raises
         (analysis.Builtin (ValueError "could not convert string to float: n/a"))
  /\ @metrics_normalized.calculate_normalized_total_burden
       stable_sort_values planar_miles stadiums_sample season_sample matrix_sample
       csv_unreadable decimal_float (Some wizards_mapping) None
     = analysis.Raises
         (analysis.Builtin (ValueError "could not convert string to float: n/a"))
  /\ analysis.create_BTY_dataframe decimal_float []
     = analysis.Raises analysis.StopIteration.
Proof.
  apply (@unreadable_field_aborts stable_sort_values planar_miles stadiums_sample
           season_sample matrix_sample decimal_float wizards_mapping
           [""; "Washington Wizards"; "Miami Heat"; "Sacremento Kings"]
           [["Washington Wizards"; "0.0"; "923.5"; "2372.1"]]
           "Miami Heat" ["923.5"; ""; "n/a"; "2547.8"]
           [["Sacremento Kings"; "2372.1"; "2547.8"; "0.0"]]
           [("Washington Wizards", ((9235 # 10) + (23721 # 10)) / 2)%Q]
           ["923.5"] "n/a" ["2547.8"]
           (ValueError "could not convert string to float: n/a")).
  - vm_compute. reflexivity.
  - discriminate.
  - vm_compute. reflexivity.
  - repeat constructor. exists (9235 # 10)%Q. vm_compute. reflexivity.
  - vm_compute. reflexivity.
Defined.

Lemma date_header_read_witness :
  html_reader.parse_date_header "  Tue Oct 21 " = Some "Tue, Oct 21, 2024"
  /\ exists year,
       match_date "Tue, Oct 21, 2024" = Some ("Oct", "21", year)
       /\ int_of_digits year = 2024.
Proof.
  assert (Hheader : html_reader.parse_date_header "  Tue Oct 21 "
                    = Some "Tue, Oct 21, 2024") by (vm_compute; reflexivity).
  split; [exact Hheader|].
  destruct (date_header_read "  Tue Oct 21 " "Tue, Oct 21, 2024" Hheader)
    as (day_name & month_name & day & year & Hmatch & Hdate & Hyear & _).
  vm_compute in Hmatch. injection Hmatch as <- <- <-.
  exists year. split; [exact Hdate|].
  rewrite Hyear. vm_compute. reflexivity.
Defined.
